(** * caddy-uwsgi-transport: the uwsgi variable-block encoder and relay

    A shallow embedding of [uwsgi.go] (package [uwsgi]):
    [writeBlockVar], [generateBlockVars] and [Transport.RoundTrip],
    together with the few functions of Go's standard library they call
    ([strings.Split], [strings.Join], [strings.ToUpper], the byte replacer
    built by [strings.NewReplacer], [net.SplitHostPort], [Header.Get],
    [binary.Write] of a [uint16], [io.Copy]).

    Go strings are byte strings: they are modelled by [string], one [ascii]
    per byte.  Buffers and the bytes on the wire are [list byte].  Go's [int]
    is modelled by [Z]; the conversion [uint16(n)] is written out as a
    reduction modulo 2^16.  Go maps are [gmap]s; the unspecified order of a
    [range] loop over a map is an explicit parameter ([MapRange]). *)

From Stdlib Require Import ZArith Lia List Ascii String Strings.Byte.
From stdpp Require Import base option list gmap strings.

Local Open Scope string_scope.
Local Open Scope Z_scope.

(** ** Outcomes of a Go call: a normal return or a run-time panic *)

Inductive panic : Type :=
  | IndexOutOfRange (i n : Z)          (* index out of range [i] with length n *)
  | SliceOutOfRange (lo hi n : Z).     (* slice bounds out of range *)

Inductive outcome (A : Type) : Type :=
  | Returns (a : A)
  | Panics (p : panic).
Arguments Returns {A} a.
Arguments Panics {A} p.

Definition obind {A B} (x : outcome A) (k : A -> outcome B) : outcome B :=
  match x with
  | Returns a => k a
  | Panics p => Panics p
  end.

Notation "'let*' x ':=' c 'in' k" := (obind c (fun x => k))
  (at level 10, x name, c at level 100, k at level 200).

(** ** Strings and slices of the Go runtime *)

Module GoString.

Definition len (s : string) : Z := Z.of_nat (String.length s).

(** [s[i]]: panics when [i] is not an index of [s]. *)
Definition index (s : string) (i : Z) : outcome ascii :=
  if (i <? 0) || (len s <=? i) then Panics (IndexOutOfRange i (len s))
  else match String.get (Z.to_nat i) s with
       | Some c => Returns c
       | None => Panics (IndexOutOfRange i (len s))
       end.

(** [s[lo:hi]]: panics unless [0 <= lo <= hi <= len(s)]. *)
Definition slice (s : string) (lo hi : Z) : outcome string :=
  if (lo <? 0) || (hi <? lo) || (len s <? hi)
  then Panics (SliceOutOfRange lo hi (len s))
  else Returns (String.substring (Z.to_nat lo) (Z.to_nat (hi - lo)) s).

(** The same slice where the bounds are known to be in range
    (used inside [net.SplitHostPort], which never panics). *)
Definition sub (s : string) (lo hi : Z) : string :=
  String.substring (Z.to_nat lo) (Z.to_nat (hi - lo)) s.

Definition byteAt (s : string) (i : Z) : ascii :=
  match String.get (Z.to_nat i) s with
  | Some c => c
  | None => Ascii.zero
  end.

(** [[]byte(s)] *)
Definition bytes (s : string) : list byte := list_byte_of_string s.

End GoString.

Module GoSlice.

Definition len {A} (l : list A) : Z := Z.of_nat (List.length l).

(** [l[i]] *)
Definition index {A} (l : list A) (i : Z) : outcome A :=
  if (i <? 0) || (len l <=? i) then Panics (IndexOutOfRange i (len l))
  else match nth_error l (Z.to_nat i) with
       | Some x => Returns x
       | None => Panics (IndexOutOfRange i (len l))
       end.

(** [l[:hi]] *)
Definition upto {A} (l : list A) (hi : Z) : outcome (list A) :=
  if (hi <? 0) || (len l <? hi) then Panics (SliceOutOfRange 0 hi (len l))
  else Returns (firstn (Z.to_nat hi) l).

End GoSlice.

(** ** Package [strings] *)

Module strings.

(** [strings.Split(s, sep)] for a separator [sep] of one byte, as at
    the single call site ([":"]).  The result is never empty. *)
Fixpoint Split (s : string) (sep : ascii) : list string :=
  match s with
  | EmptyString => [EmptyString]
  | String c s' =>
      if Ascii.eqb c sep then EmptyString :: Split s' sep
      else match Split s' sep with
           | x :: xs => String c x :: xs
           | [] => [String c EmptyString]
           end
  end.

(** [strings.Join(elems, sep)] *)
Fixpoint Join (elems : list string) (sep : string) : string :=
  match elems with
  | [] => EmptyString
  | [x] => x
  | x :: xs => x ++ sep ++ Join xs sep
  end.

Definition isASCIIbyte (c : ascii) : bool := (N_of_ascii c <? 128)%N.

Fixpoint isASCII (s : string) : bool :=
  match s with
  | EmptyString => true
  | String c s' => isASCIIbyte c && isASCII s'
  end.

(** ['a' <= c && c <= 'z'] then [c -= 'a' - 'A'] *)
Definition upperByte (c : ascii) : ascii :=
  let n := N_of_ascii c in
  if ((97 <=? n) && (n <=? 122))%N then ascii_of_N (n - 32) else c.

Fixpoint mapBytes (f : ascii -> ascii) (s : string) : string :=
  match s with
  | EmptyString => EmptyString
  | String c s' => String (f c) (mapBytes f s')
  end.

(** [strings.ToUpper(s)].  On a string of ASCII bytes it maps the letters
    byte by byte; otherwise it is [Map(unicode.ToUpper, s)], which depends
    on Go's Unicode tables and is the parameter [unicodeToUpper]. *)
Definition ToUpper (unicodeToUpper : string -> string) (s : string) : string :=
  if isASCII s then mapBytes upperByte s else unicodeToUpper s.

(** The replacer made by [strings.NewReplacer(old, new)] for two strings
    of one byte each: a byte-for-byte substitution. *)
Definition byteReplace (old new : ascii) (s : string) : string :=
  mapBytes (fun c => if Ascii.eqb c old then new else c) s.

(** [strings.Repeat(s, count)] for [count >= 0]. *)
Definition Repeat (s : string) (count : Z) : string :=
  Z.iter count (String.append s) EmptyString.

(** [strings.IndexByte], [strings.LastIndexByte]: [-1] when absent. *)
Fixpoint indexFrom (s : string) (c : ascii) (i : Z) : Z :=
  match s with
  | EmptyString => -1
  | String x s' => if Ascii.eqb x c then i else indexFrom s' c (i + 1)
  end.
Definition IndexByte (s : string) (c : ascii) : Z := indexFrom s c 0.

Fixpoint lastIndexFrom (s : string) (c : ascii) (i found : Z) : Z :=
  match s with
  | EmptyString => found
  | String x s' => lastIndexFrom s' c (i + 1) (if Ascii.eqb x c then i else found)
  end.
Definition LastIndexByte (s : string) (c : ascii) : Z := lastIndexFrom s c 0 (-1).

End strings.

(** ** [net.SplitHostPort] *)

Module net.

Inductive AddrError : Type :=
  | missingPort
  | tooManyColons
  | missingBracket          (* missing ']' in address *)
  | unexpectedOpenBracket   (* unexpected '[' in address *)
  | unexpectedCloseBracket. (* unexpected ']' in address *)

Definition addrErr (why : AddrError) : string * string * option AddrError :=
  (EmptyString, EmptyString, Some why).

(** [net.SplitHostPort(hostport)] returns [(host, port, err)]; on an
    error both strings are empty. *)
Definition SplitHostPort (hostport : string) : string * string * option AddrError :=
  let n := GoString.len hostport in
  let i := strings.LastIndexByte hostport ":" in
  if i <? 0 then addrErr missingPort
  else
    let bracketed := Ascii.eqb (GoString.byteAt hostport 0) "[" in
    let endb := strings.IndexByte hostport "]" in
    let check (host : string) (j k : Z) :=
      if 0 <=? strings.IndexByte (GoString.sub hostport j n) "["
      then addrErr unexpectedOpenBracket
      else if 0 <=? strings.IndexByte (GoString.sub hostport k n) "]"
      then addrErr unexpectedCloseBracket
      else (host, GoString.sub hostport (i + 1) n, None) in
    if bracketed then
      if endb <? 0 then addrErr missingBracket
      else if endb + 1 =? n then addrErr missingPort
      else if endb + 1 =? i then check (GoString.sub hostport 1 endb) 1 (endb + 1)
      else if Ascii.eqb (GoString.byteAt hostport (endb + 1)) ":"
      then addrErr tooManyColons
      else addrErr missingPort
    else
      let host := GoString.sub hostport 0 i in
      if 0 <=? strings.IndexByte host ":" then addrErr tooManyColons
      else check host 0 0.

End net.

(** ** [encoding/binary]: a [uint16] in little-endian order *)

Module binary.

(** The conversion [uint16(n)] of a Go [int]. *)
Definition uint16 (n : Z) : Z := n mod 65536.

Definition byte_of_Z (z : Z) : byte :=
  match Byte.of_N (Z.to_N (z mod 256)) with
  | Some b => b
  | None => x00
  end.

Definition Z_of_byte (b : byte) : Z := Z.of_N (Byte.to_N b).

(** [LittleEndian.PutUint16]: [b[0] = byte(v)], [b[1] = byte(v >> 8)]. *)
Definition PutUint16 (v : Z) : list byte :=
  [byte_of_Z v; byte_of_Z (Z.shiftr v 8)].

(** [LittleEndian.Uint16]: [uint16(b[0]) | uint16(b[1])<<8]. *)
Definition Uint16 (b0 b1 : byte) : Z :=
  Z.lor (Z_of_byte b0) (Z.shiftl (Z_of_byte b1) 8).

End binary.

(** ** Go's [error] values met in this package *)

Inductive error : Type :=
  | DialError (network address : string)   (* from net.Dial *)
  | WriteError                             (* from conn.Write *)
  | ErrShortWrite                          (* io.ErrShortWrite *)
  | BodyReadError                          (* from req.Body.Read *)
  | ResponseError (msg : string).          (* from http.ReadResponse *)

(** ** The request, the transport and the order of [range] *)

Module http.

Record URL : Type := mkURL {
  Scheme : string;
  URLHost : string;      (* req.URL.Host *)
  Path : string;
  RawQuery : string
}.

(** A request body ([io.ReadCloser]): the bytes it yields before it ends,
    and whether it ends with a read error instead of [io.EOF]. *)
Record ReadCloser : Type := mkBody {
  body_bytes : list byte;
  body_read_fails : bool
}.

(** The dial target the reverse proxy may leave in the request's context
    ([reverseproxy.GetDialInfo]). *)
Record DialInfo : Type := mkDialInfo {
  Network : string;
  Address : string
}.

Record Request : Type := mkRequest {
  Method : string;
  Url : URL;
  Proto : string;
  Header : gmap string (list string);
  Body : option ReadCloser;      (* [None]: req.Body == nil *)
  Host : string;
  RemoteAddr : string;
  RequestURI : string;
  TLS : bool;                    (* req.TLS != nil *)
  CtxDialInfo : option DialInfo
}.

(** [Header.Get(key)] for a [key] already in canonical form, as both keys
    of the source are (["Content-Type"], ["Content-Length"]): the first
    value stored under [key], or the empty string. *)
Definition Header_Get (h : gmap string (list string)) (key : string) : string :=
  match h !! key with
  | Some (v :: _) => v
  | _ => EmptyString
  end.

End http.

Record Transport : Type := mkTransport {
  UWSGIParams : gmap string string
}.

(** A [range] loop over a Go map visits every entry once, in an order the
    language leaves open.  [MapRange] is one choice of that order.  A call
    of [generateBlockVars] ranges over three maps, once each, so one
    [MapRange] stands for the orders of one call; the properties below hold
    for every [MapRange]. *)
Record MapRange : Type := mkMapRange {
  range : forall {V : Type}, gmap string V -> list (string * V);
  range_perm : forall (V : Type) (m : gmap string V), range m ≡ₚ map_to_list m
}.

(** The order stdpp happens to enumerate a map in: one admissible [range]. *)
Definition canonicalRange : MapRange :=
  {| range := fun V m => map_to_list m;
     range_perm := fun V m => reflexivity _ |}.

(** The reverse of it: another one. *)
Definition reverseRange : MapRange :=
  {| range := fun V m => reverse (map_to_list m);
     range_perm := fun V m => reverse_Permutation _ |}.

(** ** The encoder, [uwsgi.go] lines 70-143 *)

Section Encoder.

(** [Map(unicode.ToUpper, _)], reached by [strings.ToUpper] only on
    header names with a byte outside ASCII. *)
Variable unicodeToUpper : string -> string.

(** The order of the three [range] loops. *)
Variable rt : MapRange.

(** [headerNameReplacer = strings.NewReplacer("-", "_")] *)
Definition headerNameReplacer_Replace : string -> string :=
  strings.byteReplace "-" "_".

(** [writeBlockVar(buffer, s)]: the length of [s] converted to [uint16],
    little-endian, then the bytes of [s]. *)
Definition writeBlockVar (buffer : list byte) (s : string) : list byte :=
  let b := GoString.bytes s in
  buffer ++ binary.PutUint16 (binary.uint16 (GoSlice.len b)) ++ b.

(** Lines 80-90. *)
Definition serverNamePort (req : http.Request) : string * string :=
  let '(serverName, serverPort, err) := net.SplitHostPort (http.Host req) in
  let serverName := if err is Some _ then http.Host req else serverName in
  let serverPort :=
    if String.eqb serverPort "" then
      (if http.TLS req then "443" else "80")
    else serverPort in
  (serverName, serverPort).

(** Lines 97-103 and 118: [(remoteAddr, remoteAddrSplit[len-1])]. *)
Definition remoteAddrPort (req : http.Request) : outcome (string * string) :=
  let remoteAddrSplit := strings.Split (http.RemoteAddr req) ":" in
  let* front := GoSlice.upto remoteAddrSplit (GoSlice.len remoteAddrSplit - 1) in
  let remoteAddr := strings.Join front ":" in
  let* c0 := GoString.index remoteAddr 0 in
  let* bracketed :=
    (if Ascii.eqb c0 "[" then
       let* cl := GoString.index remoteAddr (GoString.len remoteAddr - 1) in
       Returns (Ascii.eqb cl "]")
     else Returns false) in
  let* remoteAddr :=
    (if bracketed then GoString.slice remoteAddr 1 (GoString.len remoteAddr - 1)
     else Returns remoteAddr) in
  let* remotePort := GoSlice.index remoteAddrSplit (GoSlice.len remoteAddrSplit - 1) in
  Returns (remoteAddr, remotePort).

(** The name a request header is sent under, line 130. *)
Definition headerVarName (name : string) : string :=
  "HTTP_" ++ headerNameReplacer_Replace (strings.ToUpper unicodeToUpper name).

(** The pair assigned for one header, line 130. *)
Definition headerVar (h : string * list string) : string * string :=
  (headerVarName (fst h), strings.Join (snd h) ", ").

(** The map literal of lines 105-123 and the assignment of lines 125-127. *)
Definition baseVars (req : http.Request) (serverName serverPort : string)
    (remoteAddr remotePort : string) : gmap string string :=
  let httpsConn := if http.TLS req then "on" else "" in
  let vars : gmap string string :=
    list_to_map [
      ("QUERY_STRING", http.RawQuery (http.Url req));
      ("REQUEST_METHOD", http.Method req);
      ("CONTENT_TYPE", http.Header_Get (http.Header req) "Content-Type");
      ("CONTENT_LENGTH", http.Header_Get (http.Header req) "Content-Length");
      ("REQUEST_URI", http.RequestURI req);
      ("PATH_INFO", http.Path (http.Url req));
      ("SERVER_PROTOCOL", http.Proto req);
      ("REQUEST_SCHEME", http.Scheme (http.Url req));
      ("HTTPS", httpsConn);
      ("REMOTE_ADDR", remoteAddr);
      ("REMOTE_PORT", remotePort);
      ("SERVER_PORT", serverPort);
      ("SERVER_NAME", serverName);
      ("HTTP_HOST", http.Host req)
    ] in
  if http.TLS req then <["HTTPS" := "on"]> vars else vars.

(** The loop of lines 129-131, over the headers in the order visited. *)
Definition addHeaders (vars : gmap string string)
    (hs : list (string * list string)) : gmap string string :=
  foldl (fun vars '(name, value) =>
           <[headerVarName name := strings.Join value ", "]> vars) vars hs.

(** The loop of lines 133-135. *)
Definition addParams (vars : gmap string string)
    (ps : list (string * string)) : gmap string string :=
  foldl (fun vars '(name, value) => <[name := value]> vars) vars ps.

(** The loop of lines 137-141. *)
Definition writeVars (entries : list (string * string)) : list byte :=
  foldl (fun packetBody '(key, val) =>
           writeBlockVar (writeBlockVar packetBody key) val) [] entries.

(** Lines 80-131: the variables derived from the request. *)
Definition derivedVars (req : http.Request) : outcome (gmap string string) :=
  let '(serverName, serverPort) := serverNamePort req in
  let* ap := remoteAddrPort req in
  let vars := baseVars req serverName serverPort (fst ap) (snd ap) in
  Returns (addHeaders vars (range rt (http.Header req))).

(** Lines 80-135: [vars] when the last loop starts. *)
Definition blockVars (req : http.Request) (t : Transport)
    : outcome (gmap string string) :=
  let* vars := derivedVars req in
  Returns (addParams vars (range rt (UWSGIParams t))).

(** The pairs the last loop visits, in its order. *)
Definition blockEntries (req : http.Request) (t : Transport)
    : outcome (list (string * string)) :=
  let* vars := blockVars req t in
  Returns (range rt vars).

(** [generateBlockVars(req, t)]: the packet body and the error result of
    the one [return] statement, line 142. *)
Definition generateBlockVars (req : http.Request) (t : Transport)
    : outcome (list byte * option error) :=
  let* entries := blockEntries req t in
  Returns (writeVars entries, None).

End Encoder.

(** ** The relay, [uwsgi.go] lines 145-173 *)

Module relay.

Record Response : Type := mkResponse {
  StatusCode : Z;
  ResponseBody : list byte
}.

(** What lies outside the process during one call of [RoundTrip]. *)
Record World : Type := mkWorld {
  (** the answer of [net.Dial(network, address)]: [None] is a connection *)
  dial : string -> string -> option error;
  (** how many more bytes the connection takes before [Write] fails;
      [None]: it never fails *)
  conn_room : option nat;
  (** the bytes the connection has taken so far *)
  conn_sent : list byte;
  (** the connections opened so far *)
  conn_opened : nat;
  (** the calls of [req.Body.Close] so far *)
  body_closed : nat;
  (** what [http.ReadResponse] returns on the connection, given the bytes
      the backend was sent *)
  backend : list byte -> option Response * option error
}.

(** A computation: the outcome and the world it leaves. *)
Definition M (A : Type) : Type := World -> outcome A * World.

Definition ret {A} (a : A) : M A := fun w => (Returns a, w).

Definition bind {A B} (c : M A) (k : A -> M B) : M B :=
  fun w => match c w with
           | (Returns a, w') => k a w'
           | (Panics p, w') => (Panics p, w')
           end.

Definition lift {A} (o : outcome A) : M A := fun w => (o, w).

End relay.

Notation "'let!' x ':=' c 'in' k" := (relay.bind c (fun x => k))
  (at level 10, x name, c at level 100, k at level 200).
Notation "'do!' c 'in' k" := (relay.bind c (fun _ => k))
  (at level 10, c at level 100, k at level 200).

Module conn.

Import relay.

(** [net.Dial(network, address)]: the error, or [None] with a connection
    opened. *)
Definition Dial (network address : string) : M (option error) :=
  fun w => match dial w network address with
           | Some e => (Returns (Some e), w)
           | None =>
               (Returns None,
                mkWorld (dial w) (conn_room w) (conn_sent w)
                        (S (conn_opened w)) (body_closed w) (backend w))
           end.

(** [conn.Write(b)]: the number of bytes taken and the error.  A
    connection with room for fewer bytes takes what it can and fails. *)
Definition Write (b : list byte) : M (Z * option error) :=
  fun w =>
    let put (taken : list byte) (room : option nat) :=
      mkWorld (dial w) room (conn_sent w ++ taken)
              (conn_opened w) (body_closed w) (backend w) in
    match conn_room w with
    | None => (Returns (GoSlice.len b, None), put b None)
    | Some r =>
        if (List.length b <=? r)%nat
        then (Returns (GoSlice.len b, None), put b (Some (r - List.length b)%nat))
        else (Returns (Z.of_nat r, Some WriteError), put (firstn r b) (Some 0%nat))
    end.

(** [binary.Write(conn, binary.LittleEndian, v)] for a [uint16]: one
    [Write] of the two bytes; only the error is returned. *)
Definition binary_Write_uint16 (v : Z) : M (option error) :=
  let! r := Write (binary.PutUint16 v) in ret (snd r).

(** [io.Copy(conn, buf)] from a [bytes.Buffer], that is [buf.WriteTo(conn)]:
    no call when the buffer is empty, else one [Write] of all of it, and
    [io.ErrShortWrite] when fewer bytes were taken without an error. *)
Definition Copy_buffer (buf : list byte) : M (Z * option error) :=
  match buf with
  | [] => ret (0, None)
  | _ =>
      let! r := Write buf in
      match snd r with
      | Some e => ret (fst r, Some e)
      | None => if fst r =? GoSlice.len buf then ret (fst r, None)
                else ret (fst r, Some ErrShortWrite)
      end
  end.

(** [io.Copy(conn, body)]: what the body yields goes to the connection
    until the body ends or a [Write] fails; a read error of the body is
    returned when every byte before it was written. *)
Definition Copy_body (body : http.ReadCloser) : M (Z * option error) :=
  match http.body_bytes body with
  | [] => ret (0, if http.body_read_fails body then Some BodyReadError else None)
  | bs =>
      let! r := Write bs in
      match snd r with
      | Some e => ret (fst r, Some e)
      | None => ret (fst r, if http.body_read_fails body
                            then Some BodyReadError else None)
      end
  end.

(** [req.Body.Close()] *)
Definition Body_Close : M (option error) :=
  fun w => (Returns None,
            mkWorld (dial w) (conn_room w) (conn_sent w)
                    (conn_opened w) (S (body_closed w)) (backend w)).

(** [http.ReadResponse(bufio.NewReader(conn), req)] *)
Definition ReadResponse : M (option Response * option error) :=
  fun w => (Returns (backend w (conn_sent w)), w).

End conn.

Section Relay.

Import relay.

Variable unicodeToUpper : string -> string.
Variable rt : MapRange.

(** Lines 146-151: the dial target. *)
Definition dialTarget (req : http.Request) : string * string :=
  match http.CtxDialInfo req with
  | Some dialInfo => (http.Network dialInfo, http.Address dialInfo)
  | None => ("tcp", http.URLHost (http.Url req))
  end.

(** Lines 162-172: the frame, the body and the response. *)
Definition sendAndReceive (blockVars : list byte) (req : http.Request)
    : M (option Response * option error) :=
  do! conn.Write [x00] in                                   (* modifier1 *)
  do! conn.binary_Write_uint16
        (binary.uint16 (GoSlice.len blockVars)) in          (* datasize *)
  do! conn.Write [x00] in                                   (* modifier2 *)
  do! conn.Copy_buffer blockVars in                         (* packet body *)
  do! (match http.Body req with
       | Some body =>
           do! conn.Copy_body body in
           do! conn.Body_Close in
           ret tt
       | None => ret tt
       end) in
  conn.ReadResponse.

(** [Transport.RoundTrip(req)] *)
Definition RoundTrip (t : Transport) (req : http.Request)
    : M (option Response * option error) :=
  let '(network, address) := dialTarget req in
  let! err := conn.Dial network address in
  match err with
  | Some e => ret (None, Some e)
  | None =>
      let! enc := lift (generateBlockVars unicodeToUpper rt req t) in
      match snd enc with
      | Some e => ret (None, Some e)
      | None => sendAndReceive (fst enc) req
      end
  end.

End Relay.

(** ** Vocabulary of the statements *)

(** The bytes of the request body; none when there is no body. *)
Definition bodyBytes (req : http.Request) : list byte :=
  match http.Body req with
  | Some body => http.body_bytes body
  | None => []
  end.

(** The number of bytes of a block with the given pairs: two length
    prefixes of two bytes and the two strings, for each pair. *)
Definition blockSize (entries : list (string * string)) : Z :=
  foldr (fun e n => 4 + GoString.len (fst e) + GoString.len (snd e) + n) 0 entries.

(** A pair whose two strings have lengths that fit the [uint16] prefix. *)
Definition fitsUint16 (e : string * string) : Prop :=
  GoString.len (fst e) < 65536 /\ GoString.len (snd e) < 65536.

(** A reading of a block: pairs whose strings fit the prefix and that the
    loop of lines 137-141 writes to exactly these bytes. *)
Definition readsAs (block : list byte) (entries : list (string * string)) : Prop :=
  Forall fitsUint16 entries /\ writeVars entries = block.

(** The world after the connection took the bytes [bs]. *)
Definition sends (w : relay.World) (bs : list byte) : relay.World :=
  relay.mkWorld (relay.dial w) (relay.conn_room w) (relay.conn_sent w ++ bs)
                (relay.conn_opened w) (relay.body_closed w) (relay.backend w).

(** The world after the body was closed once. *)
Definition closes (w : relay.World) : relay.World :=
  relay.mkWorld (relay.dial w) (relay.conn_room w) (relay.conn_sent w)
                (relay.conn_opened w) (S (relay.body_closed w)) (relay.backend w).

(** Two worlds that differ at most in what the connection took and in the
    room it has left. *)
Definition sameEnv (w w' : relay.World) : Prop :=
  relay.dial w' = relay.dial w /\ relay.backend w' = relay.backend w /\
  relay.body_closed w' = relay.body_closed w /\
  relay.conn_opened w' = relay.conn_opened w.

(** ** Concrete requests, transports and worlds *)

Module Sample.

Definition noUnicode (s : string) : string := s.

Definition url : http.URL := http.mkURL "http" "127.0.0.1:3031" "/status" "x=1".

(** [GET /status?x=1 HTTP/1.1], [Host: svc.local], two request headers. *)
Definition req (host peer : string) (tls : bool) (body : option http.ReadCloser)
    : http.Request :=
  http.mkRequest "GET" url "HTTP/1.1"
    (list_to_map [("X-Custom-Id", ["42"]);
                  ("Accept", ["text/html"; "application/json"])])
    body host peer "/status?x=1" tls None.

Definition plain : http.Request := req "svc.local" "[::1]:54321" false None.

Definition params : Transport :=
  mkTransport (list_to_map [("SCRIPT_NAME", "/app"); ("SERVER_NAME", "static.local")]).

Definition noParams : Transport := mkTransport ∅.

(** What the encoder returns for [plain] and [params]. *)
(** The variables derived from [plain]. *)
Definition plainDerived : gmap string string :=
  addHeaders noUnicode (baseVars plain "svc.local" "80" "::1" "54321")
             (range canonicalRange (http.Header plain)).

Definition plainBlock : list byte :=
  Eval vm_compute in
    match generateBlockVars noUnicode canonicalRange plain params with
    | Returns (block, _) => block
    | Panics _ => []
    end.

(** One static parameter, [UWSGI_SCRIPT], of value [v]. *)
Definition scriptParam (v : string) : Transport :=
  mkTransport (list_to_map [("UWSGI_SCRIPT", v)]).

(** The pairs of [plain] under [scriptParam v], in the canonical order. *)
Definition scriptEntries (v : string) : list (string * string) :=
  Eval vm_compute in
    range canonicalRange (UWSGIParams (scriptParam v) ∪ plainDerived).

(** A static parameter of 65536 bytes. *)
Definition bigParams : Transport := scriptParam (strings.Repeat "a" 65536).

Definition bigBlock : list byte :=
  writeVars (range canonicalRange (UWSGIParams bigParams ∪ plainDerived)).

(** A peer without [':'], as a Unix-domain socket gives, and a peer with
    nothing before its [':']. *)
Definition unixPeer : http.Request := req "svc.local" "@" false None.
Definition noHostPeer : http.Request := req "svc.local" ":54321" false None.

(** [plain] with a body of two bytes. *)
Definition withBody : http.Request :=
  req "svc.local" "[::1]:54321" false (Some (http.mkBody [x68; x69] false)).

(** [plain] with a body whose second read fails. *)
Definition brokenBody : http.Request :=
  req "svc.local" "[::1]:54321" false (Some (http.mkBody [x68; x69] true)).

(** Two headers that are sent under the same name, [HTTP_X_A]. *)
Definition collide : http.Request :=
  http.mkRequest "GET" url "HTTP/1.1"
    (list_to_map [("X-A", ["1"]); ("X_a", ["2"])])
    None "svc.local" "[::1]:54321" "/status?x=1" false None.

Definition collideEntries : list (string * string) :=
  Eval vm_compute in
    match blockEntries noUnicode canonicalRange collide noParams with
    | Returns entries => entries
    | Panics _ => []
    end.

Definition plainEntries : list (string * string) :=
  Eval vm_compute in
    match blockEntries noUnicode canonicalRange plain params with
    | Returns entries => entries
    | Panics _ => []
    end.

(** A request for a host with a port, and its derived variables. *)
Definition withPort : http.Request := req "example.com:8080" "[::1]:54321" false None.

Definition withPortDerived : gmap string string :=
  addHeaders noUnicode (baseVars withPort "example.com" "8080" "::1" "54321")
             (range canonicalRange (http.Header withPort)).

Definition ok : relay.Response := relay.mkResponse 200 [x6f; x6b].

(** A backend that answers [200] whatever it was sent. *)
Definition world (dialErr : option error) (room : option nat) : relay.World :=
  relay.mkWorld (fun _ _ => dialErr) room [] 0 0 (fun _ => (Some ok, None)).

End Sample.

(** ** Vocabulary of the further properties *)

(** No two headers of the request are sent under the same variable name. *)
Definition headerNamesDistinct (unicodeToUpper : string -> string)
    (req : http.Request) : Prop :=
  forall n1 n2 v1 v2,
    http.Header req !! n1 = Some v1 -> http.Header req !! n2 = Some v2 ->
    headerVarName unicodeToUpper n1 = headerVarName unicodeToUpper n2 -> n1 = n2.

(** The frame of a request: header, block and body as lines 162-168 write
    them. *)
Definition frameOf (blockVars : list byte) (req : http.Request) : list byte :=
  [x00] ++ binary.PutUint16 (binary.uint16 (GoSlice.len blockVars)) ++ [x00]
        ++ blockVars ++ bodyBytes req.

Module Forged.

(** A pair of 65536 bytes on the wire: [REMOTE_ADDR] with a value of 65521
    bytes. *)
Definition injected : list (string * string) :=
  [("REMOTE_ADDR", strings.Repeat "a" 65521)].

(** A header value made of nothing but the bytes of that pair. *)
Definition value : string := "" ++ string_of_list_byte (writeVars injected).

(** A request for the path [p], without headers, and the static parameter
    [REMOTE_ADDR]. *)
Definition req (p : string) : http.Request :=
  http.mkRequest "GET" (http.mkURL "http" "127.0.0.1:3031" p "") "HTTP/1.1"
    ∅ None "svc.local" "192.0.2.7:4000" "/" false None.

Definition params : Transport :=
  mkTransport (list_to_map [("REMOTE_ADDR", "10.0.0.1")]).

Definition derived (p : string) : gmap string string :=
  addHeaders Sample.noUnicode (baseVars (req p) "svc.local" "80" "192.0.2.7" "4000")
             (range canonicalRange (http.Header (req p))).

(** The pairs of [req p] under [params], in the canonical order: the path
    is the last one. *)
Definition entries (p : string) : list (string * string) :=
  Eval vm_compute in range canonicalRange (UWSGIParams params ∪ derived p).

(** The path ["/"] followed by the bytes of the pair [injected], the
    block the encoder returns for it, and the pairs this block reads as. *)
Definition path : string := "/" ++ string_of_list_byte (writeVars injected).

Definition block : list byte := writeVars (entries path).

Definition wire : list (string * string) := (entries "/" ++ injected)%list.

End Forged.

Module HostHeader.

(** A request whose header map holds a [Host] header that differs from the
    host string. *)
Definition req : http.Request :=
  http.mkRequest "GET" Sample.url "HTTP/1.1"
    (list_to_map [("Host", ["other.local"])])
    None "svc.local" "10.0.0.1:4000" "/status?x=1" false None.

Definition derived : gmap string string :=
  addHeaders Sample.noUnicode (baseVars req "svc.local" "80" "10.0.0.1" "4000")
             (range canonicalRange (http.Header req)).

End HostHeader.

Module ContentType.

(** A request with two values of [Content-Type] and a content length. *)
Definition req : http.Request :=
  http.mkRequest "POST" Sample.url "HTTP/1.1"
    (list_to_map [("Content-Type", ["text/plain"; "charset=utf-8"]);
                  ("Content-Length", ["2"])])
    None "svc.local" "10.0.0.1:4000" "/status?x=1" false None.

Definition derived : gmap string string :=
  addHeaders Sample.noUnicode (baseVars req "svc.local" "80" "10.0.0.1" "4000")
             (range canonicalRange (http.Header req)).

End ContentType.

(** The world after a connection with room for [r] bytes was given [bs]:
    it took what fits and has room for the rest. *)
Definition sendsUpTo (w : relay.World) (r : nat) (bs : list byte) : relay.World :=
  relay.mkWorld (relay.dial w) (Some (r - List.length bs)%nat)
                (relay.conn_sent w ++ firstn r bs)
                (relay.conn_opened w) (relay.body_closed w) (relay.backend w).

(** ** The module and its Caddyfile directive, [uwsgi.go] lines 58-68 and 175-199 *)

(** The directive is read through a [caddyfile.Dispenser].  Its methods
    are those of the package [caddyconfig/caddyfile] of Caddy v2 that
    [uwsgi.go] imports: a cursor over the tokens and a nesting level. *)
Module caddyfile.

Section Dispenser.

(** A token of the Caddyfile and its text.  Whether a token starts a new
    line after another one is decided by Caddy from the files, the import
    chains and the lines of the two tokens: it is the parameter
    [isNextOnNewLine]. *)
Variable Token : Type.
Variable Text : Token -> string.
Variable isNextOnNewLine : Token -> Token -> bool.

(** [caddyfile.Dispenser]: the tokens, the index of the current one
    ([-1] before the first), and the nesting level. *)
Record Dispenser : Type := mkDispenser {
  tokens : list Token;
  cursor : Z;
  nesting : Z
}.

(** [NewDispenser(tokens)] *)
Definition NewDispenser (ts : list Token) : Dispenser := mkDispenser ts (-1) 0.

Definition moveTo (d : Dispenser) (c : Z) : Dispenser :=
  mkDispenser (tokens d) c (nesting d).

Definition nest (d : Dispenser) (n : Z) : Dispenser :=
  mkDispenser (tokens d) (cursor d) n.

(** [d.Val()]: the text of the current token, empty when there is none. *)
Definition Val (d : Dispenser) : string :=
  if (cursor d <? 0) || (GoSlice.len (tokens d) <=? cursor d) then EmptyString
  else match nth_error (tokens d) (Z.to_nat (cursor d)) with
       | Some t => Text t
       | None => EmptyString
       end.

(** [d.Nesting()] *)
Definition Nesting (d : Dispenser) : Z := nesting d.

(** [d.Next()]: loads the next token when there is one. *)
Definition Next (d : Dispenser) : bool * Dispenser :=
  if cursor d <? GoSlice.len (tokens d) - 1 then (true, moveTo d (cursor d + 1))
  else (false, d).

(** [d.nextOnSameLine()]: loads the next token when it is on the line of
    the current one. *)
Definition nextOnSameLine (d : Dispenser) : bool * Dispenser :=
  if cursor d <? 0 then (true, moveTo d (cursor d + 1))
  else if GoSlice.len (tokens d) - 1 <=? cursor d then (false, d)
  else
    match nth_error (tokens d) (Z.to_nat (cursor d)),
          nth_error (tokens d) (Z.to_nat (cursor d + 1)) with
    | Some curr, Some next =>
        if negb (isNextOnNewLine curr next) then (true, moveTo d (cursor d + 1))
        else (false, d)
    | _, _ => (false, d)
    end.

(** [d.NextArg()]: loads the next token when it is on the same line and
    is not an opening brace. *)
Definition NextArg (d : Dispenser) : bool * Dispenser :=
  let '(same, d) := nextOnSameLine d in
  if negb same then (false, d)
  else if String.eqb (Val d) "{" then (false, moveTo d (cursor d - 1))
  else (true, d).

(** [d.Val() == text && !d.nextOnSameLine()], evaluated left to right. *)
Definition isAloneOnLine (text : string) (d : Dispenser) : bool * Dispenser :=
  if String.eqb (Val d) text then
    let '(same, d) := nextOnSameLine d in (negb same, d)
  else (false, d).

(** [d.NextBlock(initialNestingLevel)] *)
Definition NextBlock (initialNestingLevel : Z) (d : Dispenser) : bool * Dispenser :=
  if initialNestingLevel <? nesting d then
    let '(ok, d) := Next d in
    if negb ok then (false, d)
    else
      let '(closes, d) := isAloneOnLine "}" d in
      let d :=
        if closes then nest d (nesting d - 1)
        else
          let '(opens, d) := isAloneOnLine "{" d in
          if opens then nest d (nesting d + 1) else d in
      (initialNestingLevel <? nesting d, d)
  else
    let '(same, d) := nextOnSameLine d in
    if negb same then (false, d)
    else if negb (String.eqb (Val d) "{") then (false, moveTo d (cursor d - 1))
    else
      let d := snd (Next d) in
      if String.eqb (Val d) "}" then (false, d)
      else (true, nest d (nesting d + 1)).

(** The two errors the directive makes: [d.ArgErr()] and
    [d.Errf("unknown subdirective %s", d.Val())], each with the text of the
    token the dispenser is at. *)
Inductive parseError : Type :=
  | ArgErr (val : string)
  | UnknownSubdirective (val : string).

(** How a call ends: it returns an error or [nil], or it panics on the
    assignment to an entry of a nil map.  [OutOfFuel] is not an end of the
    Go function but of the bounded loops below. *)
Inductive ending : Type :=
  | Returned (err : option parseError)
  | PanicNilMap
  | OutOfFuel.

(** [t.UWSGIParams]: [None] is the nil map. *)
Definition params : Type := option (gmap string string).

(** The body of the inner loop, lines 179-194: [None] when the loop goes
    on, else how the call ends. *)
Definition subdirective (d : Dispenser) (t : params)
    : option ending * Dispenser * params :=
  if String.eqb (Val d) "uwsgi_param" then
    let '(ok, d) := NextArg d in
    if negb ok then (Some (Returned (Some (ArgErr (Val d)))), d, t)
    else
      let key := Val d in
      let '(ok, d) := NextArg d in
      if negb ok then (Some (Returned (Some (ArgErr (Val d)))), d, t)
      else
        let value := Val d in
        match t with
        | None => (Some PanicNilMap, d, t)
        | Some m => (None, d, Some (<[key := value]> m))
        end
  else (Some (Returned (Some (UnknownSubdirective (Val d)))), d, t).

(** The inner loop, line 178, for at most [fuel] rounds. *)
Fixpoint block (fuel : nat) (nesting0 : Z) (d : Dispenser) (t : params)
    : option ending * Dispenser * params :=
  match fuel with
  | O => (Some OutOfFuel, d, t)
  | S fuel =>
      let '(ok, d) := NextBlock nesting0 d in
      if ok then
        match subdirective d t with
        | (None, d, t) => block fuel nesting0 d t
        | ended => ended
        end
      else (None, d, t)
  end.

(** The outer loop, line 177, and the [return nil] of line 198. *)
Fixpoint directives (fuel : nat) (d : Dispenser) (t : params)
    : ending * Dispenser * params :=
  match fuel with
  | O => (OutOfFuel, d, t)
  | S fuel =>
      let '(ok, d) := Next d in
      if ok then
        match block fuel (Nesting d) d t with
        | (None, d, t) => directives fuel d t
        | (Some e, d, t) => (e, d, t)
        end
      else (Returned None, d, t)
  end.

(** [t.UnmarshalCaddyfile(d)]: how the call ends, the dispenser and the
    parameters of [t] it leaves.  Every round of either loop loads a token,
    so one round more than there are tokens is enough. *)
Definition UnmarshalCaddyfile (d : Dispenser) (t : params)
    : ending * Dispenser * params :=
  directives (S (List.length (tokens d))) d t.

End Dispenser.

End caddyfile.

(** [Transport.CaddyModule()]: the module ID and the [UWSGIParams] of the
    transport [New] makes, an empty map that is not nil. *)
Definition CaddyModule_ID : string := "http.reverse_proxy.transport.uwsgi".
Definition CaddyModule_New : caddyfile.params := Some ∅.

(** The transport the encoder sees: a [range] over a nil map visits
    nothing, as over an empty map. *)
Definition transportOf (t : caddyfile.params) : Transport :=
  mkTransport (default ∅ t).

(** ** Vocabulary of the directive's properties *)

Section Directives.

Variable Token : Type.
Variable Text : Token -> string.
Variable isNextOnNewLine : Token -> Token -> bool.

(** The dispenser at the token [cur], with [pre] before it and [post]
    after it, at nesting level [n]. *)
Definition dispenserAt (pre : list Token) (cur : Token) (post : list Token) (n : Z)
    : caddyfile.Dispenser Token :=
  caddyfile.mkDispenser Token (pre ++ cur :: post) (Z.of_nat (List.length pre)) n.

(** The three tokens of one [uwsgi_param <key> <value>]. *)
Definition directiveTokens (dir : Token * Token * Token) : list Token :=
  let '(kw, k, v) := dir in [kw; k; v].

(** The pair one directive assigns. *)
Definition directivePair (dir : Token * Token * Token) : string * string :=
  let '(kw, k, v) := dir in (Text k, Text v).

(** A directive as the function accepts it: the keyword, then on its line
    two tokens that are not opening braces. *)
Definition wellFormed (dir : Token * Token * Token) : Prop :=
  let '(kw, k, v) := dir in
  Text kw = "uwsgi_param" /\
  isNextOnNewLine kw k = false /\ isNextOnNewLine k v = false /\
  Text k <> "{" /\ Text v <> "{".

End Directives.

Module Config.

(** Tokens with their text and line. *)
Definition Token : Type := string * Z.
Definition Text (t : Token) : string := fst t.
Definition isNextOnNewLine (t1 t2 : Token) : bool := snd t1 <? snd t2.

(** Two directives for the same key:
[[
uwsgi {
    uwsgi_param UWSGI_SCRIPT app
    uwsgi_param UWSGI_SCRIPT main
}
]] *)
Definition twice : list (Token * Token * Token) :=
  [(("uwsgi_param", 2), ("UWSGI_SCRIPT", 2), ("app", 2));
   (("uwsgi_param", 3), ("UWSGI_SCRIPT", 3), ("main", 3))].

(** The tokens around them: the name of the transport with the opening
    brace on its line, and the closing brace on a line of its own. *)
Definition name : Token := ("uwsgi", 1).
Definition open : Token := ("{", 1).
Definition close : Token := ("}", 4).

(** A subdirective the transport does not have, on the fourth line. *)
Definition stray : Token := ("uwsgi_modifier1", 4).

(** A directive on the fourth line whose value is missing, and the closing
    brace on the fifth. *)
Definition keyword : Token := ("uwsgi_param", 4).
Definition key : Token := ("UWSGI_FILE", 4).
Definition closeLate : Token := ("}", 5).

(** What the encoder returns for [Sample.plain] under the parameter the
    two directives leave. *)
Definition block : list byte :=
  Eval vm_compute in
    match generateBlockVars Sample.noUnicode canonicalRange Sample.plain
            (Sample.scriptParam "main") with
    | Returns (block, _) => block
    | Panics _ => []
    end.

End Config.

Section DirectiveLists.

Variable Token : Type.
Variable Text : Token -> string.

(** The tokens of a list of directives, and the pairs they assign. *)
Definition directivesTokens (ds : list (Token * Token * Token)) : list Token :=
  concat (directiveTokens Token <$> ds).

Definition directivesPairs (ds : list (Token * Token * Token)) : list (string * string) :=
  directivePair Token Text <$> ds.

(** The tokens before the current one, and the current one, once the
    directives [ds] that follow the token [cur] have been read. *)
Fixpoint afterDirectives (pre : list Token) (cur : Token)
    (ds : list (Token * Token * Token)) : list Token * Token :=
  match ds with
  | [] => (pre, cur)
  | (kw, k, v) :: ds => afterDirectives (pre ++ [cur; kw; k]) v ds
  end.

(** How the call ended and the parameters it left. *)
Definition endingAndParams (r : caddyfile.ending * caddyfile.Dispenser Token * caddyfile.params)
    : caddyfile.ending * caddyfile.params :=
  (fst (fst r), snd r).

End DirectiveLists.

(** * Properties *)

(** ** The library functions on the inputs of the specification *)

Example Split_peer_v6 :
  strings.Split "[::1]:54321" ":" = ["["; ""; "1]"; "54321"].
Proof. reflexivity. Qed.

Example SplitHostPort_with_port :
  net.SplitHostPort "example.com:8080" = ("example.com", "8080", None).
Proof. reflexivity. Qed.

Example SplitHostPort_v6 :
  net.SplitHostPort "[::1]:80" = ("::1", "80", None).
Proof. reflexivity. Qed.

Example SplitHostPort_bare_host :
  net.SplitHostPort "example.com" = ("", "", Some net.missingPort).
Proof. reflexivity. Qed.

Example ToUpper_header :
  strings.ToUpper Sample.noUnicode "X-Custom-Id" = "X-CUSTOM-ID".
Proof. reflexivity. Qed.

(** ** Merging into [vars] *)

Section MergeLemmas.

Variable unicodeToUpper : string -> string.

(** A loop of assignments [vars[k] = v] is a left-biased union with the
    pairs assigned, the later ones first. *)
Lemma addParams_union (ps : list (string * string)) (vars : gmap string string) :
  addParams vars ps = list_to_map (reverse ps) ∪ vars.
Proof.
  revert vars. induction ps as [|[k v] ps IH]; intros vars.
  - cbn. by rewrite (left_id_L ∅ (∪)).
  - cbn [addParams foldl] in *. rewrite IH, reverse_cons.
    rewrite list_to_map_app. cbn [list_to_map foldr].
    rewrite <- (assoc_L (∪)). f_equal.
    rewrite insert_empty. by rewrite <- insert_union_singleton_l.
Qed.

(** Over the entries of a map, in any order, it is the union with it. *)
Lemma addParams_range (rt : MapRange) (m vars : gmap string string) :
  addParams vars (range rt m) = m ∪ vars.
Proof.
  rewrite addParams_union. f_equal.
  rewrite <- (list_to_map_to_list m) at 2.
  assert (Hp : reverse (range rt m) ≡ₚ map_to_list m).
  { rewrite reverse_Permutation. apply range_perm. }
  apply list_to_map_proper; [|done].
  rewrite Hp. apply NoDup_fst_map_to_list.
Qed.

Lemma addHeaders_addParams (hs : list (string * list string)) (vars : gmap string string) :
  addHeaders unicodeToUpper vars hs = addParams vars (headerVar unicodeToUpper <$> hs).
Proof.
  revert vars. induction hs as [|[n v] hs IH]; intros vars; [done|].
  cbn [addHeaders addParams foldl fmap list_fmap] in *. apply IH.
Qed.

Lemma headerVarName_prefix (name : string) :
  exists s, headerVarName unicodeToUpper name = String "H" (String "T" (String "T" (String "P" (String "_" s)))).
Proof. eexists. reflexivity. Qed.

(** A name that does not start with [HTTP_] is left alone by the loop
    over the headers. *)
Lemma addHeaders_lookup_other (hs : list (string * list string))
    (vars : gmap string string) (k : string) :
  (forall s, k <> String "H" (String "T" (String "T" (String "P" (String "_" s))))) ->
  addHeaders unicodeToUpper vars hs !! k = vars !! k.
Proof.
  intros Hk. rewrite addHeaders_addParams, addParams_union.
  rewrite lookup_union_r; [done|].
  apply not_elem_of_list_to_map_1. intros Hin.
  apply list_elem_of_fmap in Hin as [[k' v'] [-> Hin]].
  apply elem_of_reverse, list_elem_of_fmap in Hin as [[n v] [Heq _]].
  apply pair_equal_spec in Heq as [-> _]. cbn [fst].
  destruct (headerVarName_prefix n) as [s Hs]. by apply (Hk s).
Qed.

(** A header whose variable name no other header of the list shares is
    sent with its own values. *)
Lemma addHeaders_lookup_unique (hs : list (string * list string))
    (vars : gmap string string) (name : string) (values : list string) :
  (name, values) ∈ hs ->
  (forall name' values', (name', values') ∈ hs ->
      headerVarName unicodeToUpper name' = headerVarName unicodeToUpper name ->
      values' = values) ->
  addHeaders unicodeToUpper vars hs !! headerVarName unicodeToUpper name
    = Some (strings.Join values ", ").
Proof.
  intros Hin Huniq. rewrite addHeaders_addParams, addParams_union.
  apply lookup_union_Some_l. apply elem_of_list_to_map_1'.
  - intros y Hy. apply elem_of_reverse, list_elem_of_fmap in Hy as [[n v] [Heq Hnv]].
    apply pair_equal_spec in Heq as [Hname ->]. cbn [fst snd] in *.
    by rewrite (Huniq n v Hnv (eq_sym Hname)).
  - apply elem_of_reverse, list_elem_of_fmap. by exists (name, values).
Qed.

End MergeLemmas.

(** ** The encoder *)

Section EncoderLemmas.

Variable unicodeToUpper : string -> string.
Variable rt : MapRange.

Lemma range_lookup {V} (m : gmap string V) (k : string) (v : V) :
  (k, v) ∈ range rt m <-> m !! k = Some v.
Proof. rewrite (range_perm rt). apply elem_of_map_to_list. Qed.

Lemma range_NoDup {V} (m : gmap string V) : NoDup (range rt m).*1.
Proof. rewrite (range_perm rt). apply NoDup_fst_map_to_list. Qed.

(** When the encoder returns, the variables were derived, the static
    parameters were laid over them, and the block is the result written
    pair by pair. *)
Lemma generateBlockVars_Returns (req : http.Request) (t : Transport)
    (block : list byte) (err : option error) :
  generateBlockVars unicodeToUpper rt req t = Returns (block, err) ->
  exists dv,
    derivedVars unicodeToUpper rt req = Returns dv /\
    blockVars unicodeToUpper rt req t = Returns (UWSGIParams t ∪ dv) /\
    blockEntries unicodeToUpper rt req t = Returns (range rt (UWSGIParams t ∪ dv)) /\
    block = writeVars (range rt (UWSGIParams t ∪ dv)) /\
    err = None.
Proof.
  unfold generateBlockVars, blockEntries, blockVars.
  destruct (derivedVars unicodeToUpper rt req) as [dv|p]; cbn; [|discriminate].
  rewrite addParams_range. intros [= <- <-]. by exists dv.
Qed.

Lemma generateBlockVars_derived (req : http.Request) (t : Transport)
    (dv : gmap string string) :
  derivedVars unicodeToUpper rt req = Returns dv ->
  generateBlockVars unicodeToUpper rt req t
    = Returns (writeVars (range rt (UWSGIParams t ∪ dv)), None).
Proof.
  intros Hdv. unfold generateBlockVars, blockEntries, blockVars.
  rewrite Hdv. cbn. by rewrite addParams_range.
Qed.

End EncoderLemmas.

(** ** Little-endian [uint16] *)

Lemma Z_of_byte_of_Z (z : Z) : binary.Z_of_byte (binary.byte_of_Z z) = z mod 256.
Proof.
  unfold binary.Z_of_byte, binary.byte_of_Z.
  assert (Hb : 0 <= z mod 256 < 256) by (apply Z.mod_pos_bound; lia).
  destruct (Byte.of_N (Z.to_N (z mod 256))) as [b|] eqn:E.
  - apply Byte.to_of_N in E. rewrite E. lia.
  - apply Byte.of_N_None_iff in E. lia.
Qed.

(** Reading back the two bytes of a [uint16] gives the number. *)
Lemma Uint16_PutUint16 (v : Z) :
  0 <= v < 65536 ->
  binary.Uint16 (binary.byte_of_Z v) (binary.byte_of_Z (Z.shiftr v 8)) = v.
Proof.
  intros Hv. unfold binary.Uint16. rewrite !Z_of_byte_of_Z.
  rewrite Z.shiftr_div_pow2 by lia. change (2 ^ 8) with 256.
  rewrite (Z.mod_small (v / 256)) by (split; [apply Z.div_pos; lia | apply Z.div_lt_upper_bound; lia]).
  rewrite Z.shiftl_mul_pow2 by lia. change (2 ^ 8) with 256.
  pose proof (Z.add_lor_land (v mod 256) (v / 256 * 256)) as Hadd.
  assert (Hland : Z.land (v mod 256) (v / 256 * 256) = 0).
  { apply Z.bits_inj'. intros n Hn. rewrite Z.land_spec, Z.bits_0.
    destruct (Z.lt_ge_cases n 8) as [Hlt|Hge].
    - replace (v / 256 * 256) with (Z.shiftl (v / 256) 8)
        by (rewrite Z.shiftl_mul_pow2 by lia; reflexivity).
      rewrite (Z.shiftl_spec_low _ _ _ Hlt). apply andb_false_r.
    - change 256 with (2 ^ 8) at 1.
      rewrite Z.mod_pow2_bits_high by lia. reflexivity. }
  rewrite Hland in Hadd. pose proof (Z.div_mod v 256). lia.
Qed.

(** ** The relay *)

Section RelayLemmas.

Import relay.

Lemma sends_sends (w : World) (a b : list byte) :
  sends (sends w a) b = sends w (a ++ b).
Proof. unfold sends; cbn. by rewrite <- app_assoc. Qed.

(** A connection that never fails takes every byte. *)
Lemma Write_unbounded (b : list byte) (w : World) :
  conn_room w = None ->
  conn.Write b w = (Returns (GoSlice.len b, None), sends w b).
Proof.
  intros Hroom. unfold conn.Write, sends. rewrite Hroom.
  destruct w; cbn in *; by subst.
Qed.

Lemma Copy_buffer_unbounded (buf : list byte) (w : World) :
  conn_room w = None ->
  conn.Copy_buffer buf w = (Returns (GoSlice.len buf, None), sends w buf).
Proof.
  intros Hroom. destruct buf as [|x buf].
  - unfold conn.Copy_buffer, ret, sends. rewrite app_nil_r. by destruct w.
  - unfold conn.Copy_buffer, bind. rewrite Write_unbounded by done.
    cbn [fst snd]. by rewrite Z.eqb_refl.
Qed.

(** What lines 162-172 do on a connection that never fails: the four
    bytes of the header, the block and the body are sent in this order,
    the body, if any, is closed once, and the result is what
    [http.ReadResponse] makes of the backend's answer. *)
Lemma sendAndReceive_unbounded (block : list byte) (req : http.Request) (w : World) :
  conn_room w = None ->
  let w1 := sends w ([x00] ++ binary.PutUint16 (binary.uint16 (GoSlice.len block))
                       ++ [x00] ++ block ++ bodyBytes req) in
  sendAndReceive block req w =
    (Returns (backend w (conn_sent w1)),
     match http.Body req with Some _ => closes w1 | None => w1 end).
Proof.
  intros Hroom w1. unfold sendAndReceive, conn.binary_Write_uint16.
  unfold bind at 1. rewrite Write_unbounded by done.
  unfold bind at 1. unfold bind at 1. rewrite Write_unbounded by done.
  unfold ret at 1. unfold bind at 1. rewrite Write_unbounded by done.
  unfold bind at 1. rewrite Copy_buffer_unbounded by done.
  rewrite !sends_sends. subst w1. unfold bodyBytes.
  destruct (http.Body req) as [body|].
  - unfold bind at 1. unfold bind at 1.
    assert (Hcopy : forall w0, conn_room w0 = None ->
              exists r, conn.Copy_body body w0 = (Returns r, sends w0 (http.body_bytes body))).
    { intros w0 H0. unfold conn.Copy_body.
      destruct (http.body_bytes body) as [|x bs] eqn:Hb.
      - eexists. unfold ret, sends. rewrite app_nil_r. by destruct w0.
      - unfold bind. rewrite Write_unbounded by done. cbn [snd]. by eexists. }
    destruct (Hcopy (sends w ([x00] ++ binary.PutUint16 (binary.uint16 (GoSlice.len block))
                                ++ [x00] ++ block)) Hroom) as [r Hr].
    rewrite Hr. rewrite sends_sends, <- !app_assoc. reflexivity.
  - unfold bind, ret. rewrite !app_nil_r. reflexivity.
Qed.

(** After a successful dial and a return of the encoder the call
    continues with lines 162-172. *)
Lemma RoundTrip_dialled (unicodeToUpper : string -> string) (rt : MapRange)
    (t : Transport) (req : http.Request) (w : World)
    (block : list byte) (err : option error) :
  generateBlockVars unicodeToUpper rt req t = Returns (block, err) ->
  dial w (fst (dialTarget req)) (snd (dialTarget req)) = None ->
  exists w' : World,
    conn.Dial (fst (dialTarget req)) (snd (dialTarget req)) w = (Returns None, w') /\
    conn_sent w' = conn_sent w /\ conn_room w' = conn_room w /\
    body_closed w' = body_closed w /\ backend w' = backend w /\
    RoundTrip unicodeToUpper rt t req w = sendAndReceive block req w'.
Proof.
  intros Hgen Hdial.
  destruct (generateBlockVars_Returns _ _ _ _ _ _ Hgen) as (_ & _ & _ & _ & _ & ->).
  unfold RoundTrip. destruct (dialTarget req) as [network address]. cbn [fst snd] in *.
  unfold bind at 1. unfold conn.Dial. rewrite Hdial.
  eexists; repeat split.
  unfold bind, lift. by rewrite Hgen.
Qed.

(** A whole call on a connection that is made and never fails. *)
Lemma RoundTrip_unbounded (unicodeToUpper : string -> string) (rt : MapRange)
    (t : Transport) (req : http.Request) (w : World)
    (block : list byte) (err : option error) :
  generateBlockVars unicodeToUpper rt req t = Returns (block, err) ->
  dial w (fst (dialTarget req)) (snd (dialTarget req)) = None ->
  conn_room w = None ->
  exists w' : World,
    RoundTrip unicodeToUpper rt t req w = (Returns (backend w (conn_sent w')), w') /\
    conn_sent w' = (conn_sent w ++ [x00]
                      ++ binary.PutUint16 (binary.uint16 (GoSlice.len block))
                      ++ [x00] ++ block ++ bodyBytes req)%list /\
    body_closed w' = (body_closed w + match http.Body req with Some _ => 1 | None => 0 end)%nat.
Proof.
  intros Hgen Hdial Hroom.
  destruct (RoundTrip_dialled _ _ t _ _ _ _ Hgen Hdial)
    as (w0 & _ & Hsent & Hroom0 & Hclosed & Hback & ->).
  rewrite sendAndReceive_unbounded by congruence. rewrite Hback.
  set (bs := ([x00] ++ binary.PutUint16 (binary.uint16 (GoSlice.len block))
                ++ [x00] ++ block ++ bodyBytes req)%list).
  destruct (http.Body req) as [body|] eqn:Hbody.
  - exists (closes (sends w0 bs)). cbn. rewrite Hsent, Hclosed.
    repeat split; lia.
  - exists (sends w0 bs). cbn. rewrite Hsent, Hclosed.
    repeat split; lia.
Qed.

End RelayLemmas.

(** C10: a call of the encoder that returns, returns the error [nil]; so a
    call of the relay that has dialled goes on to lines 162-172 with the
    block, and never leaves through the branch of lines 158-160. *)
Theorem encoder_error_is_nil
    (unicodeToUpper : string -> string) (rt : MapRange)
    (req : http.Request) (t : Transport) (block : list byte) (err : option error) :
  generateBlockVars unicodeToUpper rt req t = Returns (block, err) ->
  err = None /\
  forall w : relay.World,
    relay.dial w (fst (dialTarget req)) (snd (dialTarget req)) = None ->
    exists w' : relay.World,
      conn.Dial (fst (dialTarget req)) (snd (dialTarget req)) w = (Returns None, w') /\
      RoundTrip unicodeToUpper rt t req w = sendAndReceive block req w'.
Proof.
  intros Hgen. split.
  - by destruct (generateBlockVars_Returns _ _ _ _ _ _ Hgen) as (_ & _ & _ & _ & _ & ->).
  - intros w Hdial.
    destruct (RoundTrip_dialled _ _ t _ _ _ _ Hgen Hdial) as (w' & Hw' & _ & _ & _ & _ & Hrun).
    by exists w'.
Qed.

Lemma encoder_error_is_nil_witness :
  generateBlockVars Sample.noUnicode canonicalRange Sample.plain Sample.params
    = Returns (Sample.plainBlock, None) /\
  ((None : option error) = None /\
   forall w : relay.World,
     relay.dial w (fst (dialTarget Sample.plain)) (snd (dialTarget Sample.plain)) = None ->
     exists w' : relay.World,
       conn.Dial (fst (dialTarget Sample.plain)) (snd (dialTarget Sample.plain)) w
         = (Returns None, w') /\
       RoundTrip Sample.noUnicode canonicalRange Sample.params Sample.plain w
         = sendAndReceive Sample.plainBlock Sample.plain w').
Proof.
  split; [vm_compute; reflexivity|].
  apply (encoder_error_is_nil Sample.noUnicode canonicalRange
           Sample.plain Sample.params Sample.plainBlock None).
  vm_compute; reflexivity.
Defined.


(** ** The size of a block *)

Lemma length_append (s1 s2 : string) :
  String.length (s1 ++ s2) = (String.length s1 + String.length s2)%nat.
Proof. induction s1 as [|c s1 IH]; simpl; [reflexivity|]. f_equal. exact IH. Qed.

Lemma len_bytes (s : string) : GoSlice.len (GoString.bytes s) = GoString.len s.
Proof.
  unfold GoSlice.len, GoString.len, GoString.bytes, list_byte_of_string.
  f_equal. rewrite length_map. induction s as [|c s IH]; cbn; [done|]. by rewrite IH.
Qed.

Lemma Repeat_len (s : string) (count : Z) :
  0 <= count -> GoString.len (strings.Repeat s count) = count * GoString.len s.
Proof.
  intros Hc. unfold strings.Repeat, GoString.len.
  destruct count as [|p|p]; [done| |lia].
  cbn [Z.iter]. rewrite Pos2Nat.inj_iter.
  rewrite <- (positive_nat_Z p). generalize (Pos.to_nat p) as n.
  induction n as [|n IH]; [reflexivity|].
  cbn [nat_rect]. rewrite length_append. lia.
Qed.

Lemma writeBlockVar_len (buffer : list byte) (s : string) :
  GoSlice.len (writeBlockVar buffer s) = GoSlice.len buffer + 2 + GoString.len s.
Proof.
  unfold writeBlockVar. rewrite <- len_bytes. unfold GoSlice.len.
  rewrite !length_app. cbn [binary.PutUint16 List.length]. lia.
Qed.

Lemma writeVars_len (entries : list (string * string)) :
  GoSlice.len (writeVars entries) = blockSize entries.
Proof.
  unfold writeVars.
  enough (H : forall buf,
            GoSlice.len (foldl (fun packetBody '(key, val) =>
                                  writeBlockVar (writeBlockVar packetBody key) val)
                               buf entries)
            = GoSlice.len buf + blockSize entries) by (rewrite H; reflexivity).
  induction entries as [|[k v] entries IH]; intros buf; cbn [foldl blockSize foldr fst snd].
  - lia.
  - rewrite IH. rewrite !writeBlockVar_len. unfold blockSize. lia.
Qed.

(** The block of [Sample.plain] under one static parameter of value [v]:
    359 bytes and those of [v]. *)
Lemma scriptParam_block_len (v : string) :
  GoSlice.len (writeVars (range canonicalRange
                            (UWSGIParams (Sample.scriptParam v) ∪ Sample.plainDerived)))
  = 359 + GoString.len v.
Proof.
  rewrite writeVars_len.
  replace (range canonicalRange (UWSGIParams (Sample.scriptParam v) ∪ Sample.plainDerived))
    with (Sample.scriptEntries v) by (vm_compute; reflexivity).
  unfold blockSize, Sample.scriptEntries, GoString.len.
  cbn [foldr fst snd String.length]. lia.
Qed.

Lemma bigBlock_len : GoSlice.len Sample.bigBlock = 65895.
Proof.
  unfold Sample.bigBlock, Sample.bigParams.
  rewrite scriptParam_block_len, Repeat_len by lia. reflexivity.
Qed.

Lemma plain_derived :
  derivedVars Sample.noUnicode canonicalRange Sample.plain = Returns Sample.plainDerived.
Proof.
  unfold derivedVars, Sample.plainDerived.
  replace (serverNamePort Sample.plain) with ("svc.local", "80")
    by (vm_compute; reflexivity).
  replace (remoteAddrPort Sample.plain) with (Returns ("::1", "54321"))
    by (vm_compute; reflexivity).
  reflexivity.
Qed.

Lemma bigBlock_generated :
  generateBlockVars Sample.noUnicode canonicalRange Sample.plain Sample.bigParams
    = Returns (Sample.bigBlock, None).
Proof.
  exact (generateBlockVars_derived Sample.noUnicode canonicalRange Sample.plain
           Sample.bigParams Sample.plainDerived plain_derived).
Qed.

(** ** The frame *)

(** C5, as the claim has it, fails: the header has four bytes, not three.
    For the request [Sample.plain] the block has 365 bytes and the
    connection takes 369, [00 6d 01 00] and the block: no three bytes put
    before the block make up what was sent. *)
Lemma frame_header_is_not_three_bytes :
  generateBlockVars Sample.noUnicode canonicalRange Sample.plain Sample.params
    = Returns (Sample.plainBlock, None) /\
  0 <= GoSlice.len Sample.plainBlock <= 65535 /\
  ~ (exists header : list byte,
       List.length header = 3%nat /\
       relay.conn_sent (snd (RoundTrip Sample.noUnicode canonicalRange Sample.params
                               Sample.plain (Sample.world None None)))
         = (header ++ Sample.plainBlock ++ bodyBytes Sample.plain)%list).
Proof.
  split; [vm_compute; reflexivity|]. split; [vm_compute; split; discriminate|].
  intros (header & Hlen & Hsent).
  apply (f_equal (@List.length byte)) in Hsent.
  rewrite !length_app, Hlen in Hsent. vm_compute in Hsent. discriminate.
Qed.

(** C5, amended: for a block of at most 65535 bytes the relay, on a
    connection that is made and takes what is written, sends the four bytes
    [0x00], the two bytes of the block length in little-endian order,
    [0x00], then the block, then the body; the two middle bytes read back
    as a little-endian [uint16] are the block length. *)
Theorem frame_header_reads_back_length
    (unicodeToUpper : string -> string) (rt : MapRange)
    (t : Transport) (req : http.Request) (w : relay.World)
    (block : list byte) (err : option error) :
  generateBlockVars unicodeToUpper rt req t = Returns (block, err) ->
  relay.dial w (fst (dialTarget req)) (snd (dialTarget req)) = None ->
  relay.conn_room w = None ->
  GoSlice.len block <= 65535 ->
  exists (b0 b1 : byte) (w' : relay.World),
    snd (RoundTrip unicodeToUpper rt t req w) = w' /\
    relay.conn_sent w'
      = (relay.conn_sent w ++ [x00; b0; b1; x00] ++ block ++ bodyBytes req)%list /\
    [b0; b1] = binary.PutUint16 (GoSlice.len block) /\
    binary.Uint16 b0 b1 = GoSlice.len block.
Proof.
  intros Hgen Hdial Hroom Hlen.
  destruct (RoundTrip_unbounded _ _ t _ _ _ _ Hgen Hdial Hroom) as (w' & Hrun & Hsent & _).
  assert (Hrange : 0 <= GoSlice.len block < 65536) by (unfold GoSlice.len in *; lia).
  assert (Hu : binary.uint16 (GoSlice.len block) = GoSlice.len block)
    by (unfold binary.uint16; apply Z.mod_small; lia).
  rewrite Hu in Hsent.
  exists (binary.byte_of_Z (GoSlice.len block)),
         (binary.byte_of_Z (Z.shiftr (GoSlice.len block) 8)), w'.
  rewrite Hrun. repeat split; [done|]. by apply Uint16_PutUint16.
Qed.

Lemma frame_header_reads_back_length_witness :
  generateBlockVars Sample.noUnicode canonicalRange Sample.plain Sample.params
    = Returns (Sample.plainBlock, None) /\
  GoSlice.len Sample.plainBlock <= 65535 /\
  exists (b0 b1 : byte) (w' : relay.World),
    snd (RoundTrip Sample.noUnicode canonicalRange Sample.params Sample.plain
           (Sample.world None None)) = w' /\
    relay.conn_sent w'
      = (relay.conn_sent (Sample.world None None)
           ++ [x00; b0; b1; x00] ++ Sample.plainBlock ++ bodyBytes Sample.plain)%list /\
    [b0; b1] = binary.PutUint16 (GoSlice.len Sample.plainBlock) /\
    binary.Uint16 b0 b1 = GoSlice.len Sample.plainBlock.
Proof.
  split; [vm_compute; reflexivity|]. split; [vm_compute; discriminate|].
  apply (frame_header_reads_back_length Sample.noUnicode canonicalRange
           Sample.params Sample.plain (Sample.world None None) Sample.plainBlock None).
  - vm_compute; reflexivity.
  - reflexivity.
  - reflexivity.
  - vm_compute; discriminate.
Defined.

(** C2, as the claim has it, fails: with a static parameter of 65536 bytes
    the block has 65895 bytes, the call returns the parsed response and no
    error, and the connection was sent the header with the length field
    [65895 mod 65536 = 359] and then all of the block. *)
Lemma oversized_block_is_sent :
  generateBlockVars Sample.noUnicode canonicalRange Sample.plain Sample.bigParams
    = Returns (Sample.bigBlock, None) /\
  65535 < GoSlice.len Sample.bigBlock /\
  fst (RoundTrip Sample.noUnicode canonicalRange Sample.bigParams Sample.plain
         (Sample.world None None)) = Returns (Some Sample.ok, None) /\
  relay.conn_sent (snd (RoundTrip Sample.noUnicode canonicalRange Sample.bigParams
                          Sample.plain (Sample.world None None)))
    = ([x00] ++ binary.PutUint16 359 ++ [x00] ++ Sample.bigBlock)%list.
Proof.
  pose proof bigBlock_generated as Hgen. pose proof bigBlock_len as Hlen.
  destruct (RoundTrip_unbounded _ _ Sample.bigParams _ (Sample.world None None) _ _
              Hgen eq_refl eq_refl) as (w' & Hrun & Hsent & _).
  split; [exact Hgen|]. split; [lia|]. rewrite Hrun; cbn [fst snd].
  split; [reflexivity|].
  rewrite Hsent, Hlen. change (bodyBytes Sample.plain) with (@nil byte).
  change (relay.conn_sent (Sample.world None None)) with (@nil byte).
  change (binary.uint16 65895) with 359.
  rewrite app_nil_r, app_nil_l. reflexivity.
Qed.

(** C2, amended: for a block of more than 65535 bytes the relay, on a
    connection that is made and takes what is written, does not fail: it
    sends the header whose length field is the block length modulo 65536,
    which is not the block length, then the whole block and the body, and
    returns what [http.ReadResponse] returns. *)
Theorem oversized_block_length_wraps
    (unicodeToUpper : string -> string) (rt : MapRange)
    (t : Transport) (req : http.Request) (w : relay.World)
    (block : list byte) (err : option error) :
  generateBlockVars unicodeToUpper rt req t = Returns (block, err) ->
  relay.dial w (fst (dialTarget req)) (snd (dialTarget req)) = None ->
  relay.conn_room w = None ->
  65535 < GoSlice.len block ->
  exists (b0 b1 : byte) (w' : relay.World),
    RoundTrip unicodeToUpper rt t req w
      = (Returns (relay.backend w (relay.conn_sent w')), w') /\
    relay.conn_sent w'
      = (relay.conn_sent w ++ [x00; b0; b1; x00] ++ block ++ bodyBytes req)%list /\
    binary.Uint16 b0 b1 = GoSlice.len block mod 65536 /\
    binary.Uint16 b0 b1 <> GoSlice.len block.
Proof.
  intros Hgen Hdial Hroom Hlen.
  destruct (RoundTrip_unbounded _ _ t _ _ _ _ Hgen Hdial Hroom) as (w' & Hrun & Hsent & _).
  pose proof (Z.mod_pos_bound (GoSlice.len block) 65536 eq_refl) as Hmod.
  exists (binary.byte_of_Z (binary.uint16 (GoSlice.len block))),
         (binary.byte_of_Z (Z.shiftr (binary.uint16 (GoSlice.len block)) 8)), w'.
  rewrite Uint16_PutUint16 by done.
  repeat split; try done. unfold binary.uint16. lia.
Qed.

Lemma oversized_block_length_wraps_witness :
  generateBlockVars Sample.noUnicode canonicalRange Sample.plain Sample.bigParams
    = Returns (Sample.bigBlock, None) /\
  65535 < GoSlice.len Sample.bigBlock /\
  exists (b0 b1 : byte) (w' : relay.World),
    RoundTrip Sample.noUnicode canonicalRange Sample.bigParams Sample.plain
        (Sample.world None None)
      = (Returns (relay.backend (Sample.world None None) (relay.conn_sent w')), w') /\
    relay.conn_sent w'
      = (relay.conn_sent (Sample.world None None)
           ++ [x00; b0; b1; x00] ++ Sample.bigBlock ++ bodyBytes Sample.plain)%list /\
    binary.Uint16 b0 b1 = GoSlice.len Sample.bigBlock mod 65536 /\
    binary.Uint16 b0 b1 <> GoSlice.len Sample.bigBlock.
Proof.
  assert (Hlen : 65535 < GoSlice.len Sample.bigBlock) by (rewrite bigBlock_len; lia).
  split; [exact bigBlock_generated|]. split; [exact Hlen|].
  apply (oversized_block_length_wraps Sample.noUnicode canonicalRange
           Sample.bigParams Sample.plain (Sample.world None None) Sample.bigBlock None).
  - exact bigBlock_generated.
  - reflexivity.
  - reflexivity.
  - exact Hlen.
Defined.


(** ** The peer address *)

Lemma Split_no_sep (s : string) (sep : ascii) (i : Z) :
  0 <= i -> strings.indexFrom s sep i = -1 -> strings.Split s sep = [s].
Proof.
  revert i. induction s as [|c s IH]; intros i Hi Hidx; [reflexivity|].
  cbn [strings.indexFrom strings.Split] in *.
  destruct (Ascii.eqb c sep); [lia|].
  by rewrite (IH (i + 1)) by (done || lia).
Qed.

(** Nothing before the last [':']: the index [remoteAddr[0]] of line 100
    is out of range. *)
Lemma remoteAddrPort_empty_host (req : http.Request) (front : list string) (last : string) :
  strings.Split (http.RemoteAddr req) ":" = (front ++ [last])%list ->
  strings.Join front ":" = "" ->
  remoteAddrPort req = Panics (IndexOutOfRange 0 0).
Proof.
  intros Hsplit Hjoin. unfold remoteAddrPort. rewrite Hsplit.
  unfold GoSlice.upto, GoSlice.len. rewrite length_app. cbn [List.length].
  replace (Z.of_nat (List.length front + 1) - 1) with (Z.of_nat (List.length front)) by lia.
  replace ((Z.of_nat (List.length front) <? 0)
           || (Z.of_nat (List.length front + 1) <? Z.of_nat (List.length front)))
    with false by (symmetry; apply orb_false_iff; split; apply Z.ltb_ge; lia).
  rewrite Nat2Z.id, firstn_app, Nat.sub_diag, firstn_all. cbn [firstn obind].
  rewrite app_nil_r, Hjoin. reflexivity.
Qed.

Lemma generateBlockVars_panics (unicodeToUpper : string -> string) (rt : MapRange)
    (req : http.Request) (t : Transport) (p : panic) :
  remoteAddrPort req = Panics p ->
  generateBlockVars unicodeToUpper rt req t = Panics p.
Proof.
  intros Hp. unfold generateBlockVars, blockEntries, blockVars, derivedVars.
  destruct (serverNamePort req). by rewrite Hp.
Qed.

(** C3 (the code departs from the claim): for every request whose peer
    address has no [':'], the encoder does not return an error, it panics:
    the part before the last [':'] is empty and line 100 indexes it at 0. *)
Theorem peer_without_separator_panics
    (unicodeToUpper : string -> string) (rt : MapRange)
    (req : http.Request) (t : Transport) :
  strings.IndexByte (http.RemoteAddr req) ":" = -1 ->
  generateBlockVars unicodeToUpper rt req t = Panics (IndexOutOfRange 0 0).
Proof.
  intros Hnone. apply generateBlockVars_panics.
  apply (remoteAddrPort_empty_host req [] (http.RemoteAddr req)); [|reflexivity].
  by apply (Split_no_sep _ _ 0).
Qed.

Lemma peer_without_separator_panics_witness :
  strings.IndexByte (http.RemoteAddr Sample.unixPeer) ":" = -1 /\
  generateBlockVars Sample.noUnicode canonicalRange Sample.unixPeer Sample.params
    = Panics (IndexOutOfRange 0 0).
Proof.
  split; [reflexivity|].
  apply (peer_without_separator_panics Sample.noUnicode canonicalRange
           Sample.unixPeer Sample.params).
  reflexivity.
Defined.

(** C8 (the code departs from the claim): a peer address with a [':'] but
    nothing before it, [":" ++ port], makes the encoder panic at line 100;
    no [REMOTE_ADDR] and no [REMOTE_PORT] are produced. *)
Theorem peer_with_empty_host_panics
    (unicodeToUpper : string -> string) (rt : MapRange)
    (req : http.Request) (t : Transport) (port : string) :
  http.RemoteAddr req = String ":" port ->
  strings.IndexByte port ":" = -1 ->
  generateBlockVars unicodeToUpper rt req t = Panics (IndexOutOfRange 0 0).
Proof.
  intros Haddr Hport. apply generateBlockVars_panics.
  apply (remoteAddrPort_empty_host req [""] port); [|reflexivity].
  rewrite Haddr. cbn [strings.Split Ascii.eqb Bool.eqb].
  by rewrite (Split_no_sep port ":" 0).
Qed.

Lemma peer_with_empty_host_panics_witness :
  http.RemoteAddr Sample.noHostPeer = String ":" "54321" /\
  strings.IndexByte "54321" ":" = -1 /\
  generateBlockVars Sample.noUnicode canonicalRange Sample.noHostPeer Sample.params
    = Panics (IndexOutOfRange 0 0).
Proof.
  split; [reflexivity|]. split; [reflexivity|].
  apply (peer_with_empty_host_panics Sample.noUnicode canonicalRange
           Sample.noHostPeer Sample.params "54321"); reflexivity.
Defined.

(** ** Failing writes and the body *)

Section AnyConnection.

Import relay.

Lemma sameEnv_refl (w : World) : sameEnv w w.
Proof. by repeat split. Qed.

Lemma sameEnv_trans (w1 w2 w3 : World) : sameEnv w1 w2 -> sameEnv w2 w3 -> sameEnv w1 w3.
Proof. unfold sameEnv. intros (-> & -> & -> & ->) (-> & -> & -> & ->). by repeat split. Qed.

(** [Write] returns, whatever room the connection has. *)
Lemma Write_returns (b : list byte) (w : World) :
  exists r w', conn.Write b w = (Returns r, w') /\ sameEnv w w'.
Proof.
  unfold conn.Write. destruct (conn_room w) as [r|].
  - destruct (List.length b <=? r)%nat; eexists _, _; split; try reflexivity;
      by repeat split.
  - eexists _, _; split; [reflexivity|]. by repeat split.
Qed.

Lemma Copy_buffer_returns (buf : list byte) (w : World) :
  exists r w', conn.Copy_buffer buf w = (Returns r, w') /\ sameEnv w w'.
Proof.
  destruct buf as [|x buf].
  - exists (0, None), w. split; [reflexivity|apply sameEnv_refl].
  - unfold conn.Copy_buffer, bind.
    destruct (Write_returns (x :: buf) w) as ([n e] & w' & -> & Henv).
    cbn [fst snd]. destruct e; [by eexists _, _|].
    destruct (n =? GoSlice.len (x :: buf)); by eexists _, _.
Qed.

Lemma Copy_body_returns (body : http.ReadCloser) (w : World) :
  exists r w', conn.Copy_body body w = (Returns r, w') /\ sameEnv w w'.
Proof.
  unfold conn.Copy_body. destruct (http.body_bytes body) as [|x bs].
  - eexists _, w. split; [reflexivity|apply sameEnv_refl].
  - unfold bind. destruct (Write_returns (x :: bs) w) as ([n e] & w' & -> & Henv).
    cbn [snd]. destruct e; by eexists _, _.
Qed.

(** Lines 162-172 on any connection: no result of a write or of the copy
    of the body is looked at; the body, if any, is closed once; what is
    returned is what [http.ReadResponse] returns. *)
Lemma sendAndReceive_returns (block : list byte) (req : http.Request) (w : World) :
  exists w' : World,
    sendAndReceive block req w = (Returns (backend w (conn_sent w')), w') /\
    dial w' = dial w /\ conn_opened w' = conn_opened w /\
    body_closed w'
      = (body_closed w + match http.Body req with Some _ => 1 | None => 0 end)%nat.
Proof.
  unfold sendAndReceive, conn.binary_Write_uint16.
  unfold bind at 1. destruct (Write_returns [x00] w) as (r1 & w1 & -> & H1).
  unfold bind at 1. unfold bind at 1.
  destruct (Write_returns (binary.PutUint16 (binary.uint16 (GoSlice.len block))) w1)
    as (r2 & w2 & -> & H2).
  unfold ret at 1. unfold bind at 1.
  destruct (Write_returns [x00] w2) as (r3 & w3 & -> & H3).
  unfold bind at 1. destruct (Copy_buffer_returns block w3) as (r4 & w4 & -> & H4).
  pose proof (sameEnv_trans _ _ _ (sameEnv_trans _ _ _ (sameEnv_trans _ _ _ H1 H2) H3) H4)
    as (Hd & Hb & Hc & Ho).
  destruct (http.Body req) as [body|].
  - unfold bind at 1. unfold bind at 1.
    destruct (Copy_body_returns body w4) as (r5 & w5 & -> & (Hd5 & Hb5 & Hc5 & Ho5)).
    unfold bind, conn.Body_Close, ret, conn.ReadResponse. cbn.
    exists (closes w5). split; [by rewrite <- Hb, <- Hb5|]. cbn.
    rewrite Hd5, Hd, Ho5, Ho, Hc5, Hc. repeat split; lia.
  - unfold bind, ret, conn.ReadResponse.
    exists w4. rewrite Hb. repeat split; try done. lia.
Qed.

(** A failed dial ends the call at line 154: the error is returned and the
    world is as before; in particular the body was not closed. *)
Lemma RoundTrip_dial_fails (unicodeToUpper : string -> string) (rt : MapRange)
    (t : Transport) (req : http.Request) (w : World) (e : error) :
  dial w (fst (dialTarget req)) (snd (dialTarget req)) = Some e ->
  RoundTrip unicodeToUpper rt t req w = (Returns (None, Some e), w).
Proof.
  intros Hdial. unfold RoundTrip. destruct (dialTarget req) as [network address].
  cbn [fst snd] in Hdial. unfold bind, conn.Dial. by rewrite Hdial.
Qed.

(** A call that dials and encodes closes the body once. *)
Lemma RoundTrip_closes_body_once (unicodeToUpper : string -> string) (rt : MapRange)
    (t : Transport) (req : http.Request) (w : World)
    (block : list byte) (err : option error) (body : http.ReadCloser) :
  generateBlockVars unicodeToUpper rt req t = Returns (block, err) ->
  dial w (fst (dialTarget req)) (snd (dialTarget req)) = None ->
  http.Body req = Some body ->
  body_closed (snd (RoundTrip unicodeToUpper rt t req w)) = S (body_closed w).
Proof.
  intros Hgen Hdial Hbody.
  destruct (RoundTrip_dialled _ _ t _ _ _ _ Hgen Hdial)
    as (w0 & _ & _ & _ & Hclosed & _ & ->).
  destruct (sendAndReceive_returns block req w0) as (w' & -> & _ & _ & Hc).
  cbn [snd]. rewrite Hc, Hbody, Hclosed. lia.
Qed.

End AnyConnection.

(** C9 (the code departs from the claim): when the dial fails the call
    returns the dial error and leaves the world as it was: a request that
    carries a body has it closed zero times on this path, not once. *)
Theorem dial_failure_leaves_body_open
    (unicodeToUpper : string -> string) (rt : MapRange)
    (t : Transport) (req : http.Request) (w : relay.World)
    (e : error) (body : http.ReadCloser) :
  http.Body req = Some body ->
  relay.dial w (fst (dialTarget req)) (snd (dialTarget req)) = Some e ->
  fst (RoundTrip unicodeToUpper rt t req w) = Returns (None, Some e) /\
  relay.body_closed (snd (RoundTrip unicodeToUpper rt t req w)) = relay.body_closed w.
Proof.
  intros _ Hdial. by rewrite (RoundTrip_dial_fails _ _ _ _ _ _ Hdial).
Qed.

Lemma dial_failure_leaves_body_open_witness :
  http.Body Sample.withBody = Some (http.mkBody [x68; x69] false) /\
  (fst (RoundTrip Sample.noUnicode canonicalRange Sample.params Sample.withBody
          (Sample.world (Some (DialError "tcp" "127.0.0.1:3031")) None))
     = Returns (None, Some (DialError "tcp" "127.0.0.1:3031")) /\
   relay.body_closed
     (snd (RoundTrip Sample.noUnicode canonicalRange Sample.params Sample.withBody
             (Sample.world (Some (DialError "tcp" "127.0.0.1:3031")) None)))
     = 0%nat).
Proof.
  split; [reflexivity|].
  apply (dial_failure_leaves_body_open Sample.noUnicode canonicalRange Sample.params
           Sample.withBody (Sample.world (Some (DialError "tcp" "127.0.0.1:3031")) None)
           (DialError "tcp" "127.0.0.1:3031") (http.mkBody [x68; x69] false));
    reflexivity.
Defined.

(** C4, as the claim has it, fails.  With a body whose read fails, the
    copy of the body returns an error after the header, the block and two
    bytes of body were sent, and the call returns the parsed response with
    a [nil] error.  On a connection that takes no byte the first write of
    the header already returns an error, nothing is sent, and the call
    returns the parsed response with a [nil] error all the same. *)
Lemma write_failure_is_not_propagated :
  (fst (conn.Copy_body (http.mkBody [x68; x69] true) (Sample.world None None))
     = Returns (2, Some BodyReadError) /\
   fst (RoundTrip Sample.noUnicode canonicalRange Sample.params Sample.brokenBody
          (Sample.world None None))
     = Returns (Some Sample.ok, None)) /\
  (fst (conn.Write [x00] (Sample.world None (Some 0%nat))) = Returns (0, Some WriteError) /\
   fst (RoundTrip Sample.noUnicode canonicalRange Sample.params Sample.withBody
          (Sample.world None (Some 0%nat)))
     = Returns (Some Sample.ok, None) /\
   relay.conn_sent
     (snd (RoundTrip Sample.noUnicode canonicalRange Sample.params Sample.withBody
             (Sample.world None (Some 0%nat)))) = []).
Proof.
  repeat split; vm_compute; reflexivity.
Qed.

(** C4, amended: once the dial has succeeded and the encoder has returned,
    the results of the writes of the header and of the block and of the
    copy of the body are not looked at, whether they fail or not: the call
    returns exactly what [http.ReadResponse] returns on the connection, a
    response or its own error. *)
Theorem write_results_are_ignored
    (unicodeToUpper : string -> string) (rt : MapRange)
    (t : Transport) (req : http.Request) (w : relay.World)
    (block : list byte) (err : option error) :
  generateBlockVars unicodeToUpper rt req t = Returns (block, err) ->
  relay.dial w (fst (dialTarget req)) (snd (dialTarget req)) = None ->
  exists w' : relay.World,
    RoundTrip unicodeToUpper rt t req w
      = (Returns (relay.backend w (relay.conn_sent w')), w').
Proof.
  intros Hgen Hdial.
  destruct (RoundTrip_dialled _ _ t _ _ _ _ Hgen Hdial)
    as (w0 & _ & _ & _ & _ & Hback & ->).
  destruct (sendAndReceive_returns block req w0) as (w' & -> & _).
  exists w'. by rewrite Hback.
Qed.

Lemma write_results_are_ignored_witness :
  generateBlockVars Sample.noUnicode canonicalRange Sample.withBody Sample.params
    = Returns (Sample.plainBlock, None) /\
  exists w' : relay.World,
    RoundTrip Sample.noUnicode canonicalRange Sample.params Sample.withBody
        (Sample.world None (Some 0%nat))
      = (Returns (relay.backend (Sample.world None (Some 0%nat)) (relay.conn_sent w')), w').
Proof.
  split; [vm_compute; reflexivity|].
  apply (write_results_are_ignored Sample.noUnicode canonicalRange Sample.params
           Sample.withBody (Sample.world None (Some 0%nat)) Sample.plainBlock None).
  - vm_compute; reflexivity.
  - reflexivity.
Defined.


(** ** The server name and port *)

(** On an error [net.SplitHostPort] returns two empty strings. *)
Lemma SplitHostPort_error (hostport host port : string) (e : net.AddrError) :
  net.SplitHostPort hostport = (host, port, Some e) -> host = "" /\ port = "".
Proof.
  unfold net.SplitHostPort, net.addrErr.
  repeat match goal with
         | |- context [if ?b then _ else _] => destruct b
         end; intros [= <- <- ?]; (done || discriminate).
Qed.

Lemma lastIndexFrom_absent (s : string) (c : ascii) (i found : Z) :
  0 <= i -> strings.indexFrom s c i = -1 -> strings.lastIndexFrom s c i found = found.
Proof.
  revert i found. induction s as [|x s IH]; intros i found Hi Hidx; [reflexivity|].
  cbn [strings.indexFrom strings.lastIndexFrom] in *.
  destruct (Ascii.eqb x c); [lia|]. apply IH; [lia|done].
Qed.

(** A host string without [':'] has no port: the split fails. *)
Lemma SplitHostPort_no_colon (hostport : string) :
  strings.IndexByte hostport ":" = -1 ->
  net.SplitHostPort hostport = ("", "", Some net.missingPort).
Proof.
  intros Hnone. unfold net.SplitHostPort, strings.LastIndexByte.
  by rewrite (lastIndexFrom_absent hostport ":" 0 (-1)).
Qed.

Lemma baseVars_server (req : http.Request) (sn sp ra rp : string) :
  baseVars req sn sp ra rp !! "SERVER_NAME" = Some sn /\
  baseVars req sn sp ra rp !! "SERVER_PORT" = Some sp.
Proof.
  unfold baseVars. cbn [list_to_map foldr fst snd].
  destruct (http.TLS req); split;
    repeat (rewrite lookup_insert_ne by discriminate); by rewrite lookup_insert_eq.
Qed.

Lemma derivedVars_Returns (unicodeToUpper : string -> string) (rt : MapRange)
    (req : http.Request) (dv : gmap string string) :
  derivedVars unicodeToUpper rt req = Returns dv ->
  exists ra rp,
    remoteAddrPort req = Returns (ra, rp) /\
    dv = addHeaders unicodeToUpper
           (baseVars req (fst (serverNamePort req)) (snd (serverNamePort req)) ra rp)
           (range rt (http.Header req)).
Proof.
  unfold derivedVars. destruct (serverNamePort req) as [sn sp].
  destruct (remoteAddrPort req) as [[ra rp]|p]; cbn; [|discriminate].
  intros [= <-]. by exists ra, rp.
Qed.

(** C7: in the variables derived from a request, [SERVER_NAME] and
    [SERVER_PORT] come from [net.SplitHostPort] of the host string: when the
    split succeeds they are its name and its port, the port replaced by the
    default when it is empty; when the split fails, as it does when no port
    is present, [SERVER_NAME] is the whole host string and [SERVER_PORT] the
    default; the default is ["443"] on a secure request and ["80"]
    otherwise. *)
Theorem server_name_and_port_from_host
    (unicodeToUpper : string -> string) (rt : MapRange)
    (req : http.Request) (dv : gmap string string) :
  derivedVars unicodeToUpper rt req = Returns dv ->
  let default := if http.TLS req then "443" else "80" in
  match net.SplitHostPort (http.Host req) with
  | (name, port, None) =>
      dv !! "SERVER_NAME" = Some name /\
      dv !! "SERVER_PORT" = Some (if String.eqb port "" then default else port)
  | (_, _, Some _) =>
      dv !! "SERVER_NAME" = Some (http.Host req) /\
      dv !! "SERVER_PORT" = Some default
  end.
Proof.
  intros Hdv default.
  destruct (derivedVars_Returns _ _ _ _ Hdv) as (ra & rp & _ & ->).
  rewrite !addHeaders_lookup_other by discriminate.
  destruct (baseVars_server req (fst (serverNamePort req)) (snd (serverNamePort req)) ra rp)
    as [-> ->].
  unfold serverNamePort.
  destruct (net.SplitHostPort (http.Host req)) as [[name port] [e|]] eqn:Hsplit;
    cbn [fst snd]; [|done].
  by destruct (SplitHostPort_error _ _ _ _ Hsplit) as [-> ->].
Qed.

Lemma derivedVars_of (unicodeToUpper : string -> string) (rt : MapRange)
    (req : http.Request) (sn sp ra rp : string) :
  serverNamePort req = (sn, sp) ->
  remoteAddrPort req = Returns (ra, rp) ->
  derivedVars unicodeToUpper rt req
    = Returns (addHeaders unicodeToUpper (baseVars req sn sp ra rp)
                          (range rt (http.Header req))).
Proof. intros Hs Hr. unfold derivedVars. by rewrite Hs, Hr. Qed.

Lemma server_name_and_port_from_host_witness :
  derivedVars Sample.noUnicode canonicalRange Sample.withPort
    = Returns Sample.withPortDerived /\
  (Sample.withPortDerived !! "SERVER_NAME" = Some "example.com" /\
   Sample.withPortDerived !! "SERVER_PORT" = Some "8080").
Proof.
  assert (H : derivedVars Sample.noUnicode canonicalRange Sample.withPort
              = Returns Sample.withPortDerived)
    by (apply derivedVars_of; vm_compute; reflexivity).
  split; [exact H|].
  exact (server_name_and_port_from_host Sample.noUnicode canonicalRange
           Sample.withPort Sample.withPortDerived H).
Defined.

(** The three hosts of the specification. *)
Example server_port_examples :
  serverNamePort (Sample.req "example.com" "[::1]:54321" true None)
    = ("example.com", "443") /\
  serverNamePort (Sample.req "example.com" "[::1]:54321" false None)
    = ("example.com", "80") /\
  serverNamePort (Sample.req "example.com:8080" "[::1]:54321" true None)
    = ("example.com", "8080").
Proof. repeat split. Qed.

(** A host that ends with [':'] splits into the name and an empty port:
    the name is kept and the port is the default. *)
Example server_port_empty :
  serverNamePort (Sample.req "example.com:" "[::1]:54321" false None)
    = ("example.com", "80").
Proof. reflexivity. Qed.

(** ** The request headers *)

(** C6, as the claim has it, fails: the headers [X-A: 1] and [X_a: 2] are
    both sent as [HTTP_X_A], the block has one pair of that name, here with
    the value ["1"], and no pair for the header [X_a] with its value ["2"]. *)
Lemma colliding_header_is_dropped :
  http.Header Sample.collide !! "X_a" = Some ["2"] /\
  headerVarName Sample.noUnicode "X_a" = "HTTP_X_A" /\
  blockEntries Sample.noUnicode canonicalRange Sample.collide Sample.noParams
    = Returns Sample.collideEntries /\
  ("HTTP_X_A", "1") ∈ Sample.collideEntries /\
  (headerVarName Sample.noUnicode "X_a", strings.Join ["2"] ", ") ∉ Sample.collideEntries.
Proof.
  split; [vm_compute; reflexivity|]. split; [reflexivity|].
  split; [vm_compute; reflexivity|].
  split; apply (bool_decide_unpack _); vm_compute; exact I.
Qed.

(** The two headers of the specification, in the block of [Sample.plain]. *)
Example header_examples :
  blockEntries Sample.noUnicode canonicalRange Sample.plain Sample.params
    = Returns Sample.plainEntries /\
  ("HTTP_X_CUSTOM_ID", "42") ∈ Sample.plainEntries /\
  ("HTTP_ACCEPT", "text/html, application/json") ∈ Sample.plainEntries.
Proof.
  split; [vm_compute; reflexivity|].
  split; apply (bool_decide_unpack _); vm_compute; exact I.
Qed.

(** ** The peer address with a host part *)

Lemma Split_nonempty (s : string) (sep : ascii) :
  exists a l, strings.Split s sep = a :: l.
Proof.
  induction s as [|c s (a & l & IH)]; cbn [strings.Split]; [by eexists _, _|].
  destruct (Ascii.eqb c sep); [by eexists _, _|]. rewrite IH. by eexists _, _.
Qed.

(** Splitting at [':'] what ends with [':' ++ port], a port without [':']:
    the pieces of the part before, then the port. *)
Lemma Split_app_port (host port : string) :
  strings.IndexByte port ":" = -1 ->
  strings.Split (host ++ String ":" port) ":"
    = (strings.Split host ":" ++ [port])%list.
Proof.
  intros Hport. induction host as [|c host IH].
  - change ("" ++ String ":" port) with (String ":" port).
    cbn [strings.Split Ascii.eqb Bool.eqb].
    by rewrite (Split_no_sep port ":" 0).
  - change (String c host ++ String ":" port) with (String c (host ++ String ":" port)).
    cbn [strings.Split]. rewrite IH.
    destruct (Ascii.eqb c ":"); [reflexivity|].
    by destruct (Split_nonempty host ":") as (a & l & ->).
Qed.

Lemma Join_cons (x y : string) (l : list string) (sep : string) :
  strings.Join (x :: y :: l) sep = x ++ sep ++ strings.Join (y :: l) sep.
Proof. reflexivity. Qed.

(** Joining the pieces with [":"] gives the string back. *)
Lemma Join_Split (s : string) : strings.Join (strings.Split s ":") ":" = s.
Proof.
  induction s as [|c s IH]; [reflexivity|]. cbn [strings.Split].
  destruct (Split_nonempty s ":") as (a & l & Hs). rewrite Hs in *.
  destruct (Ascii.eqb c ":") eqn:Hc.
  - apply Ascii.eqb_eq in Hc as ->. rewrite Join_cons, IH. reflexivity.
  - destruct l as [|b l].
    + cbn [strings.Join] in *. by rewrite IH.
    + rewrite Join_cons in *. rewrite <- IH. reflexivity.
Qed.

Lemma get_in_range (s : string) (n : nat) :
  (n < String.length s)%nat -> exists c, String.get n s = Some c.
Proof.
  revert n. induction s as [|x s IH]; intros n Hn; cbn in *; [lia|].
  destruct n as [|n]; [by eexists|]. apply IH. lia.
Qed.

Lemma index_head (c : ascii) (rest : string) :
  GoString.index (String c rest) 0 = Returns c.
Proof.
  unfold GoString.index, GoString.len. cbn [String.length].
  replace (Z.of_nat (S (String.length rest)) <=? 0) with false
    by (symmetry; apply Z.leb_gt; lia).
  reflexivity.
Qed.

Lemma index_last (s : string) :
  1 <= GoString.len s ->
  GoString.index s (GoString.len s - 1)
    = Returns (GoString.byteAt s (GoString.len s - 1)).
Proof.
  intros Hlen. unfold GoString.index, GoString.byteAt.
  replace ((GoString.len s - 1 <? 0) || (GoString.len s <=? GoString.len s - 1))
    with false by (symmetry; apply orb_false_iff; split; [apply Z.ltb_ge|apply Z.leb_gt]; lia).
  destruct (get_in_range s (Z.to_nat (GoString.len s - 1))) as [cl ->];
    [unfold GoString.len in *; lia|reflexivity].
Qed.

(** What lines 97-103 and 118 compute when something stands before the
    last [':']: the part before it, without its brackets when it starts
    with ['['] and ends with [']'], and the part after it. *)
Lemma remoteAddrPort_split (req : http.Request) (c : ascii) (rest port : string) :
  let host := String c rest in
  http.RemoteAddr req = host ++ String ":" port ->
  strings.IndexByte port ":" = -1 ->
  remoteAddrPort req
    = Returns (if Ascii.eqb c "[" &&
                  Ascii.eqb (GoString.byteAt host (GoString.len host - 1)) "]"
               then GoString.sub host 1 (GoString.len host - 1)
               else host,
               port).
Proof.
  intros host Haddr Hport. unfold remoteAddrPort.
  rewrite Haddr, (Split_app_port host port Hport).
  set (pieces := strings.Split host ":").
  assert (Hlen : GoSlice.len (pieces ++ [port]) - 1 = Z.of_nat (List.length pieces)).
  { unfold GoSlice.len. rewrite length_app. cbn [List.length]. lia. }
  rewrite Hlen. unfold GoSlice.upto, GoSlice.index.
  assert (Hlen' : GoSlice.len (pieces ++ [port]) = Z.of_nat (List.length pieces) + 1) by lia.
  rewrite Hlen'.
  replace ((Z.of_nat (List.length pieces) <? 0)
           || (Z.of_nat (List.length pieces) + 1 <? Z.of_nat (List.length pieces)))
    with false by (symmetry; apply orb_false_iff; split; apply Z.ltb_ge; lia).
  replace ((Z.of_nat (List.length pieces) <? 0)
           || (Z.of_nat (List.length pieces) + 1 <=? Z.of_nat (List.length pieces)))
    with false by (symmetry; apply orb_false_iff; split; [apply Z.ltb_ge|apply Z.leb_gt]; lia).
  rewrite Nat2Z.id, firstn_app, Nat.sub_diag, firstn_all, app_nil_r.
  rewrite nth_error_app2, Nat.sub_diag by lia.
  cbn [firstn obind nth_error]. subst pieces. rewrite Join_Split.
  assert (Hpos : 1 <= GoString.len host) by (unfold GoString.len; cbn; lia).
  unfold host at 1. rewrite index_head. cbn [obind]. fold host.
  destruct (Ascii.eqb c "[") eqn:Hc; cbn [andb obind]; [|reflexivity].
  rewrite (index_last host Hpos). cbn [obind].
  destruct (Ascii.eqb (GoString.byteAt host (GoString.len host - 1)) "]") eqn:Hl;
    [|reflexivity].
  unfold GoString.slice, GoString.sub.
  assert (2 <= GoString.len host).
  { unfold GoString.len. cbn [host String.length]. destruct rest; [|cbn; lia].
    cbn in Hl. apply Ascii.eqb_eq in Hc as ->. discriminate Hl. }
  replace ((1 <? 0) || (GoString.len host - 1 <? 1)
           || (GoString.len host <? GoString.len host - 1))
    with false; [reflexivity|].
  symmetry. repeat (apply orb_false_iff; split); apply Z.ltb_ge; lia.
Qed.

(** The peer address of the specification. *)
Example peer_v6_example :
  remoteAddrPort Sample.plain = Returns ("::1", "54321").
Proof. reflexivity. Qed.

(** ** A panic of the encoder inside the relay *)

(** The encoder is called after the dial: when it panics, the call ends
    with the connection opened, nothing written and the body not closed. *)
Lemma RoundTrip_panics (unicodeToUpper : string -> string) (rt : MapRange)
    (t : Transport) (req : http.Request) (w : relay.World) (p : panic) :
  relay.dial w (fst (dialTarget req)) (snd (dialTarget req)) = None ->
  generateBlockVars unicodeToUpper rt req t = Panics p ->
  exists w' : relay.World,
    RoundTrip unicodeToUpper rt t req w = (Panics p, w') /\
    relay.conn_opened w' = S (relay.conn_opened w) /\
    relay.conn_sent w' = relay.conn_sent w /\
    relay.body_closed w' = relay.body_closed w.
Proof.
  intros Hdial Hgen. unfold RoundTrip.
  destruct (dialTarget req) as [network address]. cbn [fst snd] in Hdial.
  unfold relay.bind at 1. unfold conn.Dial. rewrite Hdial.
  unfold relay.bind, relay.lift. rewrite Hgen. by eexists.
Qed.

Example unix_peer_panics_in_relay :
  fst (RoundTrip Sample.noUnicode canonicalRange Sample.params Sample.unixPeer
         (Sample.world None None)) = Panics (IndexOutOfRange 0 0).
Proof. reflexivity. Qed.


(** ** A block determines its pairs *)

Lemma writeBlockVar_app (buffer : list byte) (s : string) :
  writeBlockVar buffer s = (buffer ++ writeBlockVar [] s)%list.
Proof. reflexivity. Qed.

Lemma writeVars_cons (k v : string) (entries : list (string * string)) :
  writeVars ((k, v) :: entries)
    = (writeBlockVar [] k ++ writeBlockVar [] v ++ writeVars entries)%list.
Proof.
  unfold writeVars. cbn [foldl].
  enough (H : forall buf,
            foldl (fun packetBody '(key, val) =>
                     writeBlockVar (writeBlockVar packetBody key) val) buf entries
            = (buf ++ foldl (fun packetBody '(key, val) =>
                               writeBlockVar (writeBlockVar packetBody key) val)
                            [] entries)%list).
  { rewrite H, (writeBlockVar_app (writeBlockVar [] k) v). by rewrite <- app_assoc. }
  induction entries as [|[k' v'] entries IH]; intros buf; cbn [foldl].
  - by rewrite app_nil_r.
  - rewrite IH, (IH (writeBlockVar (writeBlockVar [] k') v')).
    rewrite (writeBlockVar_app (writeBlockVar buf k') v'), (writeBlockVar_app buf k').
    rewrite (writeBlockVar_app (writeBlockVar [] k') v'). by rewrite <- !app_assoc.
Qed.

Lemma bytes_inj (s1 s2 : string) : GoString.bytes s1 = GoString.bytes s2 -> s1 = s2.
Proof.
  intros H. apply (f_equal string_of_list_byte) in H.
  unfold GoString.bytes in H. by rewrite !string_of_list_byte_of_string in H.
Qed.

(** One written string can be read back from the front of the bytes when
    its length fits the prefix. *)
Lemma writeBlockVar_inj (s1 s2 : string) (r1 r2 : list byte) :
  GoString.len s1 < 65536 -> GoString.len s2 < 65536 ->
  (writeBlockVar [] s1 ++ r1 = writeBlockVar [] s2 ++ r2)%list ->
  s1 = s2 /\ r1 = r2.
Proof.
  intros H1 H2. unfold writeBlockVar. rewrite !len_bytes.
  cbn [app binary.PutUint16]. intros [= Hb0 Hb1 Hrest].
  assert (Hu : forall s, GoString.len s < 65536 ->
             binary.uint16 (GoString.len s) = GoString.len s).
  { intros s Hs. unfold binary.uint16. apply Z.mod_small. unfold GoString.len in *. lia. }
  rewrite !Hu in Hb0, Hb1 by done.
  assert (Hlen : GoString.len s1 = GoString.len s2).
  { rewrite <- (Uint16_PutUint16 (GoString.len s1)) by (unfold GoString.len in *; lia).
    rewrite <- (Uint16_PutUint16 (GoString.len s2)) by (unfold GoString.len in *; lia).
    by rewrite Hb0, Hb1. }
  apply app_inj_1 in Hrest as [Hs ->].
  - by apply bytes_inj in Hs.
  - apply Nat2Z.inj. change (GoSlice.len (GoString.bytes s1) = GoSlice.len (GoString.bytes s2)).
    by rewrite !len_bytes.
Qed.

(** Two lists of pairs that fit and are written to the same block are the
    same list. *)
Lemma writeVars_inj (l1 l2 : list (string * string)) :
  Forall fitsUint16 l1 -> Forall fitsUint16 l2 ->
  writeVars l1 = writeVars l2 -> l1 = l2.
Proof.
  intros Hf1. revert l2. induction Hf1 as [|[k1 v1] l1 [Hk1 Hv1] _ IH];
    intros l2 Hf2 Heq; destruct Hf2 as [|[k2 v2] l2 [Hk2 Hv2] Hf2]; cbn [fst snd] in *.
  - reflexivity.
  - rewrite writeVars_cons in Heq. discriminate Heq.
  - rewrite writeVars_cons in Heq. discriminate Heq.
  - rewrite !writeVars_cons in Heq.
    apply writeBlockVar_inj in Heq as [-> Heq]; [|done..].
    apply writeBlockVar_inj in Heq as [-> Heq]; [|done..].
    by rewrite (IH l2 Hf2 Heq).
Qed.

(** ** [REMOTE_ADDR] and [REMOTE_PORT] of a peer with a host part *)

Lemma baseVars_remote (req : http.Request) (sn sp ra rp : string) :
  baseVars req sn sp ra rp !! "REMOTE_ADDR" = Some ra /\
  baseVars req sn sp ra rp !! "REMOTE_PORT" = Some rp.
Proof.
  unfold baseVars. cbn [list_to_map foldr fst snd].
  destruct (http.TLS req); split;
    repeat (rewrite lookup_insert_ne by discriminate); by rewrite lookup_insert_eq.
Qed.

(** For a peer address with at least one byte before its last [':'] the
    encoder derives its variables, [REMOTE_ADDR] is the part before the last
    [':'] without its surrounding brackets and [REMOTE_PORT] the part after
    it. *)
Lemma peer_with_host_is_split (unicodeToUpper : string -> string) (rt : MapRange)
    (req : http.Request) (c : ascii) (rest port : string) :
  let host := String c rest in
  http.RemoteAddr req = host ++ String ":" port ->
  strings.IndexByte port ":" = -1 ->
  exists dv : gmap string string,
    derivedVars unicodeToUpper rt req = Returns dv /\
    dv !! "REMOTE_ADDR"
      = Some (if Ascii.eqb c "[" &&
                 Ascii.eqb (GoString.byteAt host (GoString.len host - 1)) "]"
              then GoString.sub host 1 (GoString.len host - 1)
              else host) /\
    dv !! "REMOTE_PORT" = Some port.
Proof.
  intros host Haddr Hport.
  pose proof (remoteAddrPort_split req c rest port Haddr Hport) as Hsplit.
  cbv zeta in Hsplit. fold host in Hsplit.
  destruct (serverNamePort req) as [sn sp] eqn:Hserver.
  eexists. split; [exact (derivedVars_of _ _ _ _ _ _ _ Hserver Hsplit)|].
  rewrite !addHeaders_lookup_other by discriminate.
  apply baseVars_remote.
Qed.

(** ** Colliding headers in any order *)

(** Whatever the order of the loops, the block of [Sample.collide] does not
    have a pair for each of its two headers. *)
Lemma colliding_headers_any_order (rt : MapRange) (entries : list (string * string)) :
  blockEntries Sample.noUnicode rt Sample.collide Sample.noParams = Returns entries ->
  ~ (("HTTP_X_A", "1") ∈ entries /\ ("HTTP_X_A", "2") ∈ entries).
Proof.
  unfold blockEntries.
  destruct (blockVars Sample.noUnicode rt Sample.collide Sample.noParams) as [vars|p];
    cbn; [|discriminate].
  intros [= <-] [H1 H2]. apply range_lookup in H1, H2. congruence.
Qed.

(** In the reverse order it is the other header that is kept. *)
Example colliding_headers_reverse_order :
  match blockEntries Sample.noUnicode reverseRange Sample.collide Sample.noParams with
  | Returns entries => bool_decide (("HTTP_X_A", "2") ∈ entries)
  | Panics _ => false
  end = true.
Proof. vm_compute. reflexivity. Qed.

(** ** Derived variables in the block *)

(** A derived variable whose name no static parameter has is a pair of the
    block, with its derived value. *)
Lemma derived_variable_in_block (unicodeToUpper : string -> string) (rt : MapRange)
    (req : http.Request) (t : Transport) (dv : gmap string string) (k v : string) :
  derivedVars unicodeToUpper rt req = Returns dv ->
  dv !! k = Some v ->
  UWSGIParams t !! k = None ->
  exists entries : list (string * string),
    generateBlockVars unicodeToUpper rt req t = Returns (writeVars entries, None) /\
    (k, v) ∈ entries.
Proof.
  intros Hdv Hk Hstatic. eexists. split; [by apply generateBlockVars_derived|].
  apply range_lookup. by rewrite lookup_union_r.
Qed.

(** The static [SERVER_NAME] of [Sample.params] takes the place of the one
    derived from the host [svc.local]. *)
Example static_override_example :
  ("SERVER_NAME", "static.local") ∈ Sample.plainEntries /\
  ("SERVER_NAME", "svc.local") ∉ Sample.plainEntries.
Proof. split; apply (bool_decide_unpack _); vm_compute; exact I. Qed.

(** * Further properties of the encoder *)

Lemma writeVars_app (l1 l2 : list (string * string)) :
  writeVars (l1 ++ l2) = (writeVars l1 ++ writeVars l2)%list.
Proof.
  induction l1 as [|[k v] l1 IH]; [reflexivity|].
  change (((k, v) :: l1) ++ l2)%list with ((k, v) :: (l1 ++ l2))%list.
  rewrite !writeVars_cons, IH. by rewrite <- !app_assoc.
Qed.

Lemma bytes_app (s1 s2 : string) :
  GoString.bytes (s1 ++ s2) = (GoString.bytes s1 ++ GoString.bytes s2)%list.
Proof.
  unfold GoString.bytes, list_byte_of_string.
  induction s1 as [|c s1 IH]; [reflexivity|].
  change (String c s1 ++ s2) with (String c (s1 ++ s2)).
  cbn [list_ascii_of_string List.map app]. by rewrite IH.
Qed.

Lemma bytes_of_list (l : list byte) : GoString.bytes (string_of_list_byte l) = l.
Proof. apply list_byte_of_string_of_list_byte. Qed.

(** X1: the length of the block the encoder returns is, summed over the
    pairs it writes, four bytes and the bytes of the name and of the value;
    this holds whatever the lengths of the strings. *)
Theorem encoder_block_size
    (unicodeToUpper : string -> string) (rt : MapRange)
    (req : http.Request) (t : Transport) (block : list byte) (err : option error) :
  generateBlockVars unicodeToUpper rt req t = Returns (block, err) ->
  exists entries : list (string * string),
    blockEntries unicodeToUpper rt req t = Returns entries /\
    GoSlice.len block = blockSize entries.
Proof.
  intros Hgen.
  destruct (generateBlockVars_Returns _ _ _ _ _ _ Hgen) as (dv & _ & _ & Hent & -> & _).
  eexists; split; [exact Hent|]. apply writeVars_len.
Qed.

Lemma encoder_block_size_witness :
  generateBlockVars Sample.noUnicode canonicalRange Sample.plain Sample.params
    = Returns (Sample.plainBlock, None) /\
  exists entries : list (string * string),
    blockEntries Sample.noUnicode canonicalRange Sample.plain Sample.params
      = Returns entries /\
    GoSlice.len Sample.plainBlock = blockSize entries.
Proof.
  split; [vm_compute; reflexivity|].
  apply (encoder_block_size Sample.noUnicode canonicalRange Sample.plain Sample.params
           Sample.plainBlock None).
  vm_compute; reflexivity.
Defined.

(** X2: when every name and value the encoder writes is shorter than 65536
    bytes, its block can be read back: any list of such pairs that is
    written to the same bytes is the list of pairs the encoder wrote. *)
Theorem encoder_block_reads_back
    (unicodeToUpper : string -> string) (rt : MapRange)
    (req : http.Request) (t : Transport) (block : list byte) (err : option error)
    (entries l : list (string * string)) :
  generateBlockVars unicodeToUpper rt req t = Returns (block, err) ->
  blockEntries unicodeToUpper rt req t = Returns entries ->
  Forall fitsUint16 entries -> Forall fitsUint16 l ->
  writeVars l = block ->
  l = entries.
Proof.
  intros Hgen Hent Hfit Hl Hblock.
  destruct (generateBlockVars_Returns _ _ _ _ _ _ Hgen) as (dv & _ & _ & Hent' & Hb & _).
  rewrite Hent in Hent'. injection Hent' as Heq. rewrite <- Heq in Hb.
  apply writeVars_inj; congruence.
Qed.

Lemma encoder_block_reads_back_witness :
  generateBlockVars Sample.noUnicode canonicalRange Sample.plain Sample.params
    = Returns (Sample.plainBlock, None) /\
  blockEntries Sample.noUnicode canonicalRange Sample.plain Sample.params
    = Returns Sample.plainEntries /\
  Forall fitsUint16 Sample.plainEntries /\
  writeVars Sample.plainEntries = Sample.plainBlock /\
  Sample.plainEntries = Sample.plainEntries.
Proof.
  assert (H : Forall fitsUint16 Sample.plainEntries).
  { unfold Sample.plainEntries. repeat constructor. }
  split; [vm_compute; reflexivity|]. split; [vm_compute; reflexivity|].
  split; [exact H|]. split; [vm_compute; reflexivity|].
  apply (encoder_block_reads_back Sample.noUnicode canonicalRange Sample.plain
           Sample.params Sample.plainBlock None Sample.plainEntries Sample.plainEntries);
    [vm_compute; reflexivity|vm_compute; reflexivity|exact H|exact H|vm_compute; reflexivity].
Defined.

(** X3: the length prefix wraps.  A value [v] followed by the bytes of
    pairs that take a multiple of 65536 bytes is written exactly as the
    value [v] followed by those pairs: the block of the one long pair is the
    block of several pairs. *)
Theorem oversized_value_is_written_as_pairs
    (k v : string) (inj rest : list (string * string)) :
  GoString.len v < 65536 ->
  blockSize inj mod 65536 = 0 ->
  writeVars ((k, v ++ string_of_list_byte (writeVars inj)) :: rest)
    = writeVars ((k, v) :: inj ++ rest).
Proof.
  intros Hv Hinj.
  change ((k, v) :: inj ++ rest)%list with ([(k, v)] ++ inj ++ rest)%list.
  rewrite !writeVars_app, !writeVars_cons.
  change (writeVars []) with (@nil byte). rewrite app_nil_r.
  rewrite <- !app_assoc. f_equal.
  unfold writeBlockVar. rewrite bytes_app, bytes_of_list.
  cbn [app]. rewrite <- !app_assoc. cbn [app].
  replace (binary.uint16 (GoSlice.len (GoString.bytes v ++ writeVars inj)))
    with (binary.uint16 (GoSlice.len (GoString.bytes v))); [reflexivity|].
  unfold binary.uint16, GoSlice.len at 2. rewrite length_app, Nat2Z.inj_add.
  change (Z.of_nat (List.length (writeVars inj))) with (GoSlice.len (writeVars inj)).
  change (Z.of_nat (List.length (GoString.bytes v))) with (GoSlice.len (GoString.bytes v)).
  rewrite writeVars_len, Z.add_mod, Hinj, Z.add_0_r, Z.mod_mod by lia. reflexivity.
Qed.

Lemma forged_size : blockSize Forged.injected = 65536.
Proof.
  unfold blockSize, Forged.injected. cbn [foldr fst snd].
  rewrite Repeat_len by lia. reflexivity.
Qed.

Lemma oversized_value_is_written_as_pairs_witness :
  GoString.len "" < 65536 /\
  blockSize Forged.injected mod 65536 = 0 /\
  writeVars [("HTTP_X", Forged.value)]
    = writeVars (("HTTP_X", "") :: Forged.injected ++ []).
Proof.
  assert (Hinj : blockSize Forged.injected mod 65536 = 0)
    by (rewrite forged_size; reflexivity).
  split; [reflexivity|]. split; [exact Hinj|].
  apply (oversized_value_is_written_as_pairs "HTTP_X" "" Forged.injected []);
    [reflexivity|exact Hinj].
Defined.

(** ** When the encoder returns *)

Lemma indexFrom_absent_shift (s : string) (c : ascii) (i j : Z) :
  0 <= i -> 0 <= j -> strings.indexFrom s c i = -1 -> strings.indexFrom s c j = -1.
Proof.
  revert i j. induction s as [|x s IH]; intros i j Hi Hj; [reflexivity|].
  cbn [strings.indexFrom]. destruct (Ascii.eqb x c); [lia|].
  apply IH; lia.
Qed.

(** A string has no [':'], or splits at its last [':']. *)
Lemma last_colon_split (s : string) :
  strings.IndexByte s ":" = -1 \/
  exists host port, s = host ++ String ":" port /\ strings.IndexByte port ":" = -1.
Proof.
  induction s as [|c s [IH|(host & port & -> & Hport)]].
  - by left.
  - destruct (Ascii.eqb c ":") eqn:Hc.
    + apply Ascii.eqb_eq in Hc as ->. right. by exists "", s.
    + left. unfold strings.IndexByte in *. cbn [strings.indexFrom]. rewrite Hc.
      by apply (indexFrom_absent_shift s ":" 0 (0 + 1)).
  - right. by exists (String c host), port.
Qed.

(** X4: the encoder returns exactly for the requests whose peer address has
    at least one byte before its last [':']; for every other request, one
    whose peer address has no [':'] or only a leading one, it panics. *)
Theorem encoder_returns_iff_peer_has_host
    (unicodeToUpper : string -> string) (rt : MapRange)
    (req : http.Request) (t : Transport) :
  (exists block, generateBlockVars unicodeToUpper rt req t = Returns (block, None))
  <->
  (exists c rest port,
     http.RemoteAddr req = String c rest ++ String ":" port /\
     strings.IndexByte port ":" = -1).
Proof.
  split.
  - intros [block Hgen].
    destruct (last_colon_split (http.RemoteAddr req)) as [Hnone|(host & port & Haddr & Hport)].
    + rewrite (generateBlockVars_panics unicodeToUpper rt req t (IndexOutOfRange 0 0)) in Hgen;
        [discriminate|].
      apply (remoteAddrPort_empty_host req [] (http.RemoteAddr req)); [|reflexivity].
      by apply (Split_no_sep _ _ 0).
    + destruct host as [|c rest]; [|by exists c, rest, port].
      rewrite (generateBlockVars_panics unicodeToUpper rt req t (IndexOutOfRange 0 0)) in Hgen;
        [discriminate|].
      apply (remoteAddrPort_empty_host req [""] port); [|reflexivity].
      rewrite Haddr. change ("" ++ String ":" port) with (String ":" port).
      cbn [strings.Split Ascii.eqb Bool.eqb]. by rewrite (Split_no_sep port ":" 0).
  - intros (c & rest & port & Haddr & Hport).
    pose proof (remoteAddrPort_split req c rest port Haddr Hport) as Hsplit.
    cbv zeta in Hsplit.
    destruct (serverNamePort req) as [sn sp] eqn:Hserver.
    eexists. apply generateBlockVars_derived.
    exact (derivedVars_of _ _ _ _ _ _ _ Hserver Hsplit).
Qed.

(** ** The variables copied from the request *)

Lemma baseVars_lookup (req : http.Request) (sn sp ra rp : string) :
  let vars := baseVars req sn sp ra rp in
  vars !! "QUERY_STRING" = Some (http.RawQuery (http.Url req)) /\
  vars !! "REQUEST_METHOD" = Some (http.Method req) /\
  vars !! "CONTENT_TYPE" = Some (http.Header_Get (http.Header req) "Content-Type") /\
  vars !! "CONTENT_LENGTH" = Some (http.Header_Get (http.Header req) "Content-Length") /\
  vars !! "REQUEST_URI" = Some (http.RequestURI req) /\
  vars !! "PATH_INFO" = Some (http.Path (http.Url req)) /\
  vars !! "SERVER_PROTOCOL" = Some (http.Proto req) /\
  vars !! "REQUEST_SCHEME" = Some (http.Scheme (http.Url req)) /\
  vars !! "HTTPS" = Some (if http.TLS req then "on" else "") /\
  vars !! "HTTP_HOST" = Some (http.Host req).
Proof.
  unfold baseVars. cbn [list_to_map foldr fst snd].
  destruct (http.TLS req); repeat split;
    repeat (rewrite lookup_insert_ne by discriminate); by rewrite lookup_insert_eq.
Qed.

(** X5: no request header changes a variable whose name does not start
    with [HTTP_]: in the derived variables the query string, the method,
    the request URI, the path, the protocol and the scheme are those of the
    request, [CONTENT_TYPE] and [CONTENT_LENGTH] are the first values of
    the two headers (empty when absent), and [HTTPS] is ["on"] on a secure
    request and empty otherwise. *)
Theorem request_variables_are_copied
    (unicodeToUpper : string -> string) (rt : MapRange)
    (req : http.Request) (dv : gmap string string) :
  derivedVars unicodeToUpper rt req = Returns dv ->
  dv !! "QUERY_STRING" = Some (http.RawQuery (http.Url req)) /\
  dv !! "REQUEST_METHOD" = Some (http.Method req) /\
  dv !! "CONTENT_TYPE" = Some (http.Header_Get (http.Header req) "Content-Type") /\
  dv !! "CONTENT_LENGTH" = Some (http.Header_Get (http.Header req) "Content-Length") /\
  dv !! "REQUEST_URI" = Some (http.RequestURI req) /\
  dv !! "PATH_INFO" = Some (http.Path (http.Url req)) /\
  dv !! "SERVER_PROTOCOL" = Some (http.Proto req) /\
  dv !! "REQUEST_SCHEME" = Some (http.Scheme (http.Url req)) /\
  dv !! "HTTPS" = Some (if http.TLS req then "on" else "").
Proof.
  intros Hdv. destruct (derivedVars_Returns _ _ _ _ Hdv) as (ra & rp & _ & ->).
  rewrite !addHeaders_lookup_other by discriminate.
  pose proof (baseVars_lookup req (fst (serverNamePort req)) (snd (serverNamePort req)) ra rp)
    as H. cbv zeta in H. tauto.
Qed.

Lemma request_variables_are_copied_witness :
  derivedVars Sample.noUnicode canonicalRange Sample.plain = Returns Sample.plainDerived /\
  (Sample.plainDerived !! "QUERY_STRING" = Some "x=1" /\
   Sample.plainDerived !! "REQUEST_METHOD" = Some "GET" /\
   Sample.plainDerived !! "CONTENT_TYPE" = Some "" /\
   Sample.plainDerived !! "CONTENT_LENGTH" = Some "" /\
   Sample.plainDerived !! "REQUEST_URI" = Some "/status?x=1" /\
   Sample.plainDerived !! "PATH_INFO" = Some "/status" /\
   Sample.plainDerived !! "SERVER_PROTOCOL" = Some "HTTP/1.1" /\
   Sample.plainDerived !! "REQUEST_SCHEME" = Some "http" /\
   Sample.plainDerived !! "HTTPS" = Some "").
Proof.
  split; [exact plain_derived|].
  exact (request_variables_are_copied Sample.noUnicode canonicalRange Sample.plain
           Sample.plainDerived plain_derived).
Defined.

(** ** [HTTP_HOST] and the content headers *)

(** A name that is the variable name of no header of the list is left
    alone by the loop over the headers. *)
Lemma addHeaders_lookup_absent (unicodeToUpper : string -> string)
    (hs : list (string * list string)) (vars : gmap string string) (k : string) :
  (forall name values, (name, values) ∈ hs -> headerVarName unicodeToUpper name <> k) ->
  addHeaders unicodeToUpper vars hs !! k = vars !! k.
Proof.
  intros Hk. rewrite addHeaders_addParams, addParams_union.
  rewrite lookup_union_r; [done|].
  apply not_elem_of_list_to_map_1. intros Hin.
  apply list_elem_of_fmap in Hin as [[k' v'] [-> Hin]].
  apply elem_of_reverse, list_elem_of_fmap in Hin as [[n v] [Heq Hnv]].
  apply pair_equal_spec in Heq as [-> _]. by apply (Hk n v Hnv).
Qed.

(** X7: when no header of the request is sent under the name [HTTP_HOST],
    the derived [HTTP_HOST] is the host string of the request. *)
Theorem http_host_is_request_host
    (unicodeToUpper : string -> string) (rt : MapRange)
    (req : http.Request) (dv : gmap string string) :
  derivedVars unicodeToUpper rt req = Returns dv ->
  (forall name values, http.Header req !! name = Some values ->
     headerVarName unicodeToUpper name <> "HTTP_HOST") ->
  dv !! "HTTP_HOST" = Some (http.Host req).
Proof.
  intros Hdv Hnone. destruct (derivedVars_Returns _ _ _ _ Hdv) as (ra & rp & _ & ->).
  rewrite addHeaders_lookup_absent.
  - pose proof (baseVars_lookup req (fst (serverNamePort req)) (snd (serverNamePort req))
                  ra rp) as H. cbv zeta in H. tauto.
  - intros name values Hin. apply range_lookup in Hin. by apply (Hnone name values).
Qed.

Lemma http_host_is_request_host_witness :
  derivedVars Sample.noUnicode canonicalRange Sample.plain = Returns Sample.plainDerived /\
  Sample.plainDerived !! "HTTP_HOST" = Some "svc.local".
Proof.
  split; [exact plain_derived|].
  apply (http_host_is_request_host Sample.noUnicode canonicalRange Sample.plain
           Sample.plainDerived plain_derived).
  intros name values Hin.
  assert (Hk : (name, values) ∈ map_to_list (http.Header Sample.plain))
    by (by apply elem_of_map_to_list).
  vm_compute in Hk. apply list_elem_of_In in Hk.
  destruct Hk as [Hk|[Hk|[]]]; injection Hk as <- <-; vm_compute; discriminate.
Defined.

(** X8: a header of the request that is sent under the name [HTTP_HOST],
    such as a header [Host] left in the header map, takes the place of the
    host string: the derived [HTTP_HOST] is the joined values of that
    header, when it is the only one sent under that name. *)
Theorem host_header_replaces_http_host
    (unicodeToUpper : string -> string) (rt : MapRange)
    (req : http.Request) (dv : gmap string string)
    (name : string) (values : list string) :
  derivedVars unicodeToUpper rt req = Returns dv ->
  http.Header req !! name = Some values ->
  headerVarName unicodeToUpper name = "HTTP_HOST" ->
  (forall name' values', http.Header req !! name' = Some values' ->
     headerVarName unicodeToUpper name' = "HTTP_HOST" -> name' = name) ->
  dv !! "HTTP_HOST" = Some (strings.Join values ", ").
Proof.
  intros Hdv Hname Hvar Huniq.
  destruct (derivedVars_Returns _ _ _ _ Hdv) as (ra & rp & _ & ->).
  rewrite <- Hvar. apply (addHeaders_lookup_unique unicodeToUpper).
  - by apply range_lookup.
  - intros name' values' Hin Heq. apply range_lookup in Hin.
    rewrite Hvar in Heq. rewrite (Huniq name' values' Hin Heq) in Hin. congruence.
Qed.

(** The cases of a header of a concrete request. *)
Ltac header_cases H :=
  apply elem_of_map_to_list in H; vm_compute in H; apply list_elem_of_In in H;
  repeat (destruct H as [H|H]; [injection H as <- <-|]); [..|destruct H].

Lemma host_header_derived :
  derivedVars Sample.noUnicode canonicalRange HostHeader.req = Returns HostHeader.derived.
Proof. apply derivedVars_of; vm_compute; reflexivity. Qed.

Lemma host_header_replaces_http_host_witness :
  derivedVars Sample.noUnicode canonicalRange HostHeader.req = Returns HostHeader.derived /\
  http.Header HostHeader.req !! "Host" = Some ["other.local"] /\
  headerVarName Sample.noUnicode "Host" = "HTTP_HOST" /\
  http.Host HostHeader.req = "svc.local" /\
  HostHeader.derived !! "HTTP_HOST" = Some "other.local".
Proof.
  split; [exact host_header_derived|]. split; [vm_compute; reflexivity|].
  split; [reflexivity|]. split; [reflexivity|].
  apply (host_header_replaces_http_host Sample.noUnicode canonicalRange HostHeader.req
           HostHeader.derived "Host" ["other.local"] host_header_derived).
  - vm_compute; reflexivity.
  - reflexivity.
  - intros name' values' Hin _. header_cases Hin. reflexivity.
Defined.

(** X9: [CONTENT_TYPE] carries the first value of the header
    [Content-Type] only, while [HTTP_CONTENT_TYPE] carries all its values
    joined with [", "], when no other header is sent under that name. *)
Theorem content_type_is_first_value
    (unicodeToUpper : string -> string) (rt : MapRange)
    (req : http.Request) (dv : gmap string string)
    (v : string) (vs : list string) :
  derivedVars unicodeToUpper rt req = Returns dv ->
  http.Header req !! "Content-Type" = Some (v :: vs) ->
  (forall name' values', http.Header req !! name' = Some values' ->
     headerVarName unicodeToUpper name' = "HTTP_CONTENT_TYPE" ->
     name' = "Content-Type") ->
  dv !! "CONTENT_TYPE" = Some v /\
  dv !! "HTTP_CONTENT_TYPE" = Some (strings.Join (v :: vs) ", ").
Proof.
  intros Hdv Hct Huniq.
  destruct (derivedVars_Returns _ _ _ _ Hdv) as (ra & rp & _ & ->). split.
  - rewrite addHeaders_lookup_other by discriminate.
    pose proof (baseVars_lookup req (fst (serverNamePort req)) (snd (serverNamePort req))
                  ra rp) as H. cbv zeta in H.
    destruct H as (_ & _ & -> & _). unfold http.Header_Get. by rewrite Hct.
  - change "HTTP_CONTENT_TYPE" with (headerVarName unicodeToUpper "Content-Type").
    apply (addHeaders_lookup_unique unicodeToUpper).
    + by apply range_lookup.
    + intros name' values' Hin Heq. apply range_lookup in Hin.
      rewrite (Huniq name' values' Hin Heq) in Hin. congruence.
Qed.

Lemma content_type_derived :
  derivedVars Sample.noUnicode canonicalRange ContentType.req
    = Returns ContentType.derived.
Proof. apply derivedVars_of; vm_compute; reflexivity. Qed.

Lemma content_type_is_first_value_witness :
  derivedVars Sample.noUnicode canonicalRange ContentType.req
    = Returns ContentType.derived /\
  http.Header ContentType.req !! "Content-Type" = Some ["text/plain"; "charset=utf-8"] /\
  (ContentType.derived !! "CONTENT_TYPE" = Some "text/plain" /\
   ContentType.derived !! "HTTP_CONTENT_TYPE" = Some "text/plain, charset=utf-8").
Proof.
  split; [exact content_type_derived|]. split; [vm_compute; reflexivity|].
  apply (content_type_is_first_value Sample.noUnicode canonicalRange ContentType.req
           ContentType.derived "text/plain" ["charset=utf-8"] content_type_derived).
  - vm_compute; reflexivity.
  - intros name' values' Hin Heq. header_cases Hin;
      first [reflexivity | vm_compute in Heq; discriminate Heq].
Defined.

(** ** The order of the loops *)

(** Over headers with distinct variable names the loop of lines 129-131
    gives the same map in every order. *)
Lemma addHeaders_any_order (unicodeToUpper : string -> string) (rt : MapRange)
    (req : http.Request) (vars : gmap string string) :
  headerNamesDistinct unicodeToUpper req ->
  addHeaders unicodeToUpper vars (range rt (http.Header req))
    = list_to_map (headerVar unicodeToUpper <$> map_to_list (http.Header req)) ∪ vars.
Proof.
  intros Hdist. rewrite addHeaders_addParams, addParams_union. f_equal.
  assert (Hp : reverse (headerVar unicodeToUpper <$> range rt (http.Header req))
               ≡ₚ headerVar unicodeToUpper <$> map_to_list (http.Header req)).
  { rewrite reverse_Permutation. by rewrite (range_perm rt). }
  apply list_to_map_proper; [|done]. rewrite Hp.
  rewrite <- list_fmap_compose. apply NoDup_fmap_2_strong; [|apply NoDup_map_to_list].
  intros [n1 v1] [n2 v2] H1 H2 Heq. cbn in Heq.
  apply elem_of_map_to_list in H1, H2.
  assert (n1 = n2) as -> by (by apply (Hdist n1 n2 v1 v2)).
  congruence.
Qed.

(** X10: when no two headers of the request are sent under the same name,
    the orders of the three loops only permute the block: the pairs written
    in one order are a permutation of the pairs written in any other. *)
Theorem loop_order_only_permutes_pairs
    (unicodeToUpper : string -> string) (rt1 rt2 : MapRange)
    (req : http.Request) (t : Transport) (entries1 : list (string * string)) :
  headerNamesDistinct unicodeToUpper req ->
  blockEntries unicodeToUpper rt1 req t = Returns entries1 ->
  exists entries2 : list (string * string),
    blockEntries unicodeToUpper rt2 req t = Returns entries2 /\
    entries1 ≡ₚ entries2.
Proof.
  intros Hdist. unfold blockEntries, blockVars, derivedVars.
  destruct (serverNamePort req) as [sn sp].
  destruct (remoteAddrPort req) as [[ra rp]|p]; cbn; [|discriminate].
  intros [= <-]. eexists; split; [reflexivity|].
  rewrite !addParams_range, !addHeaders_any_order by done.
  by rewrite (range_perm rt1), (range_perm rt2).
Qed.

Lemma plain_headers_distinct : headerNamesDistinct Sample.noUnicode Sample.plain.
Proof.
  intros n1 n2 v1 v2 H1 H2 Heq.
  header_cases H1; header_cases H2;
    first [reflexivity | vm_compute in Heq; discriminate Heq].
Qed.

Lemma loop_order_only_permutes_pairs_witness :
  headerNamesDistinct Sample.noUnicode Sample.plain /\
  blockEntries Sample.noUnicode canonicalRange Sample.plain Sample.params
    = Returns Sample.plainEntries /\
  exists entries2 : list (string * string),
    blockEntries Sample.noUnicode reverseRange Sample.plain Sample.params
      = Returns entries2 /\
    Sample.plainEntries ≡ₚ entries2.
Proof.
  split; [exact plain_headers_distinct|]. split; [vm_compute; reflexivity|].
  apply (loop_order_only_permutes_pairs Sample.noUnicode canonicalRange reverseRange
           Sample.plain Sample.params Sample.plainEntries plain_headers_distinct).
  vm_compute; reflexivity.
Defined.

(** * Further properties of the relay *)

Section BoundedConnection.

Import relay.

Lemma Write_bounded (b : list byte) (w : World) (r : nat) :
  conn_room w = Some r ->
  exists res, conn.Write b w = (Returns res, sendsUpTo w r b).
Proof.
  intros Hroom. unfold conn.Write, sendsUpTo. rewrite Hroom.
  destruct (List.length b <=? r)%nat eqn:Hle.
  - apply Nat.leb_le in Hle. eexists. by rewrite firstn_all2.
  - apply Nat.leb_gt in Hle. eexists.
    by replace (r - List.length b)%nat with 0%nat by lia.
Qed.

Lemma sendsUpTo_room (w : World) (r : nat) (bs : list byte) :
  conn_room (sendsUpTo w r bs) = Some (r - List.length bs)%nat.
Proof. reflexivity. Qed.

Lemma sendsUpTo_app (w : World) (r : nat) (a b : list byte) :
  sendsUpTo (sendsUpTo w r a) (r - List.length a) b = sendsUpTo w r (a ++ b).
Proof.
  unfold sendsUpTo; cbn. rewrite length_app, <- app_assoc.
  change firstn with (@take byte). rewrite (take_app a b r).
  f_equal. f_equal. lia.
Qed.

Lemma sendsUpTo_nil (w : World) (r : nat) :
  conn_room w = Some r -> sendsUpTo w r [] = w.
Proof.
  intros Hroom. unfold sendsUpTo. cbn [List.length]. rewrite Nat.sub_0_r, <- Hroom.
  rewrite firstn_nil, app_nil_r. by destruct w.
Qed.

Lemma Copy_buffer_bounded (buf : list byte) (w : World) (r : nat) :
  conn_room w = Some r ->
  exists res, conn.Copy_buffer buf w = (Returns res, sendsUpTo w r buf).
Proof.
  intros Hroom. destruct buf as [|x buf].
  - rewrite sendsUpTo_nil by done. by eexists.
  - unfold conn.Copy_buffer, bind.
    destruct (Write_bounded (x :: buf) w r Hroom) as ([n e] & ->). cbn [fst snd].
    destruct e; [by eexists|]. destruct (n =? GoSlice.len (x :: buf)); by eexists.
Qed.

Lemma Copy_body_bounded (body : http.ReadCloser) (w : World) (r : nat) :
  conn_room w = Some r ->
  exists res, conn.Copy_body body w = (Returns res, sendsUpTo w r (http.body_bytes body)).
Proof.
  intros Hroom. unfold conn.Copy_body. destruct (http.body_bytes body) as [|x bs].
  - rewrite sendsUpTo_nil by done. by eexists.
  - unfold bind. destruct (Write_bounded (x :: bs) w r Hroom) as ([n e] & ->).
    cbn [snd]. destruct e; by eexists.
Qed.

(** Lines 162-172 on a connection with room for [r] bytes. *)
Lemma sendAndReceive_bounded (block : list byte) (req : http.Request) (w : World) (r : nat) :
  conn_room w = Some r ->
  conn_sent (snd (sendAndReceive block req w))
    = (conn_sent w ++ firstn r (frameOf block req))%list.
Proof.
  intros Hroom. unfold sendAndReceive, conn.binary_Write_uint16, frameOf.
  set (hdr := binary.PutUint16 (binary.uint16 (GoSlice.len block))).
  unfold bind at 1. destruct (Write_bounded [x00] w r Hroom) as (r1 & ->).
  unfold bind at 1. unfold bind at 1.
  destruct (Write_bounded hdr _ _ (sendsUpTo_room w r [x00])) as (r2 & ->).
  rewrite sendsUpTo_app. unfold ret at 1.
  unfold bind at 1.
  destruct (Write_bounded [x00] _ _ (sendsUpTo_room w r ([x00] ++ hdr))) as (r3 & ->).
  rewrite sendsUpTo_app.
  unfold bind at 1.
  destruct (Copy_buffer_bounded block _ _ (sendsUpTo_room w r (([x00] ++ hdr) ++ [x00])))
    as (r4 & ->).
  rewrite sendsUpTo_app. unfold bodyBytes.
  destruct (http.Body req) as [body|].
  - unfold bind at 1. unfold bind at 1.
    destruct (Copy_body_bounded body _ _
                (sendsUpTo_room w r ((([x00] ++ hdr) ++ [x00]) ++ block))) as (r5 & ->).
    rewrite sendsUpTo_app. unfold bind, conn.Body_Close, ret, conn.ReadResponse.
    cbn [snd conn_sent sendsUpTo]. by rewrite <- !app_assoc.
  - unfold bind, ret, conn.ReadResponse. cbn [snd conn_sent sendsUpTo].
    by rewrite app_nil_r, <- !app_assoc.
Qed.

End BoundedConnection.

(** X11: whatever room the connection has, what it was sent by a call that
    dialled and encoded is a prefix of the frame, the header followed by
    the block followed by the body: all of the frame on a connection that
    never fails, its first [r] bytes on a connection with room for [r]. *)
Theorem sent_bytes_are_a_prefix_of_the_frame
    (unicodeToUpper : string -> string) (rt : MapRange)
    (t : Transport) (req : http.Request) (w : relay.World)
    (block : list byte) (err : option error) :
  generateBlockVars unicodeToUpper rt req t = Returns (block, err) ->
  relay.dial w (fst (dialTarget req)) (snd (dialTarget req)) = None ->
  relay.conn_sent (snd (RoundTrip unicodeToUpper rt t req w))
    = (relay.conn_sent w ++
       match relay.conn_room w with
       | Some r => firstn r (frameOf block req)
       | None => frameOf block req
       end)%list.
Proof.
  intros Hgen Hdial.
  destruct (relay.conn_room w) as [r|] eqn:Hroom.
  - destruct (RoundTrip_dialled _ _ t _ _ _ _ Hgen Hdial)
      as (w0 & _ & Hsent & Hroom0 & _ & _ & ->).
    rewrite (sendAndReceive_bounded block req w0 r) by congruence. by rewrite Hsent.
  - destruct (RoundTrip_unbounded _ _ t _ _ _ _ Hgen Hdial Hroom) as (w' & -> & Hsent & _).
    exact Hsent.
Qed.

Lemma sent_bytes_are_a_prefix_of_the_frame_witness :
  generateBlockVars Sample.noUnicode canonicalRange Sample.withBody Sample.params
    = Returns (Sample.plainBlock, None) /\
  relay.conn_sent (snd (RoundTrip Sample.noUnicode canonicalRange Sample.params
                          Sample.withBody (Sample.world None (Some 3%nat))))
    = (relay.conn_sent (Sample.world None (Some 3%nat)) ++
       firstn 3 (frameOf Sample.plainBlock Sample.withBody))%list.
Proof.
  split; [vm_compute; reflexivity|].
  apply (sent_bytes_are_a_prefix_of_the_frame Sample.noUnicode canonicalRange Sample.params
           Sample.withBody (Sample.world None (Some 3%nat)) Sample.plainBlock None).
  - vm_compute; reflexivity.
  - reflexivity.
Defined.

(** X12: a call that has dialled and encoded opens one connection and
    closes the body exactly once when the request has one, and not at all
    when it has none, whether the writes and the copy of the body fail or
    not. *)
Theorem body_is_closed_once_after_dial
    (unicodeToUpper : string -> string) (rt : MapRange)
    (t : Transport) (req : http.Request) (w : relay.World)
    (block : list byte) (err : option error) :
  generateBlockVars unicodeToUpper rt req t = Returns (block, err) ->
  relay.dial w (fst (dialTarget req)) (snd (dialTarget req)) = None ->
  relay.body_closed (snd (RoundTrip unicodeToUpper rt t req w))
    = (relay.body_closed w + match http.Body req with Some _ => 1 | None => 0 end)%nat /\
  relay.conn_opened (snd (RoundTrip unicodeToUpper rt t req w))
    = S (relay.conn_opened w).
Proof.
  intros Hgen Hdial.
  destruct (RoundTrip_dialled _ _ t _ _ _ _ Hgen Hdial)
    as (w0 & Hw0 & _ & _ & Hclosed & _ & ->).
  destruct (sendAndReceive_returns block req w0) as (w' & -> & _ & Hopened & Hc).
  cbn [snd]. rewrite Hc, Hopened, Hclosed. split; [reflexivity|].
  unfold conn.Dial in Hw0. rewrite Hdial in Hw0. by injection Hw0 as <-.
Qed.

Lemma body_is_closed_once_after_dial_witness :
  generateBlockVars Sample.noUnicode canonicalRange Sample.brokenBody Sample.params
    = Returns (Sample.plainBlock, None) /\
  (relay.body_closed (snd (RoundTrip Sample.noUnicode canonicalRange Sample.params
                             Sample.brokenBody (Sample.world None (Some 3%nat))))
     = 1%nat /\
   relay.conn_opened (snd (RoundTrip Sample.noUnicode canonicalRange Sample.params
                             Sample.brokenBody (Sample.world None (Some 3%nat))))
     = 1%nat).
Proof.
  split; [vm_compute; reflexivity|].
  apply (body_is_closed_once_after_dial Sample.noUnicode canonicalRange Sample.params
           Sample.brokenBody (Sample.world None (Some 3%nat)) Sample.plainBlock None).
  - vm_compute; reflexivity.
  - reflexivity.
Defined.

(** X13: the dial comes before the encoding.  For a request whose peer
    address has no [':'], a call whose dial succeeds panics with the
    connection opened, nothing sent on it and the body not closed. *)
Theorem malformed_peer_panics_after_dial
    (unicodeToUpper : string -> string) (rt : MapRange)
    (t : Transport) (req : http.Request) (w : relay.World) :
  strings.IndexByte (http.RemoteAddr req) ":" = -1 ->
  relay.dial w (fst (dialTarget req)) (snd (dialTarget req)) = None ->
  exists w' : relay.World,
    RoundTrip unicodeToUpper rt t req w = (Panics (IndexOutOfRange 0 0), w') /\
    relay.conn_opened w' = S (relay.conn_opened w) /\
    relay.conn_sent w' = relay.conn_sent w /\
    relay.body_closed w' = relay.body_closed w.
Proof.
  intros Hnone Hdial. apply RoundTrip_panics; [done|].
  apply generateBlockVars_panics.
  apply (remoteAddrPort_empty_host req [] (http.RemoteAddr req)); [|reflexivity].
  by apply (Split_no_sep _ _ 0).
Qed.

Lemma malformed_peer_panics_after_dial_witness :
  strings.IndexByte (http.RemoteAddr Sample.unixPeer) ":" = -1 /\
  exists w' : relay.World,
    RoundTrip Sample.noUnicode canonicalRange Sample.params Sample.unixPeer
        (Sample.world None None)
      = (Panics (IndexOutOfRange 0 0), w') /\
    relay.conn_opened w' = S (relay.conn_opened (Sample.world None None)) /\
    relay.conn_sent w' = relay.conn_sent (Sample.world None None) /\
    relay.body_closed w' = relay.body_closed (Sample.world None None).
Proof.
  split; [reflexivity|].
  apply (malformed_peer_panics_after_dial Sample.noUnicode canonicalRange Sample.params
           Sample.unixPeer (Sample.world None None)); reflexivity.
Defined.

(** * Further properties of the server name and port *)

(** X14: the derived [SERVER_PORT] is never empty: an empty port of the
    host string, like a missing one, is replaced by ["443"] or ["80"]. *)
Theorem server_port_is_never_empty
    (unicodeToUpper : string -> string) (rt : MapRange)
    (req : http.Request) (dv : gmap string string) :
  derivedVars unicodeToUpper rt req = Returns dv ->
  exists port : string, dv !! "SERVER_PORT" = Some port /\ port <> "".
Proof.
  intros Hdv. destruct (derivedVars_Returns _ _ _ _ Hdv) as (ra & rp & _ & ->).
  rewrite addHeaders_lookup_other by discriminate.
  destruct (baseVars_server req (fst (serverNamePort req)) (snd (serverNamePort req)) ra rp)
    as [_ ->].
  eexists; split; [reflexivity|].
  unfold serverNamePort.
  destruct (net.SplitHostPort (http.Host req)) as [[name port] e]. cbn [snd].
  destruct (String.eqb port "") eqn:Hp.
  - by destruct (http.TLS req).
  - by apply String.eqb_neq.
Qed.

Lemma server_port_is_never_empty_witness :
  derivedVars Sample.noUnicode canonicalRange Sample.plain = Returns Sample.plainDerived /\
  exists port : string, Sample.plainDerived !! "SERVER_PORT" = Some port /\ port <> "".
Proof.
  split; [exact plain_derived|].
  exact (server_port_is_never_empty Sample.noUnicode canonicalRange Sample.plain
           Sample.plainDerived plain_derived).
Defined.

Lemma indexFrom_app_absent (a b : string) (c : ascii) (i : Z) :
  0 <= i -> strings.indexFrom a c i = -1 -> strings.indexFrom b c 0 = -1 ->
  strings.indexFrom (a ++ b) c i = -1.
Proof.
  revert i. induction a as [|x a IH]; intros i Hi Ha Hb.
  - by apply (indexFrom_absent_shift b c 0 i).
  - change (String x a ++ b) with (String x (a ++ b)).
    cbn [strings.indexFrom] in *. destruct (Ascii.eqb x c); [lia|].
    apply IH; [lia|done..].
Qed.

Lemma indexFrom_cons_absent (x c : ascii) (s : string) :
  Ascii.eqb x c = false -> strings.indexFrom s c 0 = -1 ->
  strings.indexFrom (String x s) c 0 = -1.
Proof.
  intros Hx Hs. cbn [strings.indexFrom]. rewrite Hx.
  by apply (indexFrom_absent_shift s c 0 (0 + 1)).
Qed.

Lemma lastIndexFrom_app_colon (name port : string) (i found : Z) :
  0 <= i -> strings.indexFrom port ":" 0 = -1 ->
  strings.lastIndexFrom (name ++ String ":" port) ":" i found = i + GoString.len name.
Proof.
  intros Hi Hport. revert i found Hi.
  induction name as [|x name IH]; intros i found Hi.
  - change ("" ++ String ":" port) with (String ":" port).
    cbn [strings.lastIndexFrom Ascii.eqb Bool.eqb].
    rewrite (lastIndexFrom_absent port ":" (i + 1) i) by
      first [lia | apply (indexFrom_absent_shift port ":" 0 (i + 1)); [lia|lia|done]].
    unfold GoString.len. cbn. lia.
  - change (String x name ++ String ":" port) with (String x (name ++ String ":" port)).
    cbn [strings.lastIndexFrom]. rewrite IH by lia.
    unfold GoString.len. cbn [String.length]. lia.
Qed.

Lemma substring_prefix (a b : string) :
  String.substring 0 (String.length a) (a ++ b) = a.
Proof.
  induction a as [|x a IH]; [by destruct b|].
  change (String x a ++ b) with (String x (a ++ b)). cbn. by rewrite IH.
Qed.

Lemma substring_all (s : string) : String.substring 0 (String.length s) s = s.
Proof. induction s as [|x s IH]; [reflexivity|]. cbn. by rewrite IH. Qed.

Lemma substring_suffix (a b : string) :
  String.substring (String.length a) (String.length b) (a ++ b) = b.
Proof.
  induction a as [|x a IH]; [apply substring_all|].
  change (String x a ++ b) with (String x (a ++ b)). cbn. exact IH.
Qed.

(** [net.SplitHostPort] on a name and a port without [':'], ['['], [']']
    joined by [':']. *)
Lemma SplitHostPort_simple (name port : string) :
  strings.IndexByte name ":" = -1 -> strings.IndexByte name "[" = -1 ->
  strings.IndexByte name "]" = -1 ->
  strings.IndexByte port ":" = -1 -> strings.IndexByte port "[" = -1 ->
  strings.IndexByte port "]" = -1 ->
  net.SplitHostPort (name ++ String ":" port) = (name, port, None).
Proof.
  unfold strings.IndexByte. intros Hn1 Hn2 Hn3 Hp1 Hp2 Hp3.
  set (hostport := name ++ String ":" port).
  assert (Hlen : GoString.len hostport = GoString.len name + 1 + GoString.len port).
  { unfold GoString.len, hostport. rewrite length_append. cbn [String.length]. lia. }
  assert (Hnn : 0 <= GoString.len name) by (unfold GoString.len; lia).
  assert (Hpn : 0 <= GoString.len port) by (unfold GoString.len; lia).
  assert (Hi : strings.lastIndexFrom hostport ":" 0 (-1) = GoString.len name).
  { unfold hostport. rewrite lastIndexFrom_app_colon by (lia || done). lia. }
  unfold net.SplitHostPort, strings.LastIndexByte, strings.IndexByte. fold hostport.
  rewrite !Hi.
  replace (GoString.len name <? 0) with false by (symmetry; apply Z.ltb_ge; lia).
  assert (Hfirst : Ascii.eqb (GoString.byteAt hostport 0) "[" = false).
  { unfold GoString.byteAt, hostport. destruct name as [|x name]; [reflexivity|].
    cbn [strings.indexFrom] in Hn2.
    destruct (Ascii.eqb x "[") eqn:Hx; [lia|].
    change (Ascii.eqb x "[" = false). exact Hx. }
  rewrite Hfirst.
  assert (Hsub0 : GoString.sub hostport 0 (GoString.len name) = name).
  { unfold GoString.sub, GoString.len, hostport.
    replace (Z.to_nat (Z.of_nat (String.length name) - 0)) with (String.length name) by lia.
    apply substring_prefix. }
  rewrite Hsub0, Hn1. cbn [Z.leb Z.compare].
  assert (Hwhole : GoString.sub hostport 0 (GoString.len hostport) = hostport).
  { unfold GoString.sub, GoString.len.
    replace (Z.to_nat (Z.of_nat (String.length hostport) - 0)) with (String.length hostport)
      by lia.
    apply substring_all. }
  rewrite Hwhole. unfold hostport at 1 2.
  rewrite (indexFrom_app_absent name (String ":" port) "[" 0),
          (indexFrom_app_absent name (String ":" port) "]" 0)
    by (lia || done || by apply indexFrom_cons_absent).
  cbn [Z.leb Z.compare].
  assert (Hport : GoString.sub hostport (GoString.len name + 1) (GoString.len hostport)
                  = port).
  { unfold GoString.sub. rewrite Hlen. unfold GoString.len, hostport.
    replace (Z.to_nat (Z.of_nat (String.length name) + 1))
      with (String.length (name ++ ":")) by (rewrite length_append; cbn; lia).
    replace (Z.to_nat (Z.of_nat (String.length name) + 1 + Z.of_nat (String.length port)
                       - (Z.of_nat (String.length name) + 1)))
      with (String.length port) by lia.
    replace (name ++ String ":" port) with ((name ++ ":") ++ port).
    - apply substring_suffix.
    - clear. induction name as [|x name IH]; [reflexivity|].
      change ((String x name ++ ":") ++ port) with (String x ((name ++ ":") ++ port)).
      change (String x name ++ String ":" port) with (String x (name ++ String ":" port)).
      by rewrite IH. }
  by rewrite Hport.
Qed.

(** X15: for a host string made of a name, a [':'] and a port, neither of
    which holds [':'], ['['] or [']'], the server name is the name and the
    server port is the port, or the default ["443"] or ["80"] when the port
    is empty. *)
Theorem server_name_port_of_simple_host
    (req : http.Request) (name port : string) :
  http.Host req = name ++ String ":" port ->
  strings.IndexByte name ":" = -1 -> strings.IndexByte name "[" = -1 ->
  strings.IndexByte name "]" = -1 ->
  strings.IndexByte port ":" = -1 -> strings.IndexByte port "[" = -1 ->
  strings.IndexByte port "]" = -1 ->
  serverNamePort req
    = (name, if String.eqb port "" then (if http.TLS req then "443" else "80") else port).
Proof.
  intros Hhost Hn1 Hn2 Hn3 Hp1 Hp2 Hp3. unfold serverNamePort.
  by rewrite Hhost, SplitHostPort_simple.
Qed.

Lemma server_name_port_of_simple_host_witness :
  http.Host Sample.withPort = "example.com" ++ String ":" "8080" /\
  serverNamePort Sample.withPort = ("example.com", "8080").
Proof.
  split; [reflexivity|].
  apply (server_name_port_of_simple_host Sample.withPort "example.com" "8080");
    reflexivity.
Defined.

(** * The block as it is read *)

Lemma NoDup_fst_agree {A B : Type} (l : list (A * B)) (k : A) (v1 v2 : B) :
  NoDup l.*1 -> (k, v1) ∈ l -> (k, v2) ∈ l -> v1 = v2.
Proof.
  induction l as [|[k' v'] l IH]; intros Hnd H1 H2; [by apply elem_of_nil in H1|].
  cbn [fmap list_fmap fst] in Hnd. apply NoDup_cons in Hnd as [Hnotin Hnd].
  apply elem_of_cons in H1 as [H1|H1]; apply elem_of_cons in H2 as [H2|H2].
  - congruence.
  - injection H1 as -> ->. destruct Hnotin.
    by apply (list_elem_of_fmap_2 fst l (k', v2)).
  - injection H2 as -> ->. destruct Hnotin.
    by apply (list_elem_of_fmap_2 fst l (k', v1)).
  - by apply IH.
Qed.

(** When the strings of the pairs the encoder wrote fit the prefix, these
    pairs are a reading of its block, and the only one. *)
Lemma block_reading (unicodeToUpper : string -> string) (rt : MapRange)
    (req : http.Request) (t : Transport) (block : list byte) (err : option error)
    (entries : list (string * string)) :
  generateBlockVars unicodeToUpper rt req t = Returns (block, err) ->
  blockEntries unicodeToUpper rt req t = Returns entries ->
  Forall fitsUint16 entries ->
  exists dv : gmap string string,
    derivedVars unicodeToUpper rt req = Returns dv /\
    entries = range rt (UWSGIParams t ∪ dv) /\
    readsAs block entries /\
    forall read, readsAs block read -> read = entries.
Proof.
  intros Hgen Hent Hfit.
  destruct (generateBlockVars_Returns _ _ _ _ _ _ Hgen) as (dv & Hdv & _ & Hent' & Hb & _).
  rewrite Hent in Hent'. injection Hent' as Heq. rewrite <- Heq in Hb.
  exists dv. split; [done|]. split; [done|]. split; [by split|].
  intros read [Hr Hw]. apply writeVars_inj; congruence.
Qed.

(** What every reading of such a block holds: one pair for each name of
    the variables, the static parameters laid over the derived ones. *)
Lemma reading_lookup (unicodeToUpper : string -> string) (rt : MapRange)
    (req : http.Request) (t : Transport) (block : list byte) (err : option error)
    (entries : list (string * string)) :
  generateBlockVars unicodeToUpper rt req t = Returns (block, err) ->
  blockEntries unicodeToUpper rt req t = Returns entries ->
  Forall fitsUint16 entries ->
  exists dv : gmap string string,
    derivedVars unicodeToUpper rt req = Returns dv /\
    readsAs block entries /\
    forall read, readsAs block read ->
      NoDup read.*1 /\
      forall k v, (k, v) ∈ read <-> (UWSGIParams t ∪ dv) !! k = Some v.
Proof.
  intros Hgen Hent Hfit.
  destruct (block_reading _ _ _ _ _ _ _ Hgen Hent Hfit) as (dv & Hdv & -> & Hre & Huniq).
  exists dv. split; [done|]. split; [done|].
  intros read Hread. rewrite (Huniq read Hread). split.
  - apply range_NoDup.
  - intros k v. apply range_lookup.
Qed.

(** ** One entry for each name *)

(** A value that ends with the bytes of pairs taking a multiple of 65536
    bytes is written as the value without them, followed by these pairs. *)
Lemma writeVars_wraps (pre : list (string * string)) (k v : string)
    (inj rest : list (string * string)) :
  blockSize inj mod 65536 = 0 ->
  writeVars (pre ++ (k, v ++ string_of_list_byte (writeVars inj)) :: rest)
    = writeVars (pre ++ (k, v) :: inj ++ rest).
Proof.
  intros Hinj.
  change ((k, v) :: inj ++ rest)%list with ([(k, v)] ++ inj ++ rest)%list.
  rewrite !writeVars_app, !writeVars_cons.
  change (writeVars []) with (@nil byte). rewrite app_nil_r.
  rewrite <- !app_assoc. do 2 f_equal.
  unfold writeBlockVar. rewrite bytes_app, bytes_of_list.
  cbn [app]. rewrite <- !app_assoc. cbn [app].
  replace (binary.uint16 (GoSlice.len (GoString.bytes v ++ writeVars inj)))
    with (binary.uint16 (GoSlice.len (GoString.bytes v))); [reflexivity|].
  unfold binary.uint16, GoSlice.len at 2. rewrite length_app, Nat2Z.inj_add.
  change (Z.of_nat (List.length (writeVars inj))) with (GoSlice.len (writeVars inj)).
  change (Z.of_nat (List.length (GoString.bytes v))) with (GoSlice.len (GoString.bytes v)).
  rewrite writeVars_len, Z.add_mod, Hinj, Z.add_0_r, Z.mod_mod by lia. reflexivity.
Qed.

Lemma forged_derived (p : string) :
  derivedVars Sample.noUnicode canonicalRange (Forged.req p) = Returns (Forged.derived p).
Proof.
  unfold derivedVars, Forged.derived.
  replace (serverNamePort (Forged.req p)) with ("svc.local", "80")
    by (vm_compute; reflexivity).
  replace (remoteAddrPort (Forged.req p)) with (Returns ("192.0.2.7", "4000"))
    by (vm_compute; reflexivity).
  reflexivity.
Qed.

Lemma forged_entries (p : string) :
  range canonicalRange (UWSGIParams Forged.params ∪ Forged.derived p) = Forged.entries p.
Proof. vm_compute; reflexivity. Qed.

Lemma forged_generated (p : string) :
  generateBlockVars Sample.noUnicode canonicalRange (Forged.req p) Forged.params
    = Returns (writeVars (Forged.entries p), None).
Proof.
  rewrite (generateBlockVars_derived Sample.noUnicode canonicalRange (Forged.req p)
             Forged.params (Forged.derived p) (forged_derived p)).
  by rewrite forged_entries.
Qed.

Lemma forged_wire_fits : Forall fitsUint16 Forged.wire.
Proof.
  unfold Forged.wire. apply Forall_app_2.
  - unfold Forged.entries. repeat constructor.
  - unfold Forged.injected. apply Forall_cons_2; [|apply Forall_nil_2].
    split; [reflexivity|]. cbn [snd]. rewrite Repeat_len by lia. reflexivity.
Qed.

Lemma forged_wire_written : writeVars Forged.wire = Forged.block.
Proof.
  unfold Forged.block, Forged.wire, Forged.path.
  change (Forged.entries ("/" ++ string_of_list_byte (writeVars Forged.injected)))
    with (app (removelast (Forged.entries "/"))
              [("PATH_INFO", "/" ++ string_of_list_byte (writeVars Forged.injected))]).
  rewrite writeVars_wraps by (by rewrite forged_size).
  rewrite app_nil_r. f_equal.
Qed.

(** C1, as the claim has it, fails for the block as it is serialized.  The
    request has the path ["/"] followed by 65536 bytes, those of a pair
    [REMOTE_ADDR]; the static parameter [REMOTE_ADDR] is ["10.0.0.1"].  The
    length of the path wraps to 1, so the block the encoder returns reads, in
    the one way in which every string fits its prefix, as the path ["/"]
    followed by that pair: the name [REMOTE_ADDR] has two entries, and the
    second one does not carry the static value. *)
Lemma oversized_path_repeats_static_name :
  UWSGIParams Forged.params !! "REMOTE_ADDR" = Some "10.0.0.1" /\
  generateBlockVars Sample.noUnicode canonicalRange (Forged.req Forged.path) Forged.params
    = Returns (Forged.block, None) /\
  readsAs Forged.block Forged.wire /\
  (forall read, readsAs Forged.block read -> read = Forged.wire) /\
  ("REMOTE_ADDR", "10.0.0.1") ∈ Forged.wire /\
  ("REMOTE_ADDR", strings.Repeat "a" 65521) ∈ Forged.wire /\
  ~ NoDup Forged.wire.*1.
Proof.
  assert (H1 : ("REMOTE_ADDR", "10.0.0.1") ∈ Forged.wire).
  { unfold Forged.wire. apply elem_of_app. left.
    apply (bool_decide_unpack _). vm_compute. exact I. }
  assert (H2 : ("REMOTE_ADDR", strings.Repeat "a" 65521) ∈ Forged.wire).
  { unfold Forged.wire, Forged.injected. apply elem_of_app. right. by left. }
  split; [vm_compute; reflexivity|].
  split; [exact (forged_generated Forged.path)|].
  split; [split; [exact forged_wire_fits|exact forged_wire_written]|].
  split.
  { intros read [Hr Hw]. apply writeVars_inj; [done|exact forged_wire_fits|].
    by rewrite forged_wire_written. }
  split; [exact H1|]. split; [exact H2|].
  intros Hnd. pose proof (NoDup_fst_agree _ _ _ _ Hnd H1 H2) as Heq.
  apply (f_equal GoString.len) in Heq. rewrite Repeat_len in Heq by lia.
  discriminate Heq.
Qed.

(** C1, amended: whenever the encoder produces a block for which every
    name and value it writes is shorter than 65536 bytes, the block reads as
    the pairs it wrote, and every reading of the block has no two pairs of
    the same name, has every static parameter with its static value and
    with no other value, whatever the request derives for that name, and
    gives the names without a static parameter their derived values.  This
    holds for every order [rt] of the three [range] loops. *)
Theorem block_one_entry_per_name_static_wins
    (unicodeToUpper : string -> string) (rt : MapRange)
    (req : http.Request) (t : Transport) (block : list byte) (err : option error)
    (entries : list (string * string)) :
  generateBlockVars unicodeToUpper rt req t = Returns (block, err) ->
  blockEntries unicodeToUpper rt req t = Returns entries ->
  Forall fitsUint16 entries ->
  exists dv : gmap string string,
    derivedVars unicodeToUpper rt req = Returns dv /\
    readsAs block entries /\
    forall read, readsAs block read ->
      NoDup read.*1 /\
      (forall k v, UWSGIParams t !! k = Some v ->
         (k, v) ∈ read /\ forall v', (k, v') ∈ read -> v' = v) /\
      (forall k v, UWSGIParams t !! k = None ->
         ((k, v) ∈ read <-> dv !! k = Some v)).
Proof.
  intros Hgen Hent Hfit.
  destruct (reading_lookup _ _ _ _ _ _ _ Hgen Hent Hfit) as (dv & Hdv & Hre & Hread).
  exists dv. split; [done|]. split; [done|].
  intros read Hr. destruct (Hread read Hr) as [Hnd Hlk]. split; [done|]. split.
  - intros k v Hs. split.
    + apply Hlk. by apply lookup_union_Some_l.
    + intros v' Hv'. apply Hlk in Hv'.
      rewrite (lookup_union_Some_l _ dv k v) in Hv' by done. congruence.
  - intros k v Hn. rewrite Hlk. by rewrite lookup_union_r.
Qed.

Lemma block_one_entry_per_name_static_wins_witness :
  generateBlockVars Sample.noUnicode canonicalRange Sample.plain Sample.params
    = Returns (Sample.plainBlock, None) /\
  blockEntries Sample.noUnicode canonicalRange Sample.plain Sample.params
    = Returns Sample.plainEntries /\
  Forall fitsUint16 Sample.plainEntries /\
  exists dv : gmap string string,
    derivedVars Sample.noUnicode canonicalRange Sample.plain = Returns dv /\
    readsAs Sample.plainBlock Sample.plainEntries /\
    forall read, readsAs Sample.plainBlock read ->
      NoDup read.*1 /\
      (forall k v, UWSGIParams Sample.params !! k = Some v ->
         (k, v) ∈ read /\ forall v', (k, v') ∈ read -> v' = v) /\
      (forall k v, UWSGIParams Sample.params !! k = None ->
         ((k, v) ∈ read <-> dv !! k = Some v)).
Proof.
  assert (H : Forall fitsUint16 Sample.plainEntries).
  { unfold Sample.plainEntries. repeat constructor. }
  split; [vm_compute; reflexivity|]. split; [vm_compute; reflexivity|].
  split; [exact H|].
  apply (block_one_entry_per_name_static_wins Sample.noUnicode canonicalRange
           Sample.plain Sample.params Sample.plainBlock None Sample.plainEntries);
    [vm_compute; reflexivity|vm_compute; reflexivity|exact H].
Defined.

(** ** The request headers in the block *)

(** C6, amended: for every request header [(name, values)] whose variable
    name, the header name in upper case with every ['-'] replaced by ['_']
    after the prefix [HTTP_], is the variable name of no other header of
    the request and of no static parameter, and whenever every name and
    value the encoder writes is shorter than 65536 bytes, the block reads
    as the pairs written, and every reading of the block has a pair of that
    name whose value is the values joined with [", "], and no pair of that
    name with another value. *)
Theorem header_is_sent_as_http_variable
    (unicodeToUpper : string -> string) (rt : MapRange)
    (req : http.Request) (t : Transport) (block : list byte) (err : option error)
    (entries : list (string * string)) (name : string) (values : list string) :
  generateBlockVars unicodeToUpper rt req t = Returns (block, err) ->
  blockEntries unicodeToUpper rt req t = Returns entries ->
  Forall fitsUint16 entries ->
  http.Header req !! name = Some values ->
  (forall name' values', http.Header req !! name' = Some values' ->
     headerVarName unicodeToUpper name' = headerVarName unicodeToUpper name ->
     name' = name) ->
  UWSGIParams t !! headerVarName unicodeToUpper name = None ->
  readsAs block entries /\
  forall read, readsAs block read ->
    ("HTTP_" ++ strings.byteReplace "-" "_" (strings.ToUpper unicodeToUpper name),
     strings.Join values ", ") ∈ read /\
    forall v',
      ("HTTP_" ++ strings.byteReplace "-" "_" (strings.ToUpper unicodeToUpper name), v')
        ∈ read ->
      v' = strings.Join values ", ".
Proof.
  intros Hgen Hent Hfit Hname Huniq Hstatic.
  destruct (reading_lookup _ _ _ _ _ _ _ Hgen Hent Hfit) as (dv & Hdv & Hre & Hread).
  split; [done|]. intros read Hr. destruct (Hread read Hr) as [_ Hlk].
  assert (Hv : (UWSGIParams t ∪ dv) !! headerVarName unicodeToUpper name
               = Some (strings.Join values ", ")).
  { rewrite lookup_union_r by done.
    destruct (derivedVars_Returns _ _ _ _ Hdv) as (ra & rp & _ & ->).
    apply (addHeaders_lookup_unique unicodeToUpper).
    - by apply range_lookup.
    - intros name' values' Hin Heq. apply range_lookup in Hin.
      rewrite (Huniq name' values' Hin Heq) in Hin. congruence. }
  split.
  - by apply Hlk.
  - intros v' Hv'. apply Hlk in Hv'.
    change ("HTTP_" ++ strings.byteReplace "-" "_" (strings.ToUpper unicodeToUpper name))
      with (headerVarName unicodeToUpper name) in Hv'.
    congruence.
Qed.

Lemma header_is_sent_as_http_variable_witness :
  generateBlockVars Sample.noUnicode canonicalRange Sample.plain Sample.params
    = Returns (Sample.plainBlock, None) /\
  blockEntries Sample.noUnicode canonicalRange Sample.plain Sample.params
    = Returns Sample.plainEntries /\
  Forall fitsUint16 Sample.plainEntries /\
  http.Header Sample.plain !! "Accept" = Some ["text/html"; "application/json"] /\
  (forall name' values', http.Header Sample.plain !! name' = Some values' ->
     headerVarName Sample.noUnicode name' = headerVarName Sample.noUnicode "Accept" ->
     name' = "Accept") /\
  UWSGIParams Sample.params !! "HTTP_ACCEPT" = None /\
  readsAs Sample.plainBlock Sample.plainEntries /\
  forall read, readsAs Sample.plainBlock read ->
    ("HTTP_ACCEPT", "text/html, application/json") ∈ read /\
    forall v', ("HTTP_ACCEPT", v') ∈ read -> v' = "text/html, application/json".
Proof.
  assert (H : Forall fitsUint16 Sample.plainEntries).
  { unfold Sample.plainEntries. repeat constructor. }
  assert (Hu : forall name' values', http.Header Sample.plain !! name' = Some values' ->
     headerVarName Sample.noUnicode name' = headerVarName Sample.noUnicode "Accept" ->
     name' = "Accept").
  { intros name' values' Hin Heq.
    assert (Hk : (name', values') ∈ map_to_list (http.Header Sample.plain))
      by (by apply elem_of_map_to_list).
    vm_compute in Hk. apply list_elem_of_In in Hk.
    destruct Hk as [Hk|[Hk|[]]]; injection Hk as <- <-;
      first [reflexivity | vm_compute in Heq; discriminate Heq]. }
  split; [vm_compute; reflexivity|]. split; [vm_compute; reflexivity|].
  split; [exact H|]. split; [vm_compute; reflexivity|]. split; [exact Hu|].
  split; [vm_compute; reflexivity|].
  apply (header_is_sent_as_http_variable Sample.noUnicode canonicalRange
           Sample.plain Sample.params Sample.plainBlock None Sample.plainEntries
           "Accept" ["text/html"; "application/json"]);
    [vm_compute; reflexivity|vm_compute; reflexivity|exact H|vm_compute; reflexivity
    |exact Hu|vm_compute; reflexivity].
Defined.

(** ** The peer address in the block *)

(** X6: for a peer address with at least one byte before its last [':']
    and no static parameter named [REMOTE_ADDR] or [REMOTE_PORT], the
    encoder returns a block, and when every name and value it wrote is
    shorter than 65536 bytes every reading of this block has the pair
    [REMOTE_ADDR], the part before the last [':'] without its brackets when
    it starts with ['['] and ends with [']'], and the pair [REMOTE_PORT], the
    part after the last [':'], and no other value under these two names. *)
Theorem peer_address_in_block
    (unicodeToUpper : string -> string) (rt : MapRange)
    (req : http.Request) (t : Transport) (c : ascii) (rest port : string) :
  http.RemoteAddr req = String c rest ++ String ":" port ->
  strings.IndexByte port ":" = -1 ->
  UWSGIParams t !! "REMOTE_ADDR" = None ->
  UWSGIParams t !! "REMOTE_PORT" = None ->
  exists (block : list byte) (entries : list (string * string)),
    generateBlockVars unicodeToUpper rt req t = Returns (block, None) /\
    blockEntries unicodeToUpper rt req t = Returns entries /\
    (Forall fitsUint16 entries ->
     readsAs block entries /\
     forall read, readsAs block read ->
       forall k v,
         (k = "REMOTE_ADDR" /\
          v = (if Ascii.eqb c "[" &&
                  Ascii.eqb (GoString.byteAt (String c rest)
                               (GoString.len (String c rest) - 1)) "]"
               then GoString.sub (String c rest) 1 (GoString.len (String c rest) - 1)
               else String c rest)) \/
         (k = "REMOTE_PORT" /\ v = port) ->
         (k, v) ∈ read /\ forall v', (k, v') ∈ read -> v' = v).
Proof.
  intros Haddr Hport Hsa Hsp.
  destruct (peer_with_host_is_split unicodeToUpper rt req c rest port Haddr Hport)
    as (dv & Hdv & Hra & Hrp).
  pose proof (generateBlockVars_derived unicodeToUpper rt req t dv Hdv) as Hgen.
  destruct (generateBlockVars_Returns _ _ _ _ _ _ Hgen) as (dv' & Hdv' & _ & Hent & _).
  eexists _, _. split; [exact Hgen|]. split; [exact Hent|]. intros Hfit.
  destruct (reading_lookup _ _ _ _ _ _ _ Hgen Hent Hfit) as (dv'' & Hdv'' & Hre & Hread).
  assert (dv' = dv) by congruence. assert (dv'' = dv) by congruence. subst dv' dv''.
  split; [done|]. intros read Hr k v Hkv. destruct (Hread read Hr) as [_ Hlk].
  assert (Hv : (UWSGIParams t ∪ dv) !! k = Some v).
  { destruct Hkv as [[-> ->]|[-> ->]]; by rewrite lookup_union_r. }
  split; [by apply Hlk|]. intros v' Hv'. apply Hlk in Hv'. congruence.
Qed.

Lemma peer_address_in_block_witness :
  http.RemoteAddr Sample.plain = String "[" "::1]" ++ String ":" "54321" /\
  strings.IndexByte "54321" ":" = -1 /\
  UWSGIParams Sample.params !! "REMOTE_ADDR" = None /\
  UWSGIParams Sample.params !! "REMOTE_PORT" = None /\
  exists (block : list byte) (entries : list (string * string)),
    generateBlockVars Sample.noUnicode canonicalRange Sample.plain Sample.params
      = Returns (block, None) /\
    blockEntries Sample.noUnicode canonicalRange Sample.plain Sample.params
      = Returns entries /\
    (Forall fitsUint16 entries ->
     readsAs block entries /\
     forall read, readsAs block read ->
       forall k v,
         (k = "REMOTE_ADDR" /\ v = "::1") \/ (k = "REMOTE_PORT" /\ v = "54321") ->
         (k, v) ∈ read /\ forall v', (k, v') ∈ read -> v' = v).
Proof.
  split; [reflexivity|]. split; [reflexivity|].
  split; [vm_compute; reflexivity|]. split; [vm_compute; reflexivity|].
  apply (peer_address_in_block Sample.noUnicode canonicalRange Sample.plain Sample.params
           "[" "::1]" "54321"); [reflexivity|reflexivity|vm_compute; reflexivity..].
Defined.

(** * The Caddyfile directive *)

Section DispenserLemmas.

Variable Token : Type.
Variable Text : Token -> string.
Variable isNextOnNewLine : Token -> Token -> bool.

Local Abbreviation Dispenser := (caddyfile.Dispenser Token).
Local Abbreviation Val := (caddyfile.Val Token Text).
Local Abbreviation Next := (caddyfile.Next Token).
Local Abbreviation nextOnSameLine := (caddyfile.nextOnSameLine Token isNextOnNewLine).
Local Abbreviation NextArg := (caddyfile.NextArg Token Text isNextOnNewLine).
Local Abbreviation NextBlock := (caddyfile.NextBlock Token Text isNextOnNewLine).
Local Abbreviation subdirective := (caddyfile.subdirective Token Text isNextOnNewLine).
Local Abbreviation block := (caddyfile.block Token Text isNextOnNewLine).
Local Abbreviation directives := (caddyfile.directives Token Text isNextOnNewLine).
Local Abbreviation at_ := (dispenserAt Token).

Lemma nth_error_middle (pre : list Token) (cur : Token) (post : list Token) :
  nth_error (pre ++ cur :: post) (List.length pre) = Some cur.
Proof. by rewrite nth_error_app2, Nat.sub_diag by lia. Qed.

Lemma len_middle (pre : list Token) (cur : Token) (post : list Token) :
  GoSlice.len (pre ++ cur :: post)
  = Z.of_nat (List.length pre) + 1 + Z.of_nat (List.length post).
Proof. unfold GoSlice.len. rewrite length_app. cbn [List.length]. lia. Qed.

(** Moving one token to the right. *)
Lemma at_step (pre : list Token) (cur nxt : Token) (post : list Token) (n : Z) :
  caddyfile.mkDispenser Token (pre ++ cur :: nxt :: post)
    (Z.of_nat (List.length pre) + 1) n
  = at_ (pre ++ [cur]) nxt post n.
Proof.
  unfold dispenserAt. rewrite <- app_assoc, length_app. cbn [List.length app].
  f_equal. lia.
Qed.

Lemma Val_at (pre : list Token) (cur : Token) (post : list Token) (n : Z) :
  Val (at_ pre cur post n) = Text cur.
Proof.
  unfold caddyfile.Val, dispenserAt; cbn [caddyfile.cursor caddyfile.tokens].
  rewrite len_middle, Nat2Z.id, nth_error_middle.
  replace ((Z.of_nat (List.length pre) <? 0)
           || (Z.of_nat (List.length pre) + 1 + Z.of_nat (List.length post)
               <=? Z.of_nat (List.length pre)))
    with false; [reflexivity|].
  symmetry. apply orb_false_iff. split; [apply Z.ltb_ge|apply Z.leb_gt]; lia.
Qed.

Lemma Next_at (pre : list Token) (cur nxt : Token) (post : list Token) (n : Z) :
  Next (at_ pre cur (nxt :: post) n) = (true, at_ (pre ++ [cur]) nxt post n).
Proof.
  unfold caddyfile.Next, caddyfile.moveTo, dispenserAt;
    cbn [caddyfile.cursor caddyfile.tokens caddyfile.nesting].
  rewrite len_middle. cbn [List.length].
  replace (Z.of_nat (List.length pre)
           <? Z.of_nat (List.length pre) + 1 + Z.of_nat (S (List.length post)) - 1)
    with true by (symmetry; apply Z.ltb_lt; lia).
  by rewrite at_step.
Qed.

Lemma Next_at_end (pre : list Token) (cur : Token) (n : Z) :
  Next (at_ pre cur [] n) = (false, at_ pre cur [] n).
Proof.
  unfold caddyfile.Next, dispenserAt; cbn [caddyfile.cursor caddyfile.tokens].
  rewrite len_middle. cbn [List.length].
  by replace (Z.of_nat (List.length pre) <? Z.of_nat (List.length pre) + 1 + Z.of_nat 0 - 1)
    with false by (symmetry; apply Z.ltb_ge; lia).
Qed.

Lemma nextOnSameLine_at (pre : list Token) (cur nxt : Token) (post : list Token) (n : Z) :
  nextOnSameLine (at_ pre cur (nxt :: post) n)
  = if isNextOnNewLine cur nxt then (false, at_ pre cur (nxt :: post) n)
    else (true, at_ (pre ++ [cur]) nxt post n).
Proof.
  unfold caddyfile.nextOnSameLine, caddyfile.moveTo, dispenserAt;
    cbn [caddyfile.cursor caddyfile.tokens caddyfile.nesting].
  rewrite len_middle. cbn [List.length].
  replace (Z.of_nat (List.length pre) <? 0) with false by (symmetry; apply Z.ltb_ge; lia).
  replace (Z.of_nat (List.length pre) + 1 + Z.of_nat (S (List.length post)) - 1
           <=? Z.of_nat (List.length pre))
    with false by (symmetry; apply Z.leb_gt; lia).
  rewrite Nat2Z.id, nth_error_middle.
  replace (Z.to_nat (Z.of_nat (List.length pre) + 1)) with (S (List.length pre)) by lia.
  replace (nth_error (pre ++ cur :: nxt :: post) (S (List.length pre))) with (Some nxt).
  - destruct (isNextOnNewLine cur nxt); cbn [negb]; [reflexivity|]. by rewrite at_step.
  - rewrite nth_error_app2 by lia.
    by replace (S (List.length pre) - List.length pre)%nat with 1%nat by lia.
Qed.

Lemma nextOnSameLine_at_end (pre : list Token) (cur : Token) (n : Z) :
  nextOnSameLine (at_ pre cur [] n) = (false, at_ pre cur [] n).
Proof.
  unfold caddyfile.nextOnSameLine, dispenserAt; cbn [caddyfile.cursor caddyfile.tokens].
  rewrite len_middle. cbn [List.length].
  replace (Z.of_nat (List.length pre) <? 0) with false by (symmetry; apply Z.ltb_ge; lia).
  by replace (Z.of_nat (List.length pre) + 1 + Z.of_nat 0 - 1 <=? Z.of_nat (List.length pre))
    with true by (symmetry; apply Z.leb_le; lia).
Qed.

(** An argument on the line of the current token is loaded. *)
Lemma NextArg_at (pre : list Token) (cur nxt : Token) (post : list Token) (n : Z) :
  isNextOnNewLine cur nxt = false -> Text nxt <> "{" ->
  NextArg (at_ pre cur (nxt :: post) n) = (true, at_ (pre ++ [cur]) nxt post n).
Proof.
  intros Hline Hbrace. unfold caddyfile.NextArg.
  rewrite nextOnSameLine_at, Hline. cbn [negb]. rewrite Val_at.
  by apply String.eqb_neq in Hbrace as ->.
Qed.

(** One well-formed directive: its pair is assigned and the dispenser is
    at its value. *)
Lemma subdirective_wellFormed (pre : list Token) (kw k v : Token) (post : list Token)
    (n : Z) (m : gmap string string) :
  wellFormed Token Text isNextOnNewLine (kw, k, v) ->
  subdirective (at_ pre kw (k :: v :: post) n) (Some m)
  = (None, at_ ((pre ++ [kw]) ++ [k]) v post n, Some (<[Text k := Text v]> m)).
Proof.
  intros (Hkw & Hk & Hv & Hkb & Hvb). unfold caddyfile.subdirective.
  rewrite Val_at, Hkw. cbn [String.eqb Ascii.eqb Bool.eqb andb].
  rewrite NextArg_at by done. cbn [negb]. rewrite Val_at.
  rewrite NextArg_at by done. cbn [negb]. by rewrite Val_at.
Qed.

Local Abbreviation wf := (wellFormed Token Text isNextOnNewLine).
Local Abbreviation dTokens := (directivesTokens Token).
Local Abbreviation dPairs := (directivesPairs Token Text).
Local Abbreviation after := (afterDirectives Token).

Lemma subdirective_nil (pre : list Token) (kw k v : Token) (post : list Token) (n : Z) :
  wf (kw, k, v) ->
  subdirective (at_ pre kw (k :: v :: post) n) None
  = (Some caddyfile.PanicNilMap, at_ ((pre ++ [kw]) ++ [k]) v post n, None).
Proof.
  intros (Hkw & Hk & Hv & Hkb & Hvb). unfold caddyfile.subdirective.
  rewrite Val_at, Hkw. cbn [String.eqb Ascii.eqb Bool.eqb andb].
  rewrite NextArg_at by done. cbn [negb].
  by rewrite NextArg_at by done.
Qed.

(** A token that is not the keyword ends the call. *)
Lemma subdirective_unknown (pre : list Token) (bad : Token) (post : list Token)
    (n : Z) (t : caddyfile.params) :
  Text bad <> "uwsgi_param" ->
  subdirective (at_ pre bad post n) t
  = (Some (caddyfile.Returned (Some (caddyfile.UnknownSubdirective (Text bad)))),
     at_ pre bad post n, t).
Proof.
  intros Hbad. unfold caddyfile.subdirective. rewrite Val_at.
  by apply String.eqb_neq in Hbad as ->.
Qed.

(** The keyword and a key with nothing more on their line. *)
Lemma subdirective_no_value (pre : list Token) (kw k nxt : Token) (post : list Token)
    (n : Z) (t : caddyfile.params) :
  Text kw = "uwsgi_param" -> isNextOnNewLine kw k = false -> Text k <> "{" ->
  isNextOnNewLine k nxt = true ->
  subdirective (at_ pre kw (k :: nxt :: post) n) t
  = (Some (caddyfile.Returned (Some (caddyfile.ArgErr (Text k)))),
     at_ (pre ++ [kw]) k (nxt :: post) n, t).
Proof.
  intros Hkw Hk Hkb Hnl. unfold caddyfile.subdirective.
  rewrite Val_at, Hkw. cbn [String.eqb Ascii.eqb Bool.eqb andb].
  rewrite NextArg_at by done. cbn [negb].
  unfold caddyfile.NextArg at 1. rewrite nextOnSameLine_at, Hnl. cbn [negb].
  by rewrite Val_at.
Qed.

Lemma Next_New (t : Token) (ts : list Token) :
  Next (caddyfile.NewDispenser Token (t :: ts)) = (true, at_ [] t ts 0).
Proof.
  unfold caddyfile.Next, caddyfile.NewDispenser, caddyfile.moveTo, dispenserAt, GoSlice.len;
    cbn [caddyfile.cursor caddyfile.tokens caddyfile.nesting List.length app].
  by replace (-1 <? Z.of_nat (S (List.length ts)) - 1) with true
    by (symmetry; apply Z.ltb_lt; lia).
Qed.

(** The condition of the inner loop, in a block: the next token is loaded. *)
Lemma NextBlock_inside (pre : list Token) (cur nxt : Token) (post : list Token) (n0 : Z) :
  Text nxt <> "}" -> Text nxt <> "{" ->
  NextBlock n0 (at_ pre cur (nxt :: post) (n0 + 1))
  = (true, at_ (pre ++ [cur]) nxt post (n0 + 1)).
Proof.
  intros Hc Ho. apply String.eqb_neq in Hc, Ho. unfold caddyfile.NextBlock.
  change (caddyfile.nesting Token (at_ pre cur (nxt :: post) (n0 + 1))) with (n0 + 1).
  replace (n0 <? n0 + 1) with true by (symmetry; apply Z.ltb_lt; lia).
  rewrite Next_at. cbn [negb]. unfold caddyfile.isAloneOnLine.
  rewrite Val_at, Hc. cbv beta iota zeta. rewrite Val_at, Ho. cbv beta iota zeta.
  change (caddyfile.nesting Token (at_ (pre ++ [cur]) nxt post (n0 + 1))) with (n0 + 1).
  by replace (n0 <? n0 + 1) with true by (symmetry; apply Z.ltb_lt; lia).
Qed.

(** The closing brace at the end of the tokens leaves the block. *)
Lemma NextBlock_close (pre : list Token) (cur close : Token) (n0 : Z) :
  Text close = "}" ->
  NextBlock n0 (at_ pre cur [close] (n0 + 1)) = (false, at_ (pre ++ [cur]) close [] n0).
Proof.
  intros Hc. unfold caddyfile.NextBlock.
  change (caddyfile.nesting Token (at_ pre cur [close] (n0 + 1))) with (n0 + 1).
  replace (n0 <? n0 + 1) with true by (symmetry; apply Z.ltb_lt; lia).
  rewrite Next_at. cbn [negb]. unfold caddyfile.isAloneOnLine.
  rewrite Val_at, Hc. cbn [String.eqb Ascii.eqb Bool.eqb andb].
  rewrite nextOnSameLine_at_end. cbn [negb].
  unfold caddyfile.nest, dispenserAt;
    cbn [caddyfile.cursor caddyfile.tokens caddyfile.nesting].
  replace (n0 + 1 - 1) with n0 by lia.
  by rewrite Z.ltb_irrefl.
Qed.

(** The opening brace on the line of the current token opens the block. *)
Lemma NextBlock_open (pre : list Token) (name open nxt : Token) (post : list Token) (n0 : Z) :
  Text open = "{" -> isNextOnNewLine name open = false -> Text nxt <> "}" ->
  NextBlock n0 (at_ pre name (open :: nxt :: post) n0)
  = (true, at_ ((pre ++ [name]) ++ [open]) nxt post (n0 + 1)).
Proof.
  intros Ho Hl Hn. apply String.eqb_neq in Hn. unfold caddyfile.NextBlock.
  change (caddyfile.nesting Token (at_ pre name (open :: nxt :: post) n0)) with n0.
  rewrite Z.ltb_irrefl, nextOnSameLine_at, Hl. cbn [negb].
  rewrite Val_at, Ho. cbn [String.eqb Ascii.eqb Bool.eqb andb negb].
  rewrite Next_at. cbn [snd]. by rewrite Val_at, Hn.
Qed.

(** A block that is closed at once. *)
Lemma NextBlock_open_close (pre : list Token) (name open close : Token)
    (post : list Token) (n0 : Z) :
  Text open = "{" -> isNextOnNewLine name open = false -> Text close = "}" ->
  NextBlock n0 (at_ pre name (open :: close :: post) n0)
  = (false, at_ ((pre ++ [name]) ++ [open]) close post n0).
Proof.
  intros Ho Hl Hc. unfold caddyfile.NextBlock.
  change (caddyfile.nesting Token (at_ pre name (open :: close :: post) n0)) with n0.
  rewrite Z.ltb_irrefl, nextOnSameLine_at, Hl. cbn [negb].
  rewrite Val_at, Ho. cbn [String.eqb Ascii.eqb Bool.eqb andb negb].
  rewrite Next_at. cbn [snd]. by rewrite Val_at, Hc.
Qed.

Lemma directivesTokens_cons (kw k v : Token) (ds : list (Token * Token * Token)) :
  dTokens ((kw, k, v) :: ds) = kw :: k :: v :: dTokens ds.
Proof. reflexivity. Qed.

Lemma length_directivesTokens (ds : list (Token * Token * Token)) :
  List.length (dTokens ds) = (3 * List.length ds)%nat.
Proof.
  induction ds as [|[[kw k] v] ds IH]; [done|].
  rewrite directivesTokens_cons. cbn [List.length]. lia.
Qed.

Lemma afterDirectives_tokens (ds : list (Token * Token * Token)) (pre : list Token) (cur : Token) :
  ((after pre cur ds).1 ++ [(after pre cur ds).2] = pre ++ cur :: dTokens ds)%list.
Proof.
  revert pre cur. induction ds as [|[[kw k] v] ds IH]; intros pre cur; [done|].
  cbn [afterDirectives]. rewrite IH, directivesTokens_cons.
  by rewrite <- app_assoc.
Qed.

Lemma wellFormed_keyword (kw k v : Token) :
  wf (kw, k, v) -> Text kw <> "}" /\ Text kw <> "{".
Proof. intros (-> & _). by split. Qed.

(** The inner loop over well-formed directives: every pair is assigned,
    in the order of the file. *)
Lemma block_directives (ds : list (Token * Token * Token)) (pre : list Token) (cur : Token)
    (post : list Token) (n0 : Z) (m : gmap string string) (fuel : nat) :
  Forall wf ds ->
  block (List.length ds + fuel) n0 (at_ pre cur (dTokens ds ++ post) (n0 + 1)) (Some m)
  = block fuel n0 (at_ (after pre cur ds).1 (after pre cur ds).2 post (n0 + 1))
          (Some (addParams m (dPairs ds))).
Proof.
  revert pre cur m. induction ds as [|[[kw k] v] ds IH]; intros pre cur m Hwf; [done|].
  apply Forall_cons in Hwf as [Hd Hwf].
  destruct (wellFormed_keyword _ _ _ Hd) as [Hc Ho].
  rewrite directivesTokens_cons. cbn [List.length Nat.add app caddyfile.block].
  rewrite NextBlock_inside by done.
  rewrite subdirective_wellFormed by done.
  rewrite IH by done. cbn [afterDirectives]. do 3 f_equal.
  all: by rewrite <- !app_assoc.
Qed.

Lemma directivesTokens_nil : dTokens [] = [].
Proof. reflexivity. Qed.

Lemma block_S (fuel : nat) (n0 : Z) (d : Dispenser) (t : caddyfile.params) :
  block (S fuel) n0 d t
  = let '(ok, d) := NextBlock n0 d in
    if ok then
      match subdirective d t with
      | (None, d, t) => block fuel n0 d t
      | ended => ended
      end
    else (None, d, t).
Proof. reflexivity. Qed.

Lemma directives_S (fuel : nat) (d : Dispenser) (t : caddyfile.params) :
  directives (S fuel) d t
  = let '(ok, d) := Next d in
    if ok then
      match block fuel (caddyfile.Nesting Token d) d t with
      | (None, d, t) => directives fuel d t
      | (Some e, d, t) => (e, d, t)
      end
    else (caddyfile.Returned None, d, t).
Proof. reflexivity. Qed.

(** The inner loop from the name of the transport to the token after the
    well-formed directives of its block. *)
Lemma block_reach (pre : list Token) (name open x : Token)
    (ds : list (Token * Token * Token)) (post : list Token) (n0 : Z)
    (m : gmap string string) (fuel : nat) :
  Text open = "{" -> isNextOnNewLine name open = false -> Forall wf ds ->
  Text x <> "}" -> Text x <> "{" ->
  block (S (List.length ds + fuel)) n0
        (at_ pre name (open :: dTokens ds ++ x :: post) n0) (Some m)
  = match subdirective (at_ (pre ++ name :: open :: dTokens ds) x post (n0 + 1))
                       (Some (addParams m (dPairs ds))) with
    | (None, d, t) => block fuel n0 d t
    | ended => ended
    end.
Proof.
  intros Ho Hl Hwf Hc Hb. destruct ds as [|[[kw k] v] ds].
  - rewrite directivesTokens_nil, block_S. cbn [app].
    rewrite NextBlock_open by done. rewrite <- app_assoc. reflexivity.
  - apply Forall_cons in Hwf as [Hd Hwf].
    destruct (wellFormed_keyword _ _ _ Hd) as [Hkc Hko].
    rewrite directivesTokens_cons, block_S. cbn [app].
    rewrite NextBlock_open by done.
    rewrite subdirective_wellFormed by done.
    cbn [List.length Nat.add].
    replace (S (List.length ds + fuel)) with (List.length ds + S fuel)%nat by lia.
    rewrite block_directives by done. rewrite block_S.
    rewrite NextBlock_inside by done.
    rewrite afterDirectives_tokens. rewrite <- !app_assoc. reflexivity.
Qed.

(** The inner loop over a block of well-formed directives. *)
Lemma block_close (pre : list Token) (name open close : Token)
    (ds : list (Token * Token * Token)) (n0 : Z) (m : gmap string string) (fuel : nat) :
  Text open = "{" -> isNextOnNewLine name open = false -> Forall wf ds ->
  Text close = "}" ->
  block (S (List.length ds + fuel)) n0
        (at_ pre name (open :: dTokens ds ++ [close]) n0) (Some m)
  = (None, at_ (pre ++ name :: open :: dTokens ds) close [] n0,
     Some (addParams m (dPairs ds))).
Proof.
  intros Ho Hl Hwf Hc. destruct ds as [|[[kw k] v] ds].
  - rewrite directivesTokens_nil, block_S. cbn [app].
    rewrite NextBlock_open_close by done. rewrite <- app_assoc. reflexivity.
  - apply Forall_cons in Hwf as [Hd Hwf].
    destruct (wellFormed_keyword _ _ _ Hd) as [Hkc Hko].
    rewrite directivesTokens_cons, block_S. cbn [app].
    rewrite NextBlock_open by done.
    rewrite subdirective_wellFormed by done.
    cbn [List.length Nat.add].
    replace (S (List.length ds + fuel)) with (List.length ds + S fuel)%nat by lia.
    rewrite block_directives by done. rewrite block_S.
    rewrite NextBlock_close by done.
    rewrite afterDirectives_tokens. rewrite <- !app_assoc. reflexivity.
Qed.

Lemma length_config (name open : Token) (ds : list (Token * Token * Token))
    (rest : list Token) :
  List.length (name :: open :: dTokens ds ++ rest)
  = S (List.length ds + S (2 * List.length ds + List.length rest)).
Proof. cbn [List.length]. rewrite length_app, length_directivesTokens. lia. Qed.

(** The call over a block of well-formed directives. *)
Lemma unmarshal_closed (name open close : Token)
    (ds : list (Token * Token * Token)) (m : gmap string string) :
  Text open = "{" -> isNextOnNewLine name open = false -> Forall wf ds ->
  Text close = "}" ->
  caddyfile.UnmarshalCaddyfile Token Text isNextOnNewLine
    (caddyfile.NewDispenser Token (name :: open :: dTokens ds ++ [close])) (Some m)
  = (caddyfile.Returned None, at_ (name :: open :: dTokens ds) close [] 0,
     Some (addParams m (dPairs ds))).
Proof.
  intros Ho Hl Hwf Hc. unfold caddyfile.UnmarshalCaddyfile.
  change (caddyfile.tokens Token (caddyfile.NewDispenser Token ?ts)) with ts.
  rewrite length_config, directives_S, Next_New. cbv beta iota zeta.
  change (caddyfile.Nesting Token (at_ [] name ?p 0)) with 0.
  rewrite block_close by done. cbv beta iota zeta.
  rewrite directives_S, app_nil_l, Next_at_end. reflexivity.
Qed.

(** The call over well-formed directives followed by a token on which
    the body of the loop returns. *)
Lemma unmarshal_ends_at (name open x : Token) (ds : list (Token * Token * Token))
    (post : list Token) (m : gmap string string)
    (e : caddyfile.ending) (d : Dispenser) (t : caddyfile.params) :
  Text open = "{" -> isNextOnNewLine name open = false -> Forall wf ds ->
  Text x <> "}" -> Text x <> "{" ->
  subdirective (at_ (name :: open :: dTokens ds) x post (0 + 1))
               (Some (addParams m (dPairs ds))) = (Some e, d, t) ->
  caddyfile.UnmarshalCaddyfile Token Text isNextOnNewLine
    (caddyfile.NewDispenser Token (name :: open :: dTokens ds ++ x :: post)) (Some m)
  = (e, d, t).
Proof.
  intros Ho Hl Hwf Hc Hb Hsub. unfold caddyfile.UnmarshalCaddyfile.
  change (caddyfile.tokens Token (caddyfile.NewDispenser Token ?ts)) with ts.
  rewrite length_config, directives_S, Next_New. cbv beta iota zeta.
  change (caddyfile.Nesting Token (at_ [] name ?p 0)) with 0.
  rewrite block_reach by done. rewrite app_nil_l, Hsub. reflexivity.
Qed.

(** The first directive when the map of the parameters is nil. *)
Lemma unmarshal_nil (name open kw k v : Token) (post : list Token) :
  Text open = "{" -> isNextOnNewLine name open = false -> wf (kw, k, v) ->
  caddyfile.UnmarshalCaddyfile Token Text isNextOnNewLine
    (caddyfile.NewDispenser Token (name :: open :: kw :: k :: v :: post)) None
  = (caddyfile.PanicNilMap, at_ [name; open; kw; k] v post (0 + 1), None).
Proof.
  intros Ho Hl Hd. destruct (wellFormed_keyword _ _ _ Hd) as [Hkc Hko].
  unfold caddyfile.UnmarshalCaddyfile.
  change (caddyfile.tokens Token (caddyfile.NewDispenser Token ?ts)) with ts.
  cbn [List.length]. rewrite directives_S, Next_New. cbv beta iota zeta.
  change (caddyfile.Nesting Token (at_ [] name ?p 0)) with 0.
  rewrite block_S, NextBlock_open by done. rewrite subdirective_nil by done.
  reflexivity.
Qed.

(** ** The loops on any tokens *)

Local Abbreviation toks := (caddyfile.tokens Token).
Local Abbreviation cur := (caddyfile.cursor Token).
Local Abbreviation size d := (GoSlice.len (caddyfile.tokens Token d)).

Lemma Val_in_range (d : Dispenser) : Val d <> "" -> 0 <= cur d < size d.
Proof.
  unfold caddyfile.Val.
  destruct (Z.ltb_spec (cur d) 0); [done|].
  destruct (Z.leb_spec (size d) (cur d)); [done|]. lia.
Qed.

Lemma Next_moves (d : Dispenser) (ok : bool) (d' : Dispenser) :
  Next d = (ok, d') ->
  toks d' = toks d /\
  if ok then cur d' = cur d + 1 /\ cur d' < size d else cur d' = cur d.
Proof.
  unfold caddyfile.Next, caddyfile.moveTo.
  destruct (Z.ltb_spec (cur d) (size d - 1)); intros [= <- <-];
    cbn [caddyfile.tokens caddyfile.cursor]; repeat split; lia.
Qed.

Lemma nextOnSameLine_moves (d : Dispenser) (ok : bool) (d' : Dispenser) :
  nextOnSameLine d = (ok, d') ->
  toks d' = toks d /\
  if ok then cur d' = cur d + 1 /\ (0 <= cur d -> cur d' < size d)
  else cur d' = cur d.
Proof.
  unfold caddyfile.nextOnSameLine, caddyfile.moveTo.
  destruct (Z.ltb_spec (cur d) 0);
    [intros [= <- <-]; cbn [caddyfile.tokens caddyfile.cursor]; repeat split; lia|].
  destruct (Z.leb_spec (size d - 1) (cur d)); [by intros [= <- <-]|].
  destruct (nth_error (toks d) (Z.to_nat (cur d))) as [c|]; [|by intros [= <- <-]].
  destruct (nth_error (toks d) (Z.to_nat (cur d + 1))) as [n|]; [|by intros [= <- <-]].
  destruct (isNextOnNewLine c n); cbn [negb]; intros [= <- <-];
    cbn [caddyfile.tokens caddyfile.cursor]; repeat split; lia.
Qed.

(** [NextArg] never moves back. *)
Lemma NextArg_moves (d : Dispenser) (ok : bool) (d' : Dispenser) :
  NextArg d = (ok, d') -> toks d' = toks d /\ cur d <= cur d'.
Proof.
  unfold caddyfile.NextArg, caddyfile.moveTo.
  destruct (nextOnSameLine d) as [same d1] eqn:E.
  apply nextOnSameLine_moves in E as [Ht Hc].
  destruct same; cbn [negb]; [|intros [= <- <-]; split; [done|lia]].
  destruct (String.eqb (Val d1) "{"); intros [= <- <-];
    cbn [caddyfile.tokens caddyfile.cursor]; split; try done; lia.
Qed.

Lemma isAloneOnLine_moves (text : string) (d : Dispenser) (b : bool) (d' : Dispenser) :
  0 <= cur d < size d ->
  caddyfile.isAloneOnLine Token Text isNextOnNewLine text d = (b, d') ->
  toks d' = toks d /\ caddyfile.nesting Token d' = caddyfile.nesting Token d /\
  cur d <= cur d' < size d.
Proof.
  intros Hd. unfold caddyfile.isAloneOnLine.
  destruct (String.eqb (Val d) text); [|intros [= <- <-]; repeat split; lia].
  destruct (nextOnSameLine d) as [same d1] eqn:E.
  assert (Hn : caddyfile.nesting Token d1 = caddyfile.nesting Token d).
  { revert E. unfold caddyfile.nextOnSameLine, caddyfile.moveTo.
    repeat case_match; by intros [= <- <-]. }
  apply nextOnSameLine_moves in E as [Ht Hc].
  intros [= <- <-]. destruct same; repeat split; try done; lia.
Qed.

(** The condition of the inner loop never moves back, and when it holds a
    token was loaded. *)
Lemma NextBlock_moves (n0 : Z) (d : Dispenser) (ok : bool) (d' : Dispenser) :
  -1 <= cur d ->
  NextBlock n0 d = (ok, d') ->
  toks d' = toks d /\ cur d <= cur d' /\
  (ok = true -> cur d < cur d' < size d).
Proof.
  intros Hd. unfold caddyfile.NextBlock.
  destruct (n0 <? caddyfile.nesting Token d).
  - destruct (Next d) as [ok1 d1] eqn:E1. apply Next_moves in E1 as [Ht1 Hc1].
    destruct ok1; cbn [negb];
      [|intros [= <- <-]; split; [done|split; [lia|done]]].
    destruct (caddyfile.isAloneOnLine Token Text isNextOnNewLine "}" d1)
      as [closes d2] eqn:E2.
    apply isAloneOnLine_moves in E2 as (Ht2 & _ & Hc2); [|rewrite Ht1; lia].
    rewrite Ht1 in Hc2. destruct closes.
    + intros [= <- <-]. cbn [caddyfile.nest caddyfile.tokens caddyfile.cursor].
      split; [congruence|]. split; [lia|]. intros _. lia.
    + destruct (caddyfile.isAloneOnLine Token Text isNextOnNewLine "{" d2)
        as [opens d3] eqn:E3.
      apply isAloneOnLine_moves in E3 as (Ht3 & _ & Hc3); [|rewrite Ht2, Ht1; lia].
      rewrite Ht2, Ht1 in Hc3.
      destruct opens; intros [= <- <-];
        cbn [caddyfile.nest caddyfile.tokens caddyfile.cursor];
        (split; [congruence|]; split; [lia|]; intros _; lia).
  - destruct (nextOnSameLine d) as [same d1] eqn:E1.
    apply nextOnSameLine_moves in E1 as [Ht1 Hc1].
    destruct same; cbn [negb];
      [|intros [= <- <-]; split; [done|split; [lia|done]]].
    destruct (String.eqb (Val d1) "{") eqn:Ev; cbn [negb].
    + assert (Hr : 0 <= cur d1 < size d1).
      { apply Val_in_range. apply String.eqb_eq in Ev. by rewrite Ev. }
      rewrite Ht1 in Hr.
      destruct (Next d1) as [ok2 d2] eqn:E2. apply Next_moves in E2 as [Ht2 Hc2].
      rewrite Ht1 in Hc2. cbn [snd].
      destruct (String.eqb (Val d2) "}"); intros [= <- <-];
        cbn [caddyfile.nest caddyfile.tokens caddyfile.cursor];
        (split; [congruence|]; split; [destruct ok2; lia|]; intros _;
         destruct ok2; lia).
    + intros [= <- <-]. cbn [caddyfile.moveTo caddyfile.tokens caddyfile.cursor].
      split; [done|]. split; [lia|done].
Qed.

(** The body of the loop never moves back, never panics on a map that is
    not nil, and removes no parameter. *)
Lemma subdirective_moves (d : Dispenser) (m : gmap string string)
    (e : option caddyfile.ending) (d' : Dispenser) (t' : caddyfile.params) :
  subdirective d (Some m) = (e, d', t') ->
  toks d' = toks d /\ cur d <= cur d' /\
  (e = None \/ exists err, e = Some (caddyfile.Returned err)) /\
  exists m', t' = Some m' /\ dom m ⊆ dom m'.
Proof.
  unfold caddyfile.subdirective.
  destruct (String.eqb (Val d) "uwsgi_param");
    [|intros [= <- <- <-]; repeat split; [lia|eauto|eauto]].
  destruct (NextArg d) as [ok1 d1] eqn:E1. apply NextArg_moves in E1 as [Ht1 Hc1].
  destruct ok1; cbn [negb]; [|intros [= <- <- <-]; repeat split; eauto].
  destruct (NextArg d1) as [ok2 d2] eqn:E2. apply NextArg_moves in E2 as [Ht2 Hc2].
  destruct ok2; cbn [negb]; intros [= <- <- <-];
    (repeat split; [congruence|lia|eauto|]).
  - eexists; split; [done|]. rewrite dom_insert. set_solver.
  - eauto.
Qed.

(** The inner loop with fuel for the tokens that are left. *)
Lemma block_total (fuel : nat) (n0 : Z) (d : Dispenser) (m : gmap string string) :
  -1 <= cur d -> size d - 1 - cur d < Z.of_nat fuel -> (0 < fuel)%nat ->
  exists e d' m',
    block fuel n0 d (Some m) = (e, d', Some m') /\
    toks d' = toks d /\ cur d <= cur d' /\ dom m ⊆ dom m' /\
    (e = None \/ exists err, e = Some (caddyfile.Returned err)).
Proof.
  revert d m. induction fuel as [|fuel IH]; intros d m Hd Hf Hpos; [lia|].
  rewrite block_S. destruct (NextBlock n0 d) as [ok d1] eqn:E1.
  apply NextBlock_moves in E1 as (Ht1 & Hc1 & Hb1); [|done].
  destruct ok; [|by exists None, d1, m; eauto 10].
  specialize (Hb1 eq_refl).
  destruct (subdirective d1 (Some m)) as [[e d2] t2] eqn:E2.
  apply subdirective_moves in E2 as (Ht2 & Hc2 & He2 & m2 & -> & Hm2).
  destruct He2 as [->|[err ->]].
  - destruct (IH d2 m2) as (e & d3 & m3 & Heq & Ht3 & Hc3 & Hm3 & He3);
      [lia|rewrite Ht2, Ht1; lia|lia|].
    exists e, d3, m3. repeat split; [done|congruence|lia|by etrans|done].
  - exists (Some (caddyfile.Returned err)), d2, m2.
    repeat split; [congruence|lia|done|eauto].
Qed.

(** The outer loop with fuel for the tokens that are left. *)
Lemma directives_total (fuel : nat) (d : Dispenser) (m : gmap string string) :
  -1 <= cur d -> size d - 1 - cur d < Z.of_nat fuel -> (0 < fuel)%nat ->
  exists err d' m',
    directives fuel d (Some m) = (caddyfile.Returned err, d', Some m') /\
    dom m ⊆ dom m'.
Proof.
  revert d m. induction fuel as [|fuel IH]; intros d m Hd Hf Hpos; [lia|].
  rewrite directives_S. destruct (Next d) as [ok d1] eqn:E1.
  apply Next_moves in E1 as [Ht1 Hc1].
  destruct ok; [|by exists None, d1, m].
  destruct (block_total fuel (caddyfile.Nesting Token d1) d1 m)
    as (e & d2 & m2 & Heq & Ht2 & Hc2 & Hm2 & He2); [lia|rewrite Ht1; lia|lia|].
  rewrite Heq. destruct He2 as [->|[err ->]]; [|by exists err, d2, m2].
  destruct (IH d2 m2) as (err & d3 & m3 & Heq' & Hm3);
    [lia|rewrite Ht2, Ht1; lia|lia|].
  exists err, d3, m3. split; [done|by etrans].
Qed.

End DispenserLemmas.

(** ** What the directive stores *)

Lemma addParams_app (vars : gmap string string) (ps1 ps2 : list (string * string)) :
  addParams vars (ps1 ++ ps2) = addParams (addParams vars ps1) ps2.
Proof. unfold addParams. apply foldl_app. Qed.

Lemma addParams_lookup_notin (ps : list (string * string)) (vars : gmap string string)
    (k : string) :
  k ∉ ps.*1 -> addParams vars ps !! k = vars !! k.
Proof.
  revert vars. induction ps as [|[k' v'] ps IH]; intros vars Hk; [done|].
  apply not_elem_of_cons in Hk as [Hne Hk].
  change (addParams (<[k' := v']> vars) ps !! k = vars !! k).
  rewrite IH by done. by apply lookup_insert_ne.
Qed.

(** The last assignment to a name is the one that stays. *)
Lemma addParams_lookup_last (ps1 ps2 : list (string * string)) (vars : gmap string string)
    (k v : string) :
  k ∉ ps2.*1 -> addParams vars (ps1 ++ (k, v) :: ps2) !! k = Some v.
Proof.
  intros Hk. rewrite addParams_app.
  change (addParams (<[k := v]> (addParams vars ps1)) ps2 !! k = Some v).
  rewrite addParams_lookup_notin by done. by simplify_map_eq.
Qed.

(** X16: a transport block of well-formed directives, from the name of the
    transport to the closing brace that ends the tokens, is accepted: the
    call returns [nil] and has assigned the pair of every directive, in the
    order of the file, to the parameters it was given.  A block without
    directives leaves them as they were. *)
Theorem well_formed_block_is_stored
    (Token : Type) (Text : Token -> string) (isNextOnNewLine : Token -> Token -> bool)
    (name open close : Token) (ds : list (Token * Token * Token))
    (m : gmap string string) :
  Text open = "{" -> isNextOnNewLine name open = false -> Text close = "}" ->
  Forall (wellFormed Token Text isNextOnNewLine) ds ->
  endingAndParams Token
    (caddyfile.UnmarshalCaddyfile Token Text isNextOnNewLine
       (caddyfile.NewDispenser Token (name :: open :: directivesTokens Token ds ++ [close]))
       (Some m))
  = (caddyfile.Returned None, Some (addParams m (directivesPairs Token Text ds))).
Proof.
  intros Ho Hl Hc Hwf. unfold endingAndParams.
  by rewrite unmarshal_closed.
Qed.

Lemma well_formed_block_is_stored_witness :
  Forall (wellFormed Config.Token Config.Text Config.isNextOnNewLine) Config.twice /\
  endingAndParams Config.Token
    (caddyfile.UnmarshalCaddyfile Config.Token Config.Text Config.isNextOnNewLine
       (caddyfile.NewDispenser Config.Token
          (Config.name :: Config.open
             :: directivesTokens Config.Token Config.twice ++ [Config.close]))
       (Some ∅))
  = (caddyfile.Returned None,
     Some (addParams ∅ (directivesPairs Config.Token Config.Text Config.twice))).
Proof.
  assert (H : Forall (wellFormed Config.Token Config.Text Config.isNextOnNewLine)
                Config.twice).
  { unfold Config.twice. repeat constructor; done. }
  split; [exact H|].
  apply (well_formed_block_is_stored Config.Token Config.Text Config.isNextOnNewLine
           Config.name Config.open Config.close Config.twice ∅);
    [reflexivity|reflexivity|reflexivity|exact H].
Defined.

(** X17: a token in the block that is not the keyword [uwsgi_param] (nor a
    brace) ends the call with the error that names it, and the directives
    before it have already been assigned: the error does not undo them. *)
Theorem unknown_subdirective_keeps_earlier_params
    (Token : Type) (Text : Token -> string) (isNextOnNewLine : Token -> Token -> bool)
    (name open bad : Token) (ds : list (Token * Token * Token)) (post : list Token)
    (m : gmap string string) :
  Text open = "{" -> isNextOnNewLine name open = false ->
  Forall (wellFormed Token Text isNextOnNewLine) ds ->
  Text bad <> "uwsgi_param" -> Text bad <> "}" -> Text bad <> "{" ->
  endingAndParams Token
    (caddyfile.UnmarshalCaddyfile Token Text isNextOnNewLine
       (caddyfile.NewDispenser Token (name :: open :: directivesTokens Token ds ++ bad :: post))
       (Some m))
  = (caddyfile.Returned (Some (caddyfile.UnknownSubdirective (Text bad))),
     Some (addParams m (directivesPairs Token Text ds))).
Proof.
  intros Ho Hl Hwf Hbad Hc Hb. unfold endingAndParams.
  by rewrite (unmarshal_ends_at Token Text isNextOnNewLine name open bad ds post m
                _ _ _ Ho Hl Hwf Hc Hb (subdirective_unknown _ _ _ _ _ _ _ _ Hbad)).
Qed.

Lemma unknown_subdirective_keeps_earlier_params_witness :
  Forall (wellFormed Config.Token Config.Text Config.isNextOnNewLine) Config.twice /\
  endingAndParams Config.Token
    (caddyfile.UnmarshalCaddyfile Config.Token Config.Text Config.isNextOnNewLine
       (caddyfile.NewDispenser Config.Token
          (Config.name :: Config.open
             :: directivesTokens Config.Token Config.twice
                ++ Config.stray :: [Config.closeLate]))
       (Some ∅))
  = (caddyfile.Returned (Some (caddyfile.UnknownSubdirective "uwsgi_modifier1")),
     Some (addParams ∅ (directivesPairs Config.Token Config.Text Config.twice))).
Proof.
  assert (H : Forall (wellFormed Config.Token Config.Text Config.isNextOnNewLine)
                Config.twice).
  { unfold Config.twice. repeat constructor; done. }
  split; [exact H|].
  apply (unknown_subdirective_keeps_earlier_params Config.Token Config.Text
           Config.isNextOnNewLine Config.name Config.open Config.stray Config.twice
           [Config.closeLate] ∅);
    [reflexivity|reflexivity|exact H|done|done|done].
Defined.

(** X18: the keyword and a key with nothing more on their line end the
    call with the argument error at the key; the key is assigned nothing,
    and the directives before it have been assigned. *)
Theorem missing_value_is_an_argument_error
    (Token : Type) (Text : Token -> string) (isNextOnNewLine : Token -> Token -> bool)
    (name open kw k nxt : Token) (ds : list (Token * Token * Token)) (post : list Token)
    (m : gmap string string) :
  Text open = "{" -> isNextOnNewLine name open = false ->
  Forall (wellFormed Token Text isNextOnNewLine) ds ->
  Text kw = "uwsgi_param" -> isNextOnNewLine kw k = false -> Text k <> "{" ->
  isNextOnNewLine k nxt = true ->
  endingAndParams Token
    (caddyfile.UnmarshalCaddyfile Token Text isNextOnNewLine
       (caddyfile.NewDispenser Token
          (name :: open :: directivesTokens Token ds ++ kw :: k :: nxt :: post))
       (Some m))
  = (caddyfile.Returned (Some (caddyfile.ArgErr (Text k))),
     Some (addParams m (directivesPairs Token Text ds))).
Proof.
  intros Ho Hl Hwf Hkw Hk Hkb Hnl. unfold endingAndParams.
  assert (Hc : Text kw <> "}") by by rewrite Hkw.
  assert (Hb : Text kw <> "{") by by rewrite Hkw.
  by rewrite (unmarshal_ends_at Token Text isNextOnNewLine name open kw ds
                (k :: nxt :: post) m _ _ _ Ho Hl Hwf Hc Hb
                (subdirective_no_value _ _ _ _ _ _ _ _ _ _ Hkw Hk Hkb Hnl)).
Qed.

Lemma missing_value_is_an_argument_error_witness :
  Forall (wellFormed Config.Token Config.Text Config.isNextOnNewLine) Config.twice /\
  endingAndParams Config.Token
    (caddyfile.UnmarshalCaddyfile Config.Token Config.Text Config.isNextOnNewLine
       (caddyfile.NewDispenser Config.Token
          (Config.name :: Config.open
             :: directivesTokens Config.Token Config.twice
                ++ Config.keyword :: Config.key :: Config.closeLate :: []))
       (Some ∅))
  = (caddyfile.Returned (Some (caddyfile.ArgErr "UWSGI_FILE")),
     Some (addParams ∅ (directivesPairs Config.Token Config.Text Config.twice))).
Proof.
  assert (H : Forall (wellFormed Config.Token Config.Text Config.isNextOnNewLine)
                Config.twice).
  { unfold Config.twice. repeat constructor; done. }
  split; [exact H|].
  apply (missing_value_is_an_argument_error Config.Token Config.Text
           Config.isNextOnNewLine Config.name Config.open Config.keyword Config.key
           Config.closeLate Config.twice [] ∅);
    [reflexivity|reflexivity|exact H|reflexivity|reflexivity|done|reflexivity].
Defined.

(** X19: on a transport whose map of parameters is nil, the first
    well-formed directive of the block does not return: the assignment of
    line 191 panics. *)
Theorem directive_on_nil_map_panics
    (Token : Type) (Text : Token -> string) (isNextOnNewLine : Token -> Token -> bool)
    (name open kw k v : Token) (post : list Token) :
  Text open = "{" -> isNextOnNewLine name open = false ->
  wellFormed Token Text isNextOnNewLine (kw, k, v) ->
  endingAndParams Token
    (caddyfile.UnmarshalCaddyfile Token Text isNextOnNewLine
       (caddyfile.NewDispenser Token (name :: open :: kw :: k :: v :: post)) None)
  = (caddyfile.PanicNilMap, None).
Proof.
  intros Ho Hl Hd. unfold endingAndParams. by rewrite unmarshal_nil.
Qed.

Lemma directive_on_nil_map_panics_witness :
  endingAndParams Config.Token
    (caddyfile.UnmarshalCaddyfile Config.Token Config.Text Config.isNextOnNewLine
       (caddyfile.NewDispenser Config.Token
          [Config.name; Config.open; ("uwsgi_param", 2); ("UWSGI_SCRIPT", 2); ("app", 2);
           Config.close])
       None)
  = (caddyfile.PanicNilMap, None).
Proof.
  apply (directive_on_nil_map_panics Config.Token Config.Text Config.isNextOnNewLine
           Config.name Config.open ("uwsgi_param", 2) ("UWSGI_SCRIPT", 2) ("app", 2)
           [Config.close]);
    [reflexivity|reflexivity|repeat split; done].
Defined.

(** X20: on a transport whose map of parameters is not nil, as the one
    [New] of [CaddyModule] makes, the call returns for every list of tokens
    and every position of the dispenser from before the first token on: it
    neither panics nor loops for ever, the parameters are still a map, and
    no name that had a value has lost it. *)
Theorem unmarshal_returns_and_keeps_names
    (Token : Type) (Text : Token -> string) (isNextOnNewLine : Token -> Token -> bool)
    (d : caddyfile.Dispenser Token) (m : gmap string string) :
  -1 <= caddyfile.cursor Token d ->
  exists (err : option caddyfile.parseError) (d' : caddyfile.Dispenser Token)
         (m' : gmap string string),
    caddyfile.UnmarshalCaddyfile Token Text isNextOnNewLine d (Some m)
      = (caddyfile.Returned err, d', Some m') /\
    dom m ⊆ dom m'.
Proof.
  intros Hd. unfold caddyfile.UnmarshalCaddyfile.
  apply directives_total; [done| |lia].
  unfold GoSlice.len. lia.
Qed.

Lemma unmarshal_returns_and_keeps_names_witness :
  -1 <= caddyfile.cursor Config.Token
          (caddyfile.NewDispenser Config.Token [Config.name; Config.stray]) /\
  exists (err : option caddyfile.parseError) (d' : caddyfile.Dispenser Config.Token)
         (m' : gmap string string),
    caddyfile.UnmarshalCaddyfile Config.Token Config.Text Config.isNextOnNewLine
        (caddyfile.NewDispenser Config.Token [Config.name; Config.stray])
        (Some (UWSGIParams Sample.params))
      = (caddyfile.Returned err, d', Some m') /\
    dom (UWSGIParams Sample.params) ⊆ dom m'.
Proof.
  split; [done|].
  apply (unmarshal_returns_and_keeps_names Config.Token Config.Text
           Config.isNextOnNewLine
           (caddyfile.NewDispenser Config.Token [Config.name; Config.stray])
           (UWSGIParams Sample.params)).
  done.
Defined.

(** X21: from the module to the backend.  The transport [New] makes, after
    the directive has read a block of well-formed directives, sends the
    value of the last directive of a key under that key: whenever the
    encoder returns a block for which every name and value it wrote is
    shorter than 65536 bytes, the block reads as the pairs written, and
    every reading of the block has the key with that value and with no
    other value, whatever the request derives for the key. *)
Theorem configured_param_is_sent
    (unicodeToUpper : string -> string) (rt : MapRange) (req : http.Request)
    (Token : Type) (Text : Token -> string) (isNextOnNewLine : Token -> Token -> bool)
    (name open close kw k v : Token) (ds1 ds2 : list (Token * Token * Token))
    (t : Transport) (block : list byte) (err : option error)
    (entries : list (string * string)) :
  Text open = "{" -> isNextOnNewLine name open = false -> Text close = "}" ->
  Forall (wellFormed Token Text isNextOnNewLine) (ds1 ++ (kw, k, v) :: ds2) ->
  Text k ∉ (directivesPairs Token Text ds2).*1 ->
  t = transportOf
        (caddyfile.UnmarshalCaddyfile Token Text isNextOnNewLine
           (caddyfile.NewDispenser Token
              (name :: open :: directivesTokens Token (ds1 ++ (kw, k, v) :: ds2) ++ [close]))
           CaddyModule_New).2 ->
  generateBlockVars unicodeToUpper rt req t = Returns (block, err) ->
  blockEntries unicodeToUpper rt req t = Returns entries ->
  Forall fitsUint16 entries ->
  readsAs block entries /\
  forall read, readsAs block read ->
    (Text k, Text v) ∈ read /\
    forall v', (Text k, v') ∈ read -> v' = Text v.
Proof.
  intros Ho Hl Hc Hwf Hk Ht Hgen Hent Hfit. unfold CaddyModule_New in Ht.
  rewrite unmarshal_closed in Ht by done.
  cbn [snd] in Ht. change (transportOf (Some ?x)) with (mkTransport x) in Ht.
  destruct (reading_lookup _ _ _ _ _ _ _ Hgen Hent Hfit) as (dv & Hdv & Hre & Hread).
  split; [done|]. intros read Hr. destruct (Hread read Hr) as [_ Hlk].
  assert (Hlook : (UWSGIParams t ∪ dv) !! Text k = Some (Text v)).
  { apply lookup_union_Some_l. rewrite Ht. cbn [UWSGIParams].
    unfold directivesPairs. rewrite fmap_app, fmap_cons.
    by apply addParams_lookup_last. }
  split.
  - by apply Hlk.
  - intros v' Hv'. apply Hlk in Hv'. congruence.
Qed.

Lemma configured_param_is_sent_witness :
  Sample.scriptParam "main"
    = transportOf
        (caddyfile.UnmarshalCaddyfile Config.Token Config.Text Config.isNextOnNewLine
           (caddyfile.NewDispenser Config.Token
              (Config.name :: Config.open
                 :: directivesTokens Config.Token
                      ([(("uwsgi_param", 2), ("UWSGI_SCRIPT", 2), ("app", 2))]
                       ++ (("uwsgi_param", 3), ("UWSGI_SCRIPT", 3), ("main", 3)) :: [])
                    ++ [Config.close]))
           CaddyModule_New).2 /\
  generateBlockVars Sample.noUnicode canonicalRange Sample.plain (Sample.scriptParam "main")
    = Returns (Config.block, None) /\
  blockEntries Sample.noUnicode canonicalRange Sample.plain (Sample.scriptParam "main")
    = Returns (Sample.scriptEntries "main") /\
  Forall fitsUint16 (Sample.scriptEntries "main") /\
  readsAs Config.block (Sample.scriptEntries "main") /\
  forall read, readsAs Config.block read ->
    ("UWSGI_SCRIPT", "main") ∈ read /\
    forall v', ("UWSGI_SCRIPT", v') ∈ read -> v' = "main".
Proof.
  assert (H : Forall fitsUint16 (Sample.scriptEntries "main")).
  { unfold Sample.scriptEntries. repeat constructor. }
  assert (Ht : Sample.scriptParam "main"
    = transportOf
        (caddyfile.UnmarshalCaddyfile Config.Token Config.Text Config.isNextOnNewLine
           (caddyfile.NewDispenser Config.Token
              (Config.name :: Config.open
                 :: directivesTokens Config.Token
                      ([(("uwsgi_param", 2), ("UWSGI_SCRIPT", 2), ("app", 2))]
                       ++ (("uwsgi_param", 3), ("UWSGI_SCRIPT", 3), ("main", 3)) :: [])
                    ++ [Config.close]))
           CaddyModule_New).2).
  { unfold CaddyModule_New.
    rewrite (unmarshal_closed Config.Token Config.Text Config.isNextOnNewLine
               Config.name Config.open Config.close)
      by (repeat constructor; done).
    reflexivity. }
  split; [exact Ht|].
  split; [vm_compute; reflexivity|]. split; [vm_compute; reflexivity|].
  split; [exact H|].
  apply (configured_param_is_sent Sample.noUnicode canonicalRange Sample.plain
           Config.Token Config.Text Config.isNextOnNewLine
           Config.name Config.open Config.close
           ("uwsgi_param", 3) ("UWSGI_SCRIPT", 3) ("main", 3)
           [(("uwsgi_param", 2), ("UWSGI_SCRIPT", 2), ("app", 2))] []
           (Sample.scriptParam "main") Config.block None (Sample.scriptEntries "main"));
    [reflexivity|reflexivity|reflexivity|repeat constructor; done
    |apply not_elem_of_nil|exact Ht|vm_compute; reflexivity|vm_compute; reflexivity|exact H].
Defined.
